(** * Metric aggregation and checkpoint resume: a shallow embedding

    This development embeds two modules of the training loop,

    - [pytorch_lightning/trainer/connectors/logger_connector/result.py]
      ([Metadata], [ResultMetric], [ResultCollection]), and
    - [pytorch_lightning/trainer/connectors/checkpoint_connector.py]
      ([CheckpointConnector]),

    and proves properties of them.

    Conventions of the embedding.

    - A tensor is the finite sequence of its elements.  Floating-point
      arithmetic is idealised as exact arithmetic on rationals ([Q]), so
      rounding, infinities and NaN are not represented: a division by
      zero, which torch answers with [nan] or [inf], is [0] here.
    - A Python exception is an [outcome] [Raise e]; the object state at
      the point of the exception is not tracked for the metric
      collection, and is tracked for the checkpoint connector (whose
      [world] is returned next to the exception).
    - Python attributes whose kind the code does not fix (the [value] of
      a [ResultMetric] is a tensor or a metric object) are sums. *)

From Stdlib Require Import QArith Qround ZArith Lia Lqa Ascii.
From stdpp Require Import base option list strings gmap pretty.

Open Scope Q_scope.

(** ** Exceptions and outcomes *)

Inductive exn : Type :=
| RuntimeError
| KeyError
| AssertionError
| AttributeError
| TypeError
| ValueError
| ZeroDivisionError
| FileNotFoundError
| NotADirectoryError
| IsADirectoryError
| MisconfigurationException.

#[global] Instance exn_eq_dec : EqDecision exn.
Proof. solve_decision. Defined.

Inductive outcome (A : Type) : Type :=
| Ok (a : A)
| Raise (e : exn).
Arguments Ok {A} a.
Arguments Raise {A} e.

#[global] Instance outcome_ret : MRet outcome := λ A a, Ok a.
#[global] Instance outcome_bind : MBind outcome := λ A B f m,
  match m with
  | Ok a => f a
  | Raise e => Raise e
  end.

Definition succeeds {A} (m : outcome A) : Prop := ∃ a, m = Ok a.

(** ** Tensors *)

Definition tensor : Type := list Q.

Definition tensor_sum (t : tensor) : Q := foldr Qplus 0 t.

(** [Tensor.mean()]: the arithmetic mean of the elements. *)
Definition tensor_mean (t : tensor) : Q :=
  tensor_sum t / inject_Z (Z.of_nat (length t)).

Definition Qlt_bool (a b : Q) : bool := negb (Qle_bool b a).

(** Python's builtin [max(a, b)] and [min(a, b)]: the first argument is
    kept unless the second is strictly greater (smaller). *)
Definition py_max (a b : Q) : Q := if Qlt_bool a b then b else a.
Definition py_min (a b : Q) : Q := if Qlt_bool b a then b else a.

(** [bool(t)] of a tensor: defined for one-element tensors only. *)
Definition tensor_truthy (t : tensor) : outcome bool :=
  match t with
  | [q] => Ok (negb (Qeq_bool q 0))
  | _ => Raise RuntimeError
  end.

(** ** Metadata *)

(** The callables that [Metadata.reduce_fx] is compared against, and any
    other callable. *)
Inductive reduce_fn : Type :=
| torch_mean
| torch_max
| builtin_max
| torch_min
| builtin_min
| other_fn (qualname : string).

Module Metadata.

Record t : Type := mk {
  fx : string;
  name : string;
  prog_bar : bool;
  logger : bool;
  on_step : bool;
  on_epoch : bool;
  reduce_fx : reduce_fn;
  dataloader_idx : option Z;
  metric_attribute : option string;
  has_reset : bool;
}.

Definition set_has_reset (b : bool) (m : t) : t :=
  mk (fx m) (name m) (prog_bar m) (logger m) (on_step m) (on_epoch m)
     (reduce_fx m) (dataloader_idx m) (metric_attribute m) b.

Definition forked (m : t) : bool := on_step m && on_epoch m.

Definition forked_name (m : t) (on_step : bool) : string :=
  if forked m
  then name m +:+ "_" +:+ (if on_step then "step" else "epoch")
  else name m.

Definition is_mean_reduction (m : t) : bool :=
  match reduce_fx m with torch_mean => true | _ => false end.

Definition is_max_reduction (m : t) : bool :=
  match reduce_fx m with torch_max | builtin_max => true | _ => false end.

Definition is_min_reduction (m : t) : bool :=
  match reduce_fx m with torch_min | builtin_min => true | _ => false end.

End Metadata.

(** ** Metric objects

    A [torchmetrics.Metric] handed to [log] is an external object.  The
    code uses its [compute()] (which may update the object, e.g. its own
    cache), its [reset()] and its [_forward_cache] attribute. *)

Class TorchMetric (M : Type) : Type := {
  obj_compute : M → tensor * M;
  obj_reset : M → M;
  obj_forward_cache : M → option tensor;
}.

(** What [log] is given at a leaf position: a tensor or a metric object. *)
Inductive logged (M : Type) : Type :=
| LTensor (t : tensor)
| LMetric (m : M).
Arguments LTensor {M} t.
Arguments LMetric {M} m.

(** ** ResultMetric *)

Module ResultMetric.
Section WithMetric.
Context {M : Type} `{!TorchMetric M}.

(** The [value] attribute: a 0-dim tensor accumulator, or a reference
    to a metric object. *)
Inductive pyval : Type :=
| VT (q : Q)
| VM (m : M).

(** The state behind [is_tensor], [value] and [cumulated_batch_size].
    With [is_tensor], [__init__] registers the state [value] (and
    [cumulated_batch_size] under mean reduction; under the other
    reductions nothing reads that field, and it is kept at its
    default).  Without [is_tensor] there is no [value] attribute until
    the first [update]. *)
Inductive accumulator : Type :=
| TensorAcc (value : pyval) (cumulated_batch_size : Q)
| ObjectAcc (value : option pyval).

Record t : Type := mk {
  acc : accumulator;
  _forward_cache : option tensor;
  _computed : option tensor;
}.

Definition is_tensor (self : t) : bool :=
  match acc self with TensorAcc _ _ => true | ObjectAcc _ => false end.

Definition value (self : t) : option pyval :=
  match acc self with TensorAcc v _ => Some v | ObjectAcc v => v end.

Definition set_acc (a : accumulator) (self : t) : t :=
  mk a (_forward_cache self) (_computed self).
Definition set_forward_cache (c : option tensor) (self : t) : t :=
  mk (acc self) c (_computed self).
Definition set_computed (c : option tensor) (self : t) : t :=
  mk (acc self) (_forward_cache self) c.

(** [__init__]: [add_state("value", tensor(0.))] when [is_tensor]. *)
Definition init (is_tensor : bool) : t :=
  mk (if is_tensor then TensorAcc (VT 0) 0 else ObjectAcc None) None None.

(** Reading a tensor accumulator.  Arithmetic on a [value] that holds a
    metric object (see [re_assign_metric]) goes through the operator
    overloading of the metric library, which is not followed here: it
    is reported as a [TypeError]. *)
Definition as_tensor (v : pyval) : outcome Q :=
  match v with VT q => Ok q | VM _ => Raise TypeError end.

(** [value.float().mean()] of what was logged. *)
Definition float_mean (v : logged M) : outcome Q :=
  match v with
  | LTensor x => Ok (tensor_mean x)
  | LMetric _ => Raise AttributeError
  end.

Definition update (meta : Metadata.t) (self : t) (v : logged M) (batch_size : Z)
  : outcome t :=
  match acc self with
  | TensorAcc cur n =>
      if Metadata.is_mean_reduction meta then
        a ← as_tensor cur;
        x ← float_mean v;
        Ok (set_acc (TensorAcc (VT (a + x * inject_Z batch_size))
                               (n + inject_Z batch_size)) self)
      else if Metadata.is_max_reduction meta then
        a ← as_tensor cur;
        x ← float_mean v;
        Ok (set_acc (TensorAcc (VT (py_max a x)) n) self)
      else if Metadata.is_min_reduction meta then
        a ← as_tensor cur;
        x ← float_mean v;
        Ok (set_acc (TensorAcc (VT (py_min a x)) n) self)
      else Ok self
  | ObjectAcc _ =>
      match v with
      | LMetric m =>
          Ok (set_forward_cache (obj_forward_cache m)
                (set_acc (ObjectAcc (Some (VM m))) self))
      | LTensor _ => Raise AttributeError
      end
  end.

Definition compute (meta : Metadata.t) (self : t) : outcome (tensor * t) :=
  match acc self with
  | TensorAcc cur n =>
      if Metadata.is_mean_reduction meta then
        a ← as_tensor cur;
        Ok ([a / n], self)
      else if Metadata.is_max_reduction meta || Metadata.is_min_reduction meta then
        a ← as_tensor cur;
        Ok ([a], self)
      else Raise MisconfigurationException
  | ObjectAcc (Some (VM m)) =>
      let '(r, m') := obj_compute m in
      Ok (r, set_acc (ObjectAcc (Some (VM m'))) self)
  | ObjectAcc _ => Raise AttributeError
  end.

(** The base class [Metric.reset]: every registered state goes back to
    its default.  The cached [_computed] is dropped as well (the cache
    lives "until the next reset"). *)
Definition super_reset (self : t) : t :=
  set_computed None
    (match acc self with
     | TensorAcc _ _ => set_acc (TensorAcc (VT 0) 0) self
     | ObjectAcc _ => self
     end).

Definition reset (meta : Metadata.t) (self : t) : outcome (Metadata.t * t) :=
  match acc self with
  | TensorAcc _ _ => Ok (Metadata.set_has_reset true meta, super_reset self)
  | ObjectAcc (Some (VM m)) =>
      Ok (Metadata.set_has_reset true meta,
          set_acc (ObjectAcc (Some (VM (obj_reset m)))) self)
  | ObjectAcc _ => Raise AttributeError
  end.

(** The base class wraps [update] and [compute]: the wrapped [update]
    drops the cached [_computed]; the wrapped [compute] returns the
    cache when there is one and fills it otherwise. *)
Definition wrapped_update (meta : Metadata.t) (self : t) (v : logged M)
    (batch_size : Z) : outcome t :=
  update meta (set_computed None self) v batch_size.

Definition wrapped_compute (meta : Metadata.t) (self : t) : outcome (tensor * t) :=
  match _computed self with
  | Some c => Ok (c, self)
  | None =>
      '(r, self') ← compute meta self;
      Ok (r, set_computed (Some r) self')
  end.

(** [forward], i.e. calling the metric: the base class accumulates the
    batch with [update]; with [compute_on_step] (which [__init__] sets
    to [is_tensor]) it then evaluates the metric on this batch alone
    (reset, update, compute, on a saved copy of the states) and keeps
    that as [_forward_cache].  Without [compute_on_step] the base class
    returns nothing and the override puts the logged object's own
    [_forward_cache] back. *)
Definition forward (meta : Metadata.t) (self : t) (v : logged M) (batch_size : Z)
  : outcome (Metadata.t * t) :=
  self1 ← wrapped_update meta self v batch_size;
  if is_tensor self then
    '(meta1, blank) ← reset meta (set_forward_cache None self1);
    batch ← wrapped_update meta1 blank v batch_size;
    '(out, _) ← wrapped_compute meta1 batch;
    Ok (meta1, set_computed None (set_forward_cache (Some out) self1))
  else
    Ok (meta,
        set_forward_cache
          (match v with LMetric m => obj_forward_cache m | LTensor _ => None end)
          self1).

End WithMetric.
Arguments pyval M : clear implicits.
Arguments accumulator M : clear implicits.
Arguments t M : clear implicits.
End ResultMetric.

(** ** Nested collections

    [log] accepts a tensor, a metric object, or a mapping or sequence of
    those, nested arbitrarily; [ResultCollection] stores a collection of
    [ResultMetric] of the same shape. *)

#[warnings="-register-all"]
Inductive tree (A : Type) : Type :=
| Leaf (a : A)
| Dict (items : list (string * tree A))
| Seq (items : list (tree A)).
Arguments Leaf {A} a.
Arguments Dict {A} items.
Arguments Seq {A} items.

Definition is_leaf {A} (t : tree A) : bool :=
  match t with Leaf _ => true | _ => false end.

(** The leaves of a collection, in iteration order. *)
Fixpoint leaves {A} (t : tree A) : list A :=
  match t with
  | Leaf a => [a]
  | Dict kvs => concat (map (λ kv, leaves kv.2) kvs)
  | Seq xs => concat (map leaves xs)
  end.

(** A position in a collection: mapping keys and sequence indices. *)
Inductive step : Type :=
| AtKey (k : string)
| AtIndex (i : nat).

Fixpoint assoc {A} (k : string) (d : list (string * A)) : option A :=
  match d with
  | [] => None
  | (k', v) :: d => if decide (k' = k) then Some v else assoc k d
  end.

Fixpoint subtree {A} (p : list step) (t : tree A) {struct p} : option (tree A) :=
  match p with
  | [] => Some t
  | AtKey k :: p =>
      match t with
      | Dict kvs => assoc k kvs ≫= subtree p
      | _ => None
      end
  | AtIndex i :: p =>
      match t with
      | Seq xs => xs !! i ≫= subtree p
      | _ => None
      end
  end.

Definition leaf_at {A} (p : list step) (t : tree A) : option A :=
  match subtree p t with
  | Some (Leaf a) => Some a
  | _ => None
  end.

(** Modelled from the spec: [apply_to_collection] of
    [pytorch_lightning.utilities.apply_func], the generic
    structural-recursion walker over nested mappings and sequences.  It
    applies the function to every element of the requested type and
    rebuilds the containers around the results.  [tree_map] is the walker
    for a function without effects. *)
Fixpoint tree_map {A B} (f : A → B) (t : tree A) : tree B :=
  match t with
  | Leaf a => Leaf (f a)
  | Dict kvs => Dict (map (λ kv, (kv.1, tree_map f kv.2)) kvs)
  | Seq xs => Seq (map (tree_map f) xs)
  end.

(** Modelled from the spec: [apply_to_collection] for a function that
    reads and writes a state [S] shared by the elements (the [Metadata]
    object that all [ResultMetric] of one key refer to) and that may
    raise.  Elements are visited in iteration order. *)
Fixpoint traverse {S A B} (f : S → A → outcome (S * B)) (s : S) (t : tree A)
  : outcome (S * tree B) :=
  match t with
  | Leaf a => '(s', b) ← f s a; Ok (s', Leaf b)
  | Dict kvs =>
      '(s', kvs') ←
        (fix go (s : S) (kvs : list (string * tree A)) :=
           match kvs with
           | [] => Ok (s, [])
           | kv :: rest =>
               '(s1, v') ← traverse f s kv.2;
               '(s2, rest') ← go s1 rest;
               Ok (s2, (kv.1, v') :: rest')
           end) s kvs;
      Ok (s', Dict kvs')
  | Seq xs =>
      '(s', xs') ←
        (fix go (s : S) (xs : list (tree A)) :=
           match xs with
           | [] => Ok (s, [])
           | x :: rest =>
               '(s1, x') ← traverse f s x;
               '(s2, rest') ← go s1 rest;
               Ok (s2, x' :: rest')
           end) s xs;
      Ok (s', Seq xs')
  end.

(** Modelled from the spec: [apply_to_collection(..., include_none=False)]
    drops, from every mapping and sequence, the elements for which the
    function returned [None]; at the top the result is [None] itself. *)
Fixpoint prune {A} (t : tree (option A)) : option (tree A) :=
  match t with
  | Leaf o => Leaf <$> o
  | Dict kvs => Some (Dict (omap (λ kv, (λ v, (kv.1, v)) <$> prune kv.2) kvs))
  | Seq xs => Some (Seq (omap prune xs))
  end.

(** Modelled from the spec: [apply_to_collections], the walker over two
    collections in parallel.  Mappings are paired by key and must have
    the same keys; sequences are paired by position and must have the
    same length.  The embedding covers a second collection of the shape
    of the first; any other pairing is reported as an exception (in
    Python some ill-shaped pairings of empty containers pass). *)
Fixpoint traverse2 {S A B C} (f : S → A → B → outcome (S * C)) (s : S)
    (t : tree A) (u : tree B) {struct t} : outcome (S * tree C) :=
  match t with
  | Leaf a =>
      match u with
      | Leaf b => '(s', c) ← f s a b; Ok (s', Leaf c)
      | _ => Raise AttributeError
      end
  | Dict kvs =>
      match u with
      | Dict kvs2 =>
          if forallb (λ kv2, bool_decide (is_Some (assoc kv2.1 kvs))) kvs2 then
            '(s', kvs') ←
              (fix go (s : S) (kvs : list (string * tree A)) :=
                 match kvs with
                 | [] => Ok (s, [])
                 | kv :: rest =>
                     match assoc kv.1 kvs2 with
                     | None => Raise KeyError
                     | Some v2 =>
                         '(s1, v') ← traverse2 f s kv.2 v2;
                         '(s2, rest') ← go s1 rest;
                         Ok (s2, (kv.1, v') :: rest')
                     end
                 end) s kvs;
            Ok (s', Dict kvs')
          else Raise KeyError
      | _ => Raise AttributeError
      end
  | Seq xs =>
      match u with
      | Seq ys =>
          if decide (length xs = length ys) then
            '(s', xs') ←
              (fix go (s : S) (xs : list (tree A)) (ys : list (tree B)) :=
                 match xs, ys with
                 | x :: xs, y :: ys =>
                     '(s1, x') ← traverse2 f s x y;
                     '(s2, rest') ← go s1 xs ys;
                     Ok (s2, x' :: rest')
                 | _, _ => Ok (s, [])
                 end) s xs ys;
            Ok (s', Seq xs')
          else Raise AssertionError
      | _ => Raise TypeError
      end
  end.

(** ** Python strings and dictionaries *)

(** [s.startswith(pre)]. *)
Fixpoint starts_with (pre s : string) : bool :=
  match pre with
  | EmptyString => true
  | String a pre' =>
      match s with
      | EmptyString => false
      | String b s' => Ascii.eqb a b && starts_with pre' s'
      end
  end.

(** [sep in s]. *)
Fixpoint contains (sep s : string) : bool :=
  starts_with sep s ||
  match s with
  | EmptyString => false
  | String _ s' => contains sep s'
  end.

(** [s.split(sep)] for a non-empty [sep]: the occurrences of [sep] are
    found from the left and do not overlap.  [skip] counts the characters
    of an occurrence that are still to be passed over. *)
Fixpoint split_go (sep : string) (skip : nat) (s : string) : list string :=
  match s with
  | EmptyString => [EmptyString]
  | String a s' =>
      match skip with
      | S k => split_go sep k s'
      | O =>
          if starts_with sep s
          then EmptyString :: split_go sep (String.length sep - 1) s'
          else match split_go sep 0 s' with
               | piece :: pieces => String a piece :: pieces
               | [] => [String a EmptyString]
               end
      end
  end.

Definition split (sep s : string) : outcome (list string) :=
  match sep with
  | EmptyString => Raise ValueError
  | _ => Ok (split_go sep 0 s)
  end.

(** [s.split(sep)[-1]]. *)
Definition split_last (sep s : string) : outcome string :=
  pieces ← split sep s; Ok (List.last pieces EmptyString).

(** A [dict] keeps its keys in insertion order; assigning to a key that
    is present keeps the key's position. *)
Fixpoint dict_set {A} (k : string) (v : A) (d : list (string * A)) : list (string * A) :=
  match d with
  | [] => [(k, v)]
  | (k', v') :: d => if decide (k' = k) then (k, v) :: d else (k', v') :: dict_set k v d
  end.

Definition getitem {A} (k : string) (d : list (string * A)) : outcome A :=
  match assoc k d with
  | Some v => Ok v
  | None => Raise KeyError
  end.

Definition keys {A} (d : list (string * A)) : list string := d.*1.

(** ** ResultCollection *)

Inductive MetricSource : Type := CALLBACK | PBAR | LOG.

(** What the metric views hold at a leaf: a tensor, the number that
    [Tensor.item()] gives for the progress bar, or an integer (a stored
    dataloader index, see [valid_items]). *)
Inductive outval : Type :=
| OTensor (t : tensor)
| OFloat (q : Q)
| OInt (z : Z).

Module ResultCollection.
Section WithMetric.
Context {M : Type} `{!TorchMetric M}.

(** What the dictionary holds under a key: the [ResultMetric] (or the
    nested collection of them) built for a logged key, together with
    the one [Metadata] object that all of them refer to; or the
    metadata that [to_result_metric] stores next to a nested
    collection: flags, and a dataloader index or [None].  The [extra]
    entry is not part of the embedding. *)
Inductive entry : Type :=
| EResult (meta : Metadata.t) (node : tree (ResultMetric.t M))
| EBool (b : bool)
| ENone
| EInt (z : Z).

Record t : Type := mk {
  items : list (string * entry);
  training : bool;
  _on_epoch_end_reached : bool;
  _current_fx : option string;
  batch_size : Z;
  batch_idx : option Z;
}.

Definition set_items (d : list (string * entry)) (self : t) : t :=
  mk d (training self) (_on_epoch_end_reached self) (_current_fx self)
     (batch_size self) (batch_idx self).
Definition set_current_fx (f : option string) (self : t) : t :=
  mk (items self) (training self) (_on_epoch_end_reached self) f
     (batch_size self) (batch_idx self).
Definition set_batch_idx (i : option Z) (self : t) : t :=
  mk (items self) (training self) (_on_epoch_end_reached self) (_current_fx self)
     (batch_size self) i.
Definition setitem (k : string) (e : entry) (self : t) : t :=
  set_items (dict_set k e (items self)) self.

Definition init (training : bool) : t := mk [] training false None 1 None.

(** The setter of the [on_epoch_end_reached] property. *)
Definition set_on_epoch_end_reached (b : bool) (self : t) : t :=
  mk (items self) (training self) b (_current_fx self) (batch_size self) None.

Definition STEP_SUFFIX : string := "_step".
Definition EPOCH_SUFFIX : string := "_epoch".
Definition DATALOADER_SUFFIX (idx : string) : string := "/dataloader_idx_" +:+ idx.

(** The arguments of [log], with the defaults of the signature in
    [log_defaults]. *)
Record log_args : Type := mk_log {
  fx : string;
  name : string;
  value : tree (logged M);
  prog_bar : bool;
  logger : bool;
  on_step : bool;
  on_epoch : bool;
  reduce_fx : reduce_fn;
  dataloader_idx : option Z;
  log_batch_size : option Z;
  metric_attribute : option string;
}.

Definition log_defaults (fx name : string) (value : tree (logged M)) : log_args :=
  mk_log fx name value false true false true torch_mean None None None.

Definition to_result_metric (self : t) (key : string) (meta : Metadata.t)
    (value : tree (logged M)) : t :=
  let fn (v : logged M) :=
    ResultMetric.init (match v with LTensor _ => true | LMetric _ => false end) in
  let node := tree_map fn value in
  let self := setitem key (EResult meta node) self in
  if is_leaf node then self
  else
    let self := setitem (key +:+ ".forked") (EBool (Metadata.forked meta)) self in
    let self := setitem (key +:+ ".logger") (EBool (Metadata.logger meta)) self in
    let self := setitem (key +:+ ".prog_bar") (EBool (Metadata.prog_bar meta)) self in
    let self := setitem (key +:+ ".on_epoch") (EBool (Metadata.on_epoch meta)) self in
    setitem (key +:+ ".dataloader_idx")
      (match Metadata.dataloader_idx meta with Some i => EInt i | None => ENone end)
      self.

Definition should_reset_tensors (self : t) (fx : string) : bool :=
  negb (bool_decide (_current_fx self = Some fx)) &&
  match batch_idx self with
  | None => true
  | Some i => bool_decide (i = 0%Z)
  end.

(** The function that [update_metrics] applies to a [ResultMetric] and
    the value logged for it. *)
Definition update_fn (batch_size : Z) (meta : Metadata.t) (result_metric : ResultMetric.t M)
    (v : logged M) : outcome (Metadata.t * ResultMetric.t M) :=
  '(meta, result_metric) ← ResultMetric.forward meta result_metric v batch_size;
  Ok (Metadata.set_has_reset false meta, result_metric).

Definition update_metrics (self : t) (key : string) (value : tree (logged M))
    (given_batch_size : option Z) : outcome t :=
  let size :=
    match given_batch_size with
    | Some b => if decide (b = 0%Z) then batch_size self else b
    | None => batch_size self
    end in
  e ← getitem key (items self);
  match e with
  | EResult meta node =>
      '(meta, node) ← traverse2 (update_fn size) meta node value;
      Ok (setitem key (EResult meta node) self)
  | _ => Ok self
  end.

(** The function that [_reset] applies to every [ResultMetric]. *)
Definition reset_fn (fx : option string) (metrics : option bool)
    (meta : Metadata.t) (item : ResultMetric.t M)
  : outcome (Metadata.t * ResultMetric.t M) :=
  let requested_type :=
    match metrics with
    | None => true
    | Some metrics => xorb metrics (ResultMetric.is_tensor item)
    end in
  let same_fx :=
    match fx with
    | None => true
    | Some fx => bool_decide (fx = Metadata.fx meta)
    end in
  if requested_type && same_fx then ResultMetric.reset meta item
  else Ok (meta, item).

Definition reset_entry (fx : option string) (metrics : option bool) (e : entry)
  : outcome entry :=
  match e with
  | EResult meta node =>
      '(meta, node) ← traverse (reset_fn fx metrics) meta node;
      Ok (EResult meta node)
  | _ => Ok e
  end.

Fixpoint mapM_items (f : entry → outcome entry) (d : list (string * entry))
  : outcome (list (string * entry)) :=
  match d with
  | [] => Ok []
  | (k, e) :: d =>
      e' ← f e;
      d' ← mapM_items f d;
      Ok ((k, e') :: d')
  end.

Definition _reset (self : t) (fx : option string) (metrics : option bool) : outcome t :=
  d ← mapM_items (reset_entry fx metrics) (items self);
  Ok (set_items d self).

Definition reset (self : t) (metrics : option bool) : outcome t :=
  self ← _reset self None metrics;
  Ok (set_current_fx None (set_on_epoch_end_reached false self)).

Definition log (self : t) (a : log_args) : outcome t :=
  if on_step a && _on_epoch_end_reached self then Raise RuntimeError
  else
    let key := fx a +:+ "." +:+ name a in
    let '(key, fx) :=
      match dataloader_idx a with
      | Some i => (key +:+ "." +:+ pretty i, fx a +:+ "." +:+ pretty i)
      | None => (key, fx a)
      end in
    let self :=
      if decide (is_Some (assoc key (items self))) then self
      else
        let meta :=
          Metadata.mk fx (name a) (prog_bar a) (logger a) (on_step a) (on_epoch a)
            (reduce_fx a) (dataloader_idx a) (metric_attribute a) false in
        to_result_metric self key meta (value a) in
    self ← (if should_reset_tensors self fx
            then _reset self (Some fx) (Some false)
            else Ok self);
    self ← update_metrics self key (value a) (log_batch_size a);
    Ok (set_current_fx (Some fx) self).

(** *** Metric views *)

Record metrics : Type := mk_metrics {
  callback_metrics : gmap string (tree outval);
  pbar_metrics : gmap string (tree outval);
  log_metrics : gmap string (tree outval);
}.

(** [metrics[source]]. *)
Definition metrics_get (ms : metrics) (source : MetricSource)
  : gmap string (tree outval) :=
  match source with
  | CALLBACK => callback_metrics ms
  | PBAR => pbar_metrics ms
  | LOG => log_metrics ms
  end.

(** [metrics[source][k] = v]. *)
Definition metrics_set (source : MetricSource) (k : string) (v : tree outval)
    (ms : metrics) : metrics :=
  match source with
  | CALLBACK => mk_metrics (<[k:=v]> (callback_metrics ms)) (pbar_metrics ms) (log_metrics ms)
  | PBAR => mk_metrics (callback_metrics ms) (<[k:=v]> (pbar_metrics ms)) (log_metrics ms)
  | LOG => mk_metrics (callback_metrics ms) (pbar_metrics ms) (<[k:=v]> (log_metrics ms))
  end.

Definition no_metrics : metrics := mk_metrics ∅ ∅ ∅.

Definition _get_forward_cache (meta : Metadata.t) (result_metric : ResultMetric.t M)
  : outcome (ResultMetric.t M * option tensor) :=
  if Metadata.on_step meta then
    match ResultMetric._forward_cache result_metric with
    | Some c => Ok (result_metric, Some c)
    | None => Raise AttributeError
    end
  else Ok (result_metric, None).

(** [if not result_metric._computed] is the truth value of the cached
    tensor (or of [None]). *)
Definition _get_computed_cache (meta : Metadata.t) (result_metric : ResultMetric.t M)
  : outcome (ResultMetric.t M * option tensor) :=
  if negb (Metadata.on_epoch meta) then Ok (result_metric, None)
  else
    filled ←
      match ResultMetric._computed result_metric with
      | None => Ok false
      | Some c => tensor_truthy c
      end;
    result_metric ←
      (if negb filled
       then '(_, self') ← ResultMetric.wrapped_compute meta result_metric; Ok self'
       else Ok result_metric);
    match ResultMetric._computed result_metric with
    | Some c => Ok (result_metric, Some c)
    | None => Raise AttributeError
    end.

Definition _to_item (v : outval) : outcome outval :=
  match v with
  | OTensor [q] => Ok (OFloat q)
  | OTensor _ => Raise ValueError
  | _ => Ok v
  end.

Definition valid_item (k : string) (v : entry) : bool :=
  match v with
  | ENone => false
  | EBool _ => false
  | EInt _ => negb (bool_decide (k = "extra"))
  | EResult meta node =>
      negb (bool_decide (k = "extra")) &&
      negb (is_leaf node && Metadata.has_reset meta)
  end.

Definition valid_items (self : t) : list (string * entry) :=
  filter (λ kv, valid_item kv.1 kv.2 = true) (items self).

(** The truth value of what is stored under a key. *)
Definition truthy (v : entry) : bool :=
  match v with
  | EBool b => b
  | ENone => false
  | EInt z => negb (bool_decide (z = 0%Z))
  | EResult _ (Leaf _) => true
  | EResult _ (Dict kvs) => negb (bool_decide (kvs = []))
  | EResult _ (Seq xs) => negb (bool_decide (xs = []))
  end.

(** [str.format] of what is stored under [key + '.dataloader_idx'], or
    nothing for [None].  The text of a [ResultMetric] or of a
    collection of them involves the printed form of floating-point
    tensors; the embedding does not give it and reports a
    [TypeError]. *)
Definition format_idx (v : entry) : outcome (option string) :=
  match v with
  | ENone => Ok None
  | EInt z => Ok (Some (pretty z))
  | EBool b => Ok (Some (if b then "True" else "False"))
  | EResult _ _ => Raise TypeError
  end.

Definition _extract_metadata (self : t) (key : string) (result_metric : entry)
    (on_step : bool) (suffix : string)
  : outcome (string * string * bool * bool * bool) :=
  '(name, name_forked, logger, prog_bar, metric_on_epoch, dataloader_idx) ←
    match result_metric with
    | EResult meta (Leaf _) =>
        Ok (Metadata.name meta, Metadata.forked_name meta on_step,
            Metadata.logger meta, Metadata.prog_bar meta, Metadata.on_epoch meta,
            pretty <$> Metadata.dataloader_idx meta)
    | _ =>
        let name := List.last (split_go "." 0 key) EmptyString in
        forked ← getitem (key +:+ ".forked") (items self);
        logger ← getitem (key +:+ ".logger") (items self);
        prog_bar ← getitem (key +:+ ".prog_bar") (items self);
        metric_on_epoch ← getitem (key +:+ ".on_epoch") (items self);
        dataloader_idx ← getitem (key +:+ ".dataloader_idx") (items self);
        dataloader_idx ← format_idx dataloader_idx;
        Ok (name, if truthy forked then name +:+ suffix else name,
            truthy logger, truthy prog_bar, truthy metric_on_epoch, dataloader_idx)
    end;
  match dataloader_idx with
  | Some idx =>
      let dataloader_suffix := DATALOADER_SUFFIX idx in
      Ok (name +:+ dataloader_suffix, name_forked +:+ dataloader_suffix,
          logger, prog_bar, metric_on_epoch)
  | None => Ok (name, name_forked, logger, prog_bar, metric_on_epoch)
  end.

(** The value of one entry in a view: the forward cache or the computed
    epoch value of every [ResultMetric] in it, without the ones that
    gave [None].  The metrics come back with their caches filled. *)
Definition view_value (on_step : bool) (v : entry)
  : outcome (entry * option (tree outval)) :=
  match v with
  | EResult meta node =>
      let fn := if on_step then _get_forward_cache else _get_computed_cache in
      '(_, seen) ← traverse (λ (_ : unit) item, r ← fn meta item; Ok ((), r)) () node;
      Ok (EResult meta (tree_map fst seen),
          prune (tree_map (λ r, OTensor <$> r.2) seen))
  | EInt z => Ok (v, Some (Leaf (OInt z)))
  | _ => Ok (v, None)
  end.

(** A value is empty when nothing in it is different from [None]. *)
Definition is_empty (value : option (tree outval)) : bool :=
  match value with
  | None => true
  | Some v => bool_decide (leaves v = [])
  end.

(** What one stored entry contributes to the views. *)
Record row : Type := mk_row {
  row_value : tree outval;
  row_name : string;
  row_name_forked : string;
  row_logger : bool;
  row_prog_bar : bool;
  row_on_epoch : bool;
}.

(** The first half of the loop body of [get_metrics]: the value, the
    emptiness test and the metadata.  [None] stands for [continue]. *)
Definition get_row (self : t) (on_step : bool) (key : string) (result_metric : entry)
  : outcome (entry * option row) :=
  '(result_metric', value) ← view_value on_step result_metric;
  match value with
  | None => Ok (result_metric', None)
  | Some v =>
      if is_empty value then Ok (result_metric', None)
      else
        let suffix := if on_step then STEP_SUFFIX else EPOCH_SUFFIX in
        '(name, name_forked, logger, prog_bar, metric_on_epoch) ←
          _extract_metadata self key result_metric on_step suffix;
        Ok (result_metric',
            Some (mk_row v name name_forked logger prog_bar metric_on_epoch))
  end.

(** The second half: the three [populate] blocks. *)
Definition populate (training on_step : bool) (r : row) (ms : metrics) : outcome metrics :=
  let ms := if row_logger r then metrics_set LOG (row_name_forked r) (row_value r) ms else ms in
  let ms :=
    if training || row_on_epoch r && negb on_step
    then metrics_set CALLBACK (row_name_forked r) (row_value r)
           (metrics_set CALLBACK (row_name r) (row_value r) ms)
    else ms in
  if row_prog_bar r then
    '(_, value) ← traverse (λ (_ : unit) x, y ← _to_item x; Ok ((), y)) () (row_value r);
    Ok (metrics_set PBAR (row_name_forked r) value ms)
  else Ok ms.

Fixpoint get_metrics_loop (self : t) (on_step : bool) (todo : list (string * entry))
    (ms : metrics) : outcome (list (string * entry) * metrics) :=
  match todo with
  | [] => Ok ([], ms)
  | (key, result_metric) :: todo =>
      '(result_metric, ms) ←
        (if valid_item key result_metric then
           '(result_metric', r) ← get_row self on_step key result_metric;
           match r with
           | None => Ok (result_metric', ms)
           | Some r => ms ← populate (training self) on_step r ms; Ok (result_metric', ms)
           end
         else Ok (result_metric, ms));
      '(rest, ms) ← get_metrics_loop self on_step todo ms;
      Ok ((key, result_metric) :: rest, ms)
  end.

(** [get_metrics] returns the views; the collection comes back as well,
    because reading the epoch view fills the [_computed] caches. *)
Definition get_metrics (self : t) (on_step : bool) : outcome (metrics * t) :=
  '(d, ms) ← get_metrics_loop self on_step (items self) no_metrics;
  Ok (ms, set_items d self).

Definition get_batch_metrics (self : t) : outcome (metrics * t) := get_metrics self true.
Definition get_epoch_metrics (self : t) : outcome (metrics * t) := get_metrics self false.

(** *** Serialization *)

(** The [_SerializationHelper] built from [item.__getstate__()]: the
    attribute dictionary of a [ResultMetric], under the class that
    tells it from a plain dictionary.  Its [meta] entry is the one [Metadata] of the
    key, which [state_entry] keeps once. *)
Record _SerializationHelper : Type := mk_helper {
  helper_acc : ResultMetric.accumulator M;
  helper_forward_cache : option tensor;
  helper_computed : option tensor;
}.

Inductive state_entry : Type :=
| SResult (meta : Metadata.t) (node : tree _SerializationHelper)
| SBool (b : bool)
| SNone
| SInt (z : Z).

Definition to_state_dict (item : ResultMetric.t M) : _SerializationHelper :=
  mk_helper (ResultMetric.acc item) (ResultMetric._forward_cache item)
    (ResultMetric._computed item).

(** [apply_to_collection(v, ResultMetric, to_state_dict)] on what is
    stored under one key. *)
Definition entry_state (v : entry) : state_entry :=
  match v with
  | EResult meta node => SResult meta (tree_map to_state_dict node)
  | EBool b => SBool b
  | ENone => SNone
  | EInt z => SInt z
  end.

Definition state_dict (self : t) : list (string * state_entry) :=
  map (λ kv, (kv.1, entry_state kv.2)) (items self).

(** [ResultMetric(item["meta"], item["is_tensor"])] followed by
    [__dict__.update(item)]: every attribute of the new object is
    overwritten by the saved one (a metric object without [value] has
    none in either). *)
Definition load_result_metric (item : _SerializationHelper) : ResultMetric.t M :=
  let result_metric :=
    ResultMetric.init
      (match helper_acc item with
       | ResultMetric.TensorAcc _ _ => true
       | ResultMetric.ObjectAcc _ => false
       end) in
  ResultMetric.set_computed (helper_computed item)
    (ResultMetric.set_forward_cache (helper_forward_cache item)
       (ResultMetric.set_acc (helper_acc item) result_metric)).

(** [item.value = metrics[name]] when the metadata names an attribute
    that [metrics] has. *)
Definition re_assign_metric (metrics : gmap string M) (meta : Metadata.t)
    (item : ResultMetric.t M) : ResultMetric.t M :=
  match Metadata.metric_attribute meta with
  | Some name =>
      match metrics !! name with
      | Some m =>
          ResultMetric.set_acc
            (match ResultMetric.acc item with
             | ResultMetric.TensorAcc _ n => ResultMetric.TensorAcc (ResultMetric.VM m) n
             | ResultMetric.ObjectAcc _ => ResultMetric.ObjectAcc (Some (ResultMetric.VM m))
             end)
            item
      | None => item
      end
  | None => item
  end.

(** [apply_to_collection(v, _SerializationHelper, to_result_metric)] on
    what the state dictionary holds under one key. *)
Definition load_entry (v : state_entry) : entry :=
  match v with
  | SResult meta node => EResult meta (tree_map load_result_metric node)
  | SBool b => EBool b
  | SNone => ENone
  | SInt z => EInt z
  end.

(** [apply_to_collection(self, ResultMetric, re_assign_metric)] on what
    is stored under one key. *)
Definition re_assign_entry (metrics : gmap string M) (v : entry) : entry :=
  match v with
  | EResult meta node => EResult meta (tree_map (re_assign_metric metrics meta) node)
  | _ => v
  end.

Definition load_from_state_dict (self : t) (state_dict : list (string * state_entry))
    (metrics : gmap string M) : t :=
  let state_dict := map (λ kv, (kv.1, load_entry kv.2)) state_dict in
  let self := foldl (λ self kv, setitem kv.1 kv.2 self) self state_dict in
  if decide (size metrics = 0%nat) then self
  else set_items (map (λ kv, (kv.1, re_assign_entry metrics kv.2)) (items self)) self.

(** [compute()] of the [ResultMetric] stored under [key] at position
    [p], when there is one. *)
Definition compute_at (self : t) (key : string) (p : list step)
  : option (outcome tensor) :=
  match assoc key (items self) with
  | Some (EResult meta node) =>
      (λ item, '(r, _) ← ResultMetric.wrapped_compute meta item; Ok r) <$> leaf_at p node
  | _ => None
  end.

End WithMetric.
Arguments entry M : clear implicits.
Arguments t M : clear implicits.
Arguments log_args M : clear implicits.
Arguments _SerializationHelper M : clear implicits.
Arguments state_entry M : clear implicits.
End ResultCollection.

(** ** Paths, numbers in file names *)

Definition is_digit (c : ascii) : bool :=
  match c with
  | "0" | "1" | "2" | "3" | "4" | "5" | "6" | "7" | "8" | "9" => true
  | _ => false
  end%char.

Definition digit_value (c : ascii) : Z :=
  match c with
  | "1" => 1 | "2" => 2 | "3" => 3 | "4" => 4 | "5" => 5
  | "6" => 6 | "7" => 7 | "8" => 8 | "9" => 9 | _ => 0
  end%char%Z.

(** [re.sub('[^0-9]', '', s)]. *)
Fixpoint keep_digits (s : string) : string :=
  match s with
  | EmptyString => EmptyString
  | String c s' => if is_digit c then String c (keep_digits s') else keep_digits s'
  end.

Fixpoint digits_value (acc : Z) (s : string) : Z :=
  match s with
  | EmptyString => acc
  | String c s' => digits_value (10 * acc + digit_value c) s'
  end.

(** [int(s)] for a string of decimal digits; the empty string is
    refused. *)
Definition int_of_digits (s : string) : outcome Z :=
  match s with
  | EmptyString => Raise ValueError
  | _ => Ok (digits_value 0 s)
  end.

(** [os.path.basename]: what follows the last slash. *)
Definition basename (p : string) : string :=
  List.last (split_go "/" 0 p) EmptyString.

Fixpoint ends_with_slash (p : string) : bool :=
  match p with
  | EmptyString => false
  | String c EmptyString => bool_decide (c = "/"%char)
  | String _ p' => ends_with_slash p'
  end.

(** [os.path.join(a, b)] for a [b] that is not absolute. *)
Definition path_join (a b : string) : string :=
  if bool_decide (a = EmptyString) || ends_with_slash a then a +:+ b
  else a +:+ "/" +:+ b.

(** [max] of a non-empty list of integers. *)
Definition max_list (x : Z) (xs : list Z) : Z := foldl Z.max x xs.

(** ** CheckpointConnector *)

Module CheckpointConnector.

(** A checkpoint dictionary.  The entries [epoch] and [global_step]
    are integers when present; the other entries are kept by key, with
    the number of items for the ones that are lists. *)
Inductive payload : Type :=
| Blob
| Items (n : nat).

Record checkpoint : Type := mk_checkpoint {
  epoch : option Z;
  global_step : option Z;
  others : gmap string payload;
}.

(** [not checkpoint]: the dictionary is empty. *)
Definition is_empty (c : checkpoint) : bool :=
  bool_decide (epoch c = None) && bool_decide (global_step c = None) &&
  bool_decide (dom (others c) = ∅).

(** [key in checkpoint]. *)
Definition has_key (key : string) (c : checkpoint) : bool :=
  if decide (key = "epoch") then bool_decide (is_Some (epoch c))
  else if decide (key = "global_step") then bool_decide (is_Some (global_step c))
  else bool_decide (is_Some (others c !! key)).

Definition set_other (key : string) (v : payload) (c : checkpoint) : checkpoint :=
  mk_checkpoint (epoch c) (global_step c) (<[key:=v]> (others c)).
Definition del_other (key : string) (c : checkpoint) : checkpoint :=
  mk_checkpoint (epoch c) (global_step c) (delete key (others c)).

Definition empty_checkpoint : checkpoint := mk_checkpoint None None ∅.

(** The file system: the directories with their listings (the [name]
    of every entry, as [listdir] reports it), and the checkpoint files
    by path.  Paths are compared as written. *)
Record filesystem : Type := mk_fs {
  dirs : gmap string (list string);
  files : gmap string checkpoint;
}.

Definition fs_exists (fs : filesystem) (path : string) : bool :=
  bool_decide (is_Some (dirs fs !! path)) || bool_decide (is_Some (files fs !! path)).

Definition fs_listdir (fs : filesystem) (path : string) : outcome (list string) :=
  match dirs fs !! path with
  | Some names => Ok names
  | None => Raise NotADirectoryError
  end.

(** [makedirs(path, exist_ok=True)]. *)
Definition fs_makedirs (path : string) (fs : filesystem) : filesystem :=
  match dirs fs !! path with
  | Some _ => fs
  | None => mk_fs (<[path:=[]]> (dirs fs)) (files fs)
  end.

(** Writing a file: the file appears in the listing of the directory
    it was written to. *)
Definition fs_write (folder path : string) (c : checkpoint) (fs : filesystem) : filesystem :=
  mk_fs
    (match dirs fs !! folder with
     | Some names =>
         if bool_decide (path ∈ names) then dirs fs
         else <[folder:=names ++ [path]]> (dirs fs)
     | None => dirs fs
     end)
    (<[path:=c]> (files fs)).

(** The trainer, as far as the connector reads and writes it.
    [trainer.global_step] and [trainer.current_epoch] are properties
    that read the attributes of [trainer.train_loop] which
    [restore_progress] assigns: one field each. *)
Record trainer : Type := mk_trainer {
  trainer_global_step : Z;
  current_epoch : Z;
  max_epochs : option Z;
  max_steps : option Z;
  accumulate_grad_batches : option Z;
  num_training_batches : Z;
  weights_save_path : string;
  on_gpu : bool;
  root_gpu : option Z;
  has_datamodule : bool;
  plugin_restores_model : bool;
  plugin_restores_optimizers : bool;
  optimizers : nat;
  lr_schedulers : nat;
  has_hparams : bool;
  has_hparams_name : bool;
  hparams_is_container : bool;
  unpicklable : list string;
}.

Definition set_progress (step epoch : Z) (t : trainer) : trainer :=
  mk_trainer step epoch (max_epochs t) (max_steps t) (accumulate_grad_batches t)
    (num_training_batches t) (weights_save_path t) (on_gpu t) (root_gpu t)
    (has_datamodule t) (plugin_restores_model t) (plugin_restores_optimizers t)
    (optimizers t) (lr_schedulers t) (has_hparams t) (has_hparams_name t)
    (hparams_is_container t) (unpicklable t).
Definition set_global_step (step : Z) (t : trainer) : trainer :=
  set_progress step (current_epoch t) t.
Definition set_current_epoch (epoch : Z) (t : trainer) : trainer :=
  set_progress (trainer_global_step t) epoch t.

(** Calls to the collaborators, in the order they are made. *)
Inductive event : Type :=
| cuda_empty_cache
| rank_zero_info (message : string)
| rank_zero_warn (message : string)
| barrier (tag : string)
| datamodule_on_load_checkpoint
| datamodule_on_save_checkpoint
| model_on_load_checkpoint
| model_on_hpc_load
| model_load_state_dict
| model_cuda
| model_on_save_checkpoint
| model_on_hpc_save
| trainer_on_load_checkpoint
| trainer_on_save_checkpoint
| precision_plugin_on_load_checkpoint
| precision_plugin_on_save_checkpoint
| optimizer_load_state_dict (i : nat)
| optimizer_state_to_gpu (i : nat)
| scheduler_load_state_dict (i : nat)
| accelerator_lightning_module_state_dict
| accelerator_optimizer_state (i : nat)
| scheduler_state_dict (i : nat)
| accelerator_on_save
| accelerator_save_checkpoint (path : string)
| logger_save
| atomic_save (path : string).

Record world : Type := mk_world {
  the_trainer : trainer;
  resume_checkpoint_path : option string;
  loaded_checkpoint : checkpoint;
  fs : filesystem;
  trace : list event;
}.

(** A method of the connector: it ends normally or with an exception,
    and in both cases leaves a world behind. *)
Definition conn (A : Type) : Type := world → outcome A * world.

#[global] Instance conn_ret : MRet conn := λ A a w, (Ok a, w).
#[global] Instance conn_bind : MBind conn := λ A B f m w,
  match m w with
  | (Ok a, w') => f a w'
  | (Raise e, w') => (Raise e, w')
  end.

Definition raise {A} (e : exn) : conn A := λ w, (Raise e, w).
Definition get : conn world := λ w, (Ok w, w).
Definition modify (f : world → world) : conn () := λ w, (Ok (), f w).
Definition lift {A} (m : outcome A) : conn A := λ w, (m, w).
Definition when (b : bool) (m : conn ()) : conn () := if b then m else mret ().

Definition emit (e : event) : conn () :=
  modify (λ w, mk_world (the_trainer w) (resume_checkpoint_path w)
                 (loaded_checkpoint w) (fs w) (trace w ++ [e])).
Definition set_trainer (t : trainer) : conn () :=
  modify (λ w, mk_world t (resume_checkpoint_path w) (loaded_checkpoint w)
                 (fs w) (trace w)).
Definition set_resume_checkpoint_path (p : option string) : conn () :=
  modify (λ w, mk_world (the_trainer w) p (loaded_checkpoint w) (fs w) (trace w)).
Definition set_loaded_checkpoint (c : checkpoint) : conn () :=
  modify (λ w, mk_world (the_trainer w) (resume_checkpoint_path w) c (fs w) (trace w)).
Definition set_fs (f : filesystem) : conn () :=
  modify (λ w, mk_world (the_trainer w) (resume_checkpoint_path w)
                 (loaded_checkpoint w) f (trace w)).

(** [for i in range(n): body(i)]. *)
Fixpoint for_range (i n : nat) (body : nat → conn ()) : conn () :=
  match n with
  | O => mret ()
  | S n => body i ≫= λ _, for_range (S i) n body
  end.


(** Python's [a % b] on floats, for [b] other than zero: the result
    has the sign of [b]. *)
Definition float_mod (a b : Q) : Q := a - inject_Z (Qfloor (a / b)) * b.

Section Methods.

(** Names defined outside the two embedded modules:
    [upgrade_checkpoint.KEYS_MAPPING] and the key constants of
    [LightningModule]. *)
Variable DEPRECATED_CHECKPOINT_KEYS : list string.
Variable CHECKPOINT_HYPER_PARAMS_NAME : string.
Variable CHECKPOINT_HYPER_PARAMS_KEY : string.
Variable CHECKPOINT_HYPER_PARAMS_TYPE : string.

(** The default of [name_key]. *)
Definition default_name_key : string := "ckpt_".

(** [max_ckpt_in_folder] only reads the file system. *)
Definition max_ckpt_in_folder (fs : filesystem) (dir_path name_key : string)
  : outcome (option Z) :=
  if negb (fs_exists fs dir_path) then Ok None
  else
    listing ← fs_listdir fs dir_path;
    let files := map basename listing in
    let files := filter (λ x, contains name_key x = true) files in
    if decide (length files = 0%nat) then Ok None
    else
      ckpt_vs ←
        mapM (λ name,
                name ← split_last name_key name;
                int_of_digits (keep_digits name))
             files;
      match ckpt_vs with
      | v :: vs => Ok (Some (max_list v vs))
      | [] => Raise ValueError
      end.

Definition hpc_ckpt_path (folder : string) (n : Z) : string :=
  folder +:+ "/hpc_ckpt_" +:+ pretty n +:+ ".ckpt".

Definition hpc_resume_path : conn (option string) :=
  w ← get;
  let dir_path_hpc := weights_save_path (the_trainer w) in
  max_suffix ← lift (max_ckpt_in_folder (fs w) dir_path_hpc "hpc_ckpt_");
  mret (hpc_ckpt_path dir_path_hpc <$> max_suffix).

Definition resume_from_checkpoint (path : string) : conn () :=
  set_resume_checkpoint_path (Some path).

Definition resume_start : conn () :=
  hpc ← hpc_resume_path;
  w ← get;
  let checkpoint_path :=
    match hpc with
    | Some p => if decide (p = EmptyString) then resume_checkpoint_path w else Some p
    | None => resume_checkpoint_path w
    end in
  set_resume_checkpoint_path checkpoint_path;;
  match checkpoint_path with
  | None => mret ()
  | Some checkpoint_path =>
      if decide (checkpoint_path = EmptyString) then mret ()
      else
        when (on_gpu (the_trainer w)) (emit cuda_empty_cache);;
        if negb (fs_exists (fs w) checkpoint_path) then raise FileNotFoundError
        else
          emit (rank_zero_info
                  ("Restoring states from the checkpoint file at " +:+ checkpoint_path));;
          match files (fs w) !! checkpoint_path with
          | Some c => set_loaded_checkpoint c
          | None => raise IsADirectoryError
          end
  end.

Definition resume_end : conn () :=
  w ← get;
  emit (rank_zero_info
          ("Restored all states from the checkpoint file at " +:+
           default "None" (resume_checkpoint_path w)));;
  set_resume_checkpoint_path None;;
  set_loaded_checkpoint empty_checkpoint;;
  when (on_gpu (the_trainer w)) (emit cuda_empty_cache);;
  emit (barrier "CheckpointConnector.resume_end").

Definition restore_datamodule : conn () :=
  w ← get;
  when (has_datamodule (the_trainer w)) (emit datamodule_on_load_checkpoint).

Definition restore_model : conn () :=
  w ← get;
  if plugin_restores_model (the_trainer w) || is_empty (loaded_checkpoint w)
  then mret ()
  else
    emit model_on_load_checkpoint;;
    hpc ← hpc_resume_path;
    when (bool_decide (is_Some hpc)) (emit model_on_hpc_load);;
    (if has_key "state_dict" (loaded_checkpoint w)
     then emit model_load_state_dict
     else raise KeyError);;
    when (on_gpu (the_trainer w)) (emit model_cuda).

Definition restore_callbacks : conn () :=
  w ← get;
  if is_empty (loaded_checkpoint w) then mret ()
  else if existsb (λ key, has_key key (loaded_checkpoint w)) DEPRECATED_CHECKPOINT_KEYS
  then raise ValueError
  else emit trainer_on_load_checkpoint.

Definition restore_progress : conn () :=
  w ← get;
  if is_empty (loaded_checkpoint w) then mret ()
  else
    step ← match global_step (loaded_checkpoint w) with
           | Some g => mret g
           | None => raise KeyError
           end;
    modify (λ w, mk_world (set_global_step step (the_trainer w))
                   (resume_checkpoint_path w) (loaded_checkpoint w) (fs w) (trace w));;
    e ← match epoch (loaded_checkpoint w) with
        | Some e => mret e
        | None => raise KeyError
        end;
    modify (λ w, mk_world (set_current_epoch e (the_trainer w))
                   (resume_checkpoint_path w) (loaded_checkpoint w) (fs w) (trace w));;
    w ← get;
    let t := the_trainer w in
    if match max_epochs t with
       | Some m => bool_decide (current_epoch t > m)%Z
       | None => false
       end
    then raise MisconfigurationException
    else
      let n_accum := default 1%Z (accumulate_grad_batches t) in
      if decide (n_accum = 0%Z) then raise ZeroDivisionError
      else
        let expected_steps := inject_Z (num_training_batches t) / inject_Z n_accum in
        when (negb (bool_decide (num_training_batches t = 0%Z)) &&
              Qlt_bool 1 (float_mod (inject_Z (trainer_global_step t)) expected_steps))
          (emit (rank_zero_warn
                   "You're resuming from a checkpoint that ended mid-epoch.")).

Definition restore_optimizers : conn () :=
  w ← get;
  if plugin_restores_optimizers (the_trainer w) || is_empty (loaded_checkpoint w)
  then mret ()
  else
    match others (loaded_checkpoint w) !! "optimizer_states" with
    | None => raise KeyError
    | Some optimizer_states =>
        let n := match optimizer_states with Items n => n | Blob => 0%nat end in
        for_range 0 (optimizers (the_trainer w) `min` n)
          (λ i, emit (optimizer_load_state_dict i);;
                when (bool_decide (is_Some (root_gpu (the_trainer w))))
                  (emit (optimizer_state_to_gpu i)))
    end.

Definition restore_lr_schedulers : conn () :=
  w ← get;
  if plugin_restores_optimizers (the_trainer w) || is_empty (loaded_checkpoint w)
  then mret ()
  else
    match others (loaded_checkpoint w) !! "lr_schedulers" with
    | None => raise KeyError
    | Some lr_states =>
        let n := match lr_states with Items n => n | Blob => 0%nat end in
        for_range 0 (lr_schedulers (the_trainer w) `min` n)
          (λ i, emit (scheduler_load_state_dict i))
    end.

Definition restore_optimizers_and_schedulers : conn () :=
  w ← get;
  if plugin_restores_optimizers (the_trainer w) || is_empty (loaded_checkpoint w)
  then mret ()
  else if negb (has_key "optimizer_states" (loaded_checkpoint w)) ||
          negb (has_key "lr_schedulers" (loaded_checkpoint w))
  then raise KeyError
  else restore_optimizers;; restore_lr_schedulers.

Definition restore_training_state : conn () :=
  w ← get;
  if is_empty (loaded_checkpoint w) then mret ()
  else
    emit precision_plugin_on_load_checkpoint;;
    restore_progress;;
    restore_optimizers_and_schedulers.

Definition restore (checkpoint_path : string) : conn () :=
  set_resume_checkpoint_path (Some checkpoint_path);;
  resume_start;;
  restore_datamodule;;
  restore_model;;
  restore_callbacks;;
  restore_training_state;;
  resume_end.

Definition hpc_load (checkpoint_path : string) (on_gpu : bool) : conn () :=
  restore checkpoint_path.

Definition dump_checkpoint (weights_only : bool) : conn checkpoint :=
  w ← get;
  let t := the_trainer w in
  let epoch := current_epoch t in
  let step := trainer_global_step t in
  let has_reached_max_steps :=
    match max_steps t with
    | Some m => negb (bool_decide (m = 0%Z)) && bool_decide (m ≤ step)%Z
    | None => false
    end in
  let step := (step + 1)%Z in
  let epoch := if negb has_reached_max_steps then (epoch + 1)%Z else epoch in
  emit accelerator_lightning_module_state_dict;;
  let checkpoint :=
    mk_checkpoint (Some epoch) (Some step)
      {[ "pytorch-lightning_version" := Blob; "state_dict" := Blob ]} in
  checkpoint ←
    (if negb weights_only then
       emit trainer_on_save_checkpoint;;
       for_range 0 (optimizers t) (λ i, emit (accelerator_optimizer_state i));;
       for_range 0 (lr_schedulers t) (λ i, emit (scheduler_state_dict i));;
       emit precision_plugin_on_save_checkpoint;;
       mret (set_other "lr_schedulers" (Items (lr_schedulers t))
               (set_other "optimizer_states" (Items (optimizers t))
                  (set_other "callbacks" Blob checkpoint)))
     else mret checkpoint);
  let checkpoint :=
    if has_hparams t then
      let checkpoint :=
        if has_hparams_name t
        then set_other CHECKPOINT_HYPER_PARAMS_NAME Blob checkpoint
        else checkpoint in
      if hparams_is_container t
      then set_other CHECKPOINT_HYPER_PARAMS_TYPE Blob
             (set_other CHECKPOINT_HYPER_PARAMS_KEY Blob checkpoint)
      else set_other CHECKPOINT_HYPER_PARAMS_KEY Blob checkpoint
    else checkpoint in
  emit model_on_save_checkpoint;;
  when (has_datamodule t) (emit datamodule_on_save_checkpoint);;
  mret checkpoint.

(** [atomic_save] fails with an [AttributeError] when the checkpoint
    holds something that cannot be pickled. *)
Definition do_atomic_save (folder filepath : string) (c : checkpoint) : conn () :=
  w ← get;
  if existsb (λ key, has_key key c) (unpicklable (the_trainer w))
  then raise AttributeError
  else
    emit (atomic_save filepath);;
    set_fs (fs_write folder filepath c (fs w)).

Definition hpc_save (folderpath : string) : conn string :=
  w ← get;
  set_fs (fs_makedirs folderpath (fs w));;
  emit logger_save;;
  w ← get;
  max_suffix ← lift (max_ckpt_in_folder (fs w) folderpath default_name_key);
  let ckpt_number := (default 0 max_suffix + 1)%Z in
  set_fs (fs_makedirs folderpath (fs w));;
  let filepath := path_join folderpath ("hpc_ckpt_" +:+ pretty ckpt_number +:+ ".ckpt") in
  checkpoint ← dump_checkpoint false;
  emit model_on_hpc_save;;
  emit accelerator_on_save;;
  w ← get;
  (if existsb (λ key, has_key key checkpoint) (unpicklable (the_trainer w))
   then
     let checkpoint :=
       if has_key CHECKPOINT_HYPER_PARAMS_KEY checkpoint
       then del_other CHECKPOINT_HYPER_PARAMS_KEY checkpoint
       else checkpoint in
     emit (rank_zero_warn "warning, `hyper_parameters` dropped from checkpoint.");;
     do_atomic_save folderpath filepath checkpoint
   else do_atomic_save folderpath filepath checkpoint);;
  mret filepath.

Definition get_max_ckpt_path_from_folder (fs : filesystem) (folder_path : string)
  : outcome string :=
  max_suffix ← max_ckpt_in_folder fs folder_path default_name_key;
  let ckpt_number := default 0%Z max_suffix in
  Ok (hpc_ckpt_path folder_path ckpt_number).

Definition save_checkpoint (filepath : string) (weights_only : bool) : conn () :=
  _checkpoint ← dump_checkpoint weights_only;
  emit (accelerator_save_checkpoint filepath).

End Methods.

End CheckpointConnector.

(** ** Notions used in the statements *)

(** A call on a [ResultMetric] that holds a tensor: [update] called
    directly, or the call that [log] makes ([forward]). *)
Inductive metric_call : Type :=
| Update (value : tensor) (batch_size : Z)
| Forward (value : tensor) (batch_size : Z).

Definition call_value (c : metric_call) : tensor :=
  match c with Update v _ | Forward v _ => v end.
Definition call_batch_size (c : metric_call) : Z :=
  match c with Update _ b | Forward _ b => b end.

Definition run_call {M} `{!TorchMetric M} (st : Metadata.t * ResultMetric.t M)
    (c : metric_call) : outcome (Metadata.t * ResultMetric.t M) :=
  match c with
  | Update v b =>
      self ← ResultMetric.wrapped_update st.1 st.2 (LTensor v) b; Ok (st.1, self)
  | Forward v b => ResultMetric.forward st.1 st.2 (LTensor v) b
  end.

Fixpoint run_calls {M} `{!TorchMetric M} (st : Metadata.t * ResultMetric.t M)
    (cs : list metric_call) : outcome (Metadata.t * ResultMetric.t M) :=
  match cs with
  | [] => Ok st
  | c :: cs => st ← run_call st c; run_calls st cs
  end.

(** The sum of the batch sizes, the sum of the per-call values weighted
    by them, and the batch-size-weighted arithmetic mean. *)
Definition total_batch_size (cs : list metric_call) : Q :=
  foldr (λ c s, inject_Z (call_batch_size c) + s) 0 cs.
Definition weighted_total (cs : list metric_call) : Q :=
  foldr (λ c s, tensor_mean (call_value c) * inject_Z (call_batch_size c) + s) 0 cs.
Definition weighted_mean (cs : list metric_call) : Q :=
  weighted_total cs / total_batch_size cs.

(** [m] is the maximum (minimum) of the per-call values: one of them,
    and no smaller (greater) than any of them. *)
Definition is_running_max (m : Q) (cs : list metric_call) : Prop :=
  Exists (λ c, m == tensor_mean (call_value c)) cs ∧
  Forall (λ c, tensor_mean (call_value c) <= m) cs.
Definition is_running_min (m : Q) (cs : list metric_call) : Prop :=
  Exists (λ c, m == tensor_mean (call_value c)) cs ∧
  Forall (λ c, m <= tensor_mean (call_value c)) cs.

(** Metadata for the examples: what [log] builds for a tensor logged as
    [loss] in [training_step] with the reduction [fn]. *)
Definition sample_meta (fn : reduce_fn) : Metadata.t :=
  Metadata.mk "training_step" "loss" false true false true fn None None false.

(** A metric object for the examples: it reports a fixed tensor and
    counts the calls of its [compute]. *)
Record fixed_metric : Type := mk_fixed {
  fixed_result : tensor;
  fixed_forward_cache : option tensor;
  fixed_computes : nat;
}.

#[global] Instance fixed_metric_torch : TorchMetric fixed_metric := {|
  obj_compute m :=
    (fixed_result m,
     mk_fixed (fixed_result m) (fixed_forward_cache m) (S (fixed_computes m)));
  obj_reset m := mk_fixed (fixed_result m) None 0;
  obj_forward_cache := fixed_forward_cache;
|}.

(** The storage key and the dataloader-qualified hook name that [log]
    computes from its arguments, and the collection once [log] has made
    sure that the key exists. *)
Definition log_key {M} (a : ResultCollection.log_args M) : string :=
  let key := ResultCollection.fx a +:+ "." +:+ ResultCollection.name a in
  match ResultCollection.dataloader_idx a with
  | Some i => key +:+ "." +:+ pretty i
  | None => key
  end.

Definition log_hook {M} (a : ResultCollection.log_args M) : string :=
  match ResultCollection.dataloader_idx a with
  | Some i => ResultCollection.fx a +:+ "." +:+ pretty i
  | None => ResultCollection.fx a
  end.

Definition log_created {M} `{!TorchMetric M} (self : ResultCollection.t M)
    (a : ResultCollection.log_args M) : ResultCollection.t M :=
  if decide (is_Some (assoc (log_key a) (ResultCollection.items self))) then self
  else
    ResultCollection.to_result_metric self (log_key a)
      (Metadata.mk (log_hook a) (ResultCollection.name a) (ResultCollection.prog_bar a)
         (ResultCollection.logger a) (ResultCollection.on_step a)
         (ResultCollection.on_epoch a) (ResultCollection.reduce_fx a)
         (ResultCollection.dataloader_idx a) (ResultCollection.metric_attribute a) false)
      (ResultCollection.value a).

(** What the reset of the tensors of the hook [hook] makes of one
    [ResultMetric], of the [Metadata] its key shares, and of what is
    stored under one key. *)
Definition reset_tensor_of_hook {M} (hook : string) (meta : Metadata.t)
    (item : ResultMetric.t M) : ResultMetric.t M :=
  if ResultMetric.is_tensor item && bool_decide (hook = Metadata.fx meta)
  then ResultMetric.super_reset item
  else item.

Definition reset_meta_of_hook {M} (hook : string) (meta0 : Metadata.t)
    (meta : Metadata.t) (item : ResultMetric.t M) : Metadata.t :=
  if ResultMetric.is_tensor item && bool_decide (hook = Metadata.fx meta0)
  then Metadata.set_has_reset true meta
  else meta.

Definition reset_tensors_entry {M} (hook : string) (v : ResultCollection.entry M)
  : ResultCollection.entry M :=
  match v with
  | ResultCollection.EResult meta node =>
      ResultCollection.EResult
        (foldl (reset_meta_of_hook hook meta) meta (leaves node))
        (tree_map (reset_tensor_of_hook hook meta) node)
  | _ => v
  end.

(** An entry of the collection is not skipped by [get_metrics] when
    [valid_items] yields it and its value in the view is not empty; [r]
    is then what the entry contributes.  It is routed to the callback
    map when the collection is in training mode, or when the entry is
    logged on epoch and the view is the epoch view. *)
Definition non_skipped {M} `{!TorchMetric M} (self : ResultCollection.t M)
    (on_step : bool) (key : string) (v : ResultCollection.entry M)
    (r : ResultCollection.row) : Prop :=
  ResultCollection.valid_item key v = true ∧
  ∃ v', ResultCollection.get_row self on_step key v = Ok (v', Some r).

Definition routed_to_callback {M} (self : ResultCollection.t M) (on_step : bool)
    (r : ResultCollection.row) : bool :=
  ResultCollection.training self || ResultCollection.row_on_epoch r && negb on_step.

(** The caller of [load_from_state_dict] supplies the live metric
    objects by attribute name: whenever the metadata of a stored
    [ResultMetric] names an attribute that [metrics] has, the object in
    [metrics] is the one the [ResultMetric] holds. *)
Definition resupplies_live_metrics {M} (metrics : gmap string M)
    (self : ResultCollection.t M) : Prop :=
  ∀ key meta node item name m,
    (key, ResultCollection.EResult meta node) ∈ ResultCollection.items self →
    item ∈ leaves node →
    Metadata.metric_attribute meta = Some name →
    metrics !! name = Some m →
    ResultMetric.value item = Some (ResultMetric.VM m).

(** The loop counters of the trainer: [global_step] and
    [current_epoch]. *)
Definition progress (w : CheckpointConnector.world) : Z * Z :=
  (CheckpointConnector.trainer_global_step (CheckpointConnector.the_trainer w),
   CheckpointConnector.current_epoch (CheckpointConnector.the_trainer w)).

(** [w'] differs from [w] in the trace of collaborator calls only. *)
Definition only_trace (w w' : CheckpointConnector.world) : Prop :=
  CheckpointConnector.the_trainer w' = CheckpointConnector.the_trainer w ∧
  CheckpointConnector.resume_checkpoint_path w' =
    CheckpointConnector.resume_checkpoint_path w ∧
  CheckpointConnector.loaded_checkpoint w' = CheckpointConnector.loaded_checkpoint w ∧
  CheckpointConnector.fs w' = CheckpointConnector.fs w.

(** The configured maximum step count has been reached. *)
Definition max_steps_reached (t : CheckpointConnector.trainer) : Prop :=
  ∃ m, CheckpointConnector.max_steps t = Some m ∧
       (m ≤ CheckpointConnector.trainer_global_step t)%Z.

(** A rotation checkpoint is a file named [hpc_ckpt_N.ckpt], with [N]
    written in decimal digits; [hpc_ckpt_index] reads [N] off such a
    name.  The next rotation index, in the words of the specification,
    is the maximum of the existing indices (0 when there are none) plus
    one. *)
Fixpoint strip_prefix (pre s : string) : option string :=
  match pre with
  | EmptyString => Some s
  | String a pre' =>
      match s with
      | EmptyString => None
      | String b s' => if decide (a = b) then strip_prefix pre' s' else None
      end
  end.

Fixpoint strip_suffix (suf s : string) : option string :=
  if decide (s = suf) then Some EmptyString
  else match s with
       | EmptyString => None
       | String a s' => String a <$> strip_suffix suf s'
       end.

Fixpoint all_digits (s : string) : bool :=
  match s with
  | EmptyString => true
  | String c s' => is_digit c && all_digits s'
  end.

Definition hpc_ckpt_index (name : string) : option Z :=
  rest ← strip_prefix "hpc_ckpt_" name;
  digits ← strip_suffix ".ckpt" rest;
  if all_digits digits && negb (bool_decide (digits = EmptyString))
  then Some (digits_value 0 digits)
  else None.

Definition next_rotation_index (listing : list string) : Z :=
  (foldr Z.max 0 (omap (λ n, hpc_ckpt_index (basename n)) listing) + 1)%Z.

(** A trainer and a file system for the examples: [max_epochs=3], ten
    training batches, one optimizer and one scheduler; a checkpoint file
    [last.ckpt] saved at epoch 4, step 100; a directory [ckpts] with two
    rotation checkpoints and an unrelated file; an empty directory
    [fresh]; a directory [mixed] with a rotation checkpoint and a file
    [ckpt_9.ckpt]. *)
Definition sample_trainer : CheckpointConnector.trainer :=
  CheckpointConnector.mk_trainer 0 0 (Some 3%Z) None None 10 "weights" false None
    false false false 1 1 false false false [].

Definition sample_checkpoint : CheckpointConnector.checkpoint :=
  CheckpointConnector.mk_checkpoint (Some 4%Z) (Some 100%Z)
    {[ "state_dict" := CheckpointConnector.Blob;
       "optimizer_states" := CheckpointConnector.Items 1;
       "lr_schedulers" := CheckpointConnector.Items 1 ]}.

Definition sample_fs : CheckpointConnector.filesystem :=
  CheckpointConnector.mk_fs
    {[ "ckpts" := ["ckpts/hpc_ckpt_3.ckpt"; "ckpts/hpc_ckpt_7.ckpt"; "ckpts/other_2.ckpt"];
       "fresh" := [];
       "mixed" := ["mixed/hpc_ckpt_3.ckpt"; "mixed/ckpt_9.ckpt"] ]}
    {[ "last.ckpt" := sample_checkpoint ]}.

Definition sample_world : CheckpointConnector.world :=
  CheckpointConnector.mk_world sample_trainer None
    CheckpointConnector.empty_checkpoint sample_fs [].

(** A collection for the examples, in training mode, after [loss] was
    logged once in [training_step] (value 2, batch size 3) and the
    metric object [acc] once in [validation_step]; and the mapping of
    live metric objects that goes with it. *)
Definition sample_metric : fixed_metric := mk_fixed [1 # 2] (Some [1 # 4]) 0.

Definition sample_acc_meta : Metadata.t :=
  Metadata.mk "validation_step" "acc" false true false true torch_mean None
    (Some "acc") false.

Definition sample_collection : ResultCollection.t fixed_metric :=
  ResultCollection.mk
    [("training_step.loss",
      ResultCollection.EResult (sample_meta torch_mean)
        (Leaf (ResultMetric.mk (ResultMetric.TensorAcc (ResultMetric.VT 6) 3)
                 (Some [2]) None)));
     ("validation_step.acc",
      ResultCollection.EResult sample_acc_meta
        (Leaf (ResultMetric.mk
                 (ResultMetric.ObjectAcc (Some (ResultMetric.VM sample_metric)))
                 (Some [1 # 4]) None)))]
    true false (Some "validation_step") 1 None.

Definition sample_metrics : gmap string fixed_metric := {[ "acc" := sample_metric ]}.

(** A metric object whose [compute()] returns a tensor of two elements,
    and the [log] call that hands it to an empty collection. *)
Definition two_element_metric : fixed_metric := mk_fixed [1; 2] None 0.

Definition log_two_element_metric : outcome (ResultCollection.t fixed_metric) :=
  ResultCollection.log (ResultCollection.init false)
    (ResultCollection.log_defaults "validation_step" "per_class"
       (Leaf (LMetric two_element_metric))).

(** Notions for reading the epoch view twice.  Every epoch value cached
    in the stored entries [d] is a tensor of exactly one element; the
    shape of a collection; two entries with the same metadata and the
    same shape (or the same flag); and what [_extract_metadata] reads
    off the entries stored next to a nested collection. *)
Definition scalar_caches {M} (d : list (string * ResultCollection.entry M)) : Prop :=
  ∀ key meta node item c,
    (key, ResultCollection.EResult meta node) ∈ d → item ∈ leaves node →
    ResultMetric._computed item = Some c → length c = 1%nat.

Definition shape {A} (t : tree A) : tree () := tree_map (λ _, ()) t.

Definition same_layout {M} (e e' : ResultCollection.entry M) : Prop :=
  match e, e' with
  | ResultCollection.EResult meta node, ResultCollection.EResult meta' node' =>
      meta' = meta ∧ shape node' = shape node
  | ResultCollection.EResult _ _, _ | _, ResultCollection.EResult _ _ => False
  | _, _ => e' = e
  end.

Definition flag_view {M} (d : list (string * ResultCollection.entry M)) (k : string)
  : option (bool * outcome (option string)) :=
  (λ e, (ResultCollection.truthy e, ResultCollection.format_idx e)) <$> assoc k d.

(** Notions for the properties of the views and of [log].  The entries
    that [log] stores for a single tensor or metric object (not a nested
    collection), and the flags that go with a collection. *)
Definition plain_entry {M} (e : ResultCollection.entry M) : Prop :=
  match e with
  | ResultCollection.EResult _ (Leaf _) | ResultCollection.EBool _
  | ResultCollection.ENone => True
  | _ => False
  end.

(** [log] with the default arguments and a batch size, for a single
    tensor; and a sequence of [log] calls. *)
Definition log_tensor {M} (fx name : string) (v : tensor) (b : Z)
  : ResultCollection.log_args M :=
  ResultCollection.mk_log fx name (Leaf (LTensor v)) false true false true torch_mean
    None (Some b) None.

Fixpoint log_all {M} `{!TorchMetric M} (self : ResultCollection.t M)
    (calls : list (ResultCollection.log_args M)) : outcome (ResultCollection.t M) :=
  match calls with
  | [] => Ok self
  | a :: calls => self ← ResultCollection.log self a; log_all self calls
  end.

(** The collection after tensors were logged under one key with the
    default arguments: one entry, with the running totals [a] and [n]. *)
Definition logged_once {M} (training : bool) (fx name : string) (a n : Q)
    (step_value : option tensor) : ResultCollection.t M :=
  ResultCollection.mk
    [(fx +:+ "." +:+ name,
      ResultCollection.EResult
        (Metadata.mk fx name false true false true torch_mean None None false)
        (Leaf (ResultMetric.mk (ResultMetric.TensorAcc (ResultMetric.VT a) n)
                 step_value None)))]
    training false (Some fx) 1 None.

(** A listing in which every name that contains [ckpt_] is the name of a
    rotation checkpoint. *)
Definition rotation_only (listing : list string) : Prop :=
  Forall (λ n, contains CheckpointConnector.default_name_key (basename n) = true →
               is_Some (hpc_ckpt_index (basename n))) listing.

(** Further examples.  A checkpoint saved at epoch 2, step 40, with
    everything in it; the same without the optimizer and scheduler
    states (a weights-only checkpoint); the same with a key of the old
    schema; a file system with these three files, a directory [ckpts]
    whose rotation checkpoint 7 is the full checkpoint, and a directory
    [named] with a file [ckpt_best.ckpt]; a trainer whose weights
    directory is [ckpts]; a trainer whose hyper-parameters cannot be
    pickled; and the example collection in evaluation mode. *)
Definition sample_full_checkpoint : CheckpointConnector.checkpoint :=
  CheckpointConnector.mk_checkpoint (Some 2%Z) (Some 40%Z)
    {[ "state_dict" := CheckpointConnector.Blob;
       "optimizer_states" := CheckpointConnector.Items 1;
       "lr_schedulers" := CheckpointConnector.Items 1 ]}.

Definition sample_weights_only_checkpoint : CheckpointConnector.checkpoint :=
  CheckpointConnector.mk_checkpoint (Some 2%Z) (Some 40%Z)
    {[ "state_dict" := CheckpointConnector.Blob ]}.

Definition sample_old_checkpoint : CheckpointConnector.checkpoint :=
  CheckpointConnector.set_other "early_stop_callback_wait" CheckpointConnector.Blob
    sample_full_checkpoint.

Definition sample_resume_fs : CheckpointConnector.filesystem :=
  CheckpointConnector.mk_fs
    {[ "ckpts" := ["ckpts/hpc_ckpt_3.ckpt"; "ckpts/hpc_ckpt_7.ckpt"];
       "named" := ["named/ckpt_best.ckpt"] ]}
    {[ "ckpts/hpc_ckpt_7.ckpt" := sample_full_checkpoint;
       "full.ckpt" := sample_full_checkpoint;
       "weights.ckpt" := sample_weights_only_checkpoint;
       "old.ckpt" := sample_old_checkpoint ]}.

Definition sample_resume_world : CheckpointConnector.world :=
  CheckpointConnector.mk_world sample_trainer None
    CheckpointConnector.empty_checkpoint sample_resume_fs [].

Definition sample_hpc_trainer : CheckpointConnector.trainer :=
  CheckpointConnector.mk_trainer 0 0 (Some 3%Z) None None 10 "ckpts" false None
    false false false 1 1 false false false [].

Definition sample_hpc_world : CheckpointConnector.world :=
  CheckpointConnector.mk_world sample_hpc_trainer (Some "full.ckpt")
    CheckpointConnector.empty_checkpoint sample_resume_fs [].

Definition sample_hparams_trainer : CheckpointConnector.trainer :=
  CheckpointConnector.mk_trainer 0 0 (Some 3%Z) None None 10 "weights" false None
    false false false 1 1 true true false ["hyper_parameters"].

Definition sample_hparams_world : CheckpointConnector.world :=
  CheckpointConnector.mk_world sample_hparams_trainer None
    CheckpointConnector.empty_checkpoint sample_fs [].

Definition sample_eval_collection : ResultCollection.t fixed_metric :=
  ResultCollection.mk (ResultCollection.items sample_collection)
    false false (Some "validation_step") 1 None.

(** * Properties *)

Lemma bind_Ok {A B} (f : A → outcome B) (m : outcome A) (b : B) :
  m ≫= f = Ok b ↔ ∃ a, m = Ok a ∧ f a = Ok b.
Proof.
  destruct m as [a|e]; simpl.
  - split; [intros H; by exists a | intros (a' & [= <-] & H); exact H].
  - split; [discriminate | intros (a' & [=] & _)].
Qed.

(** ** ResultMetric: reductions *)

Section ResultMetricFacts.
Context {M : Type} `{!TorchMetric M}.
Implicit Types (meta : Metadata.t) (self : ResultMetric.t M).

Lemma is_mean_set_has_reset b meta :
  Metadata.is_mean_reduction (Metadata.set_has_reset b meta)
  = Metadata.is_mean_reduction meta.
Proof. reflexivity. Qed.

Lemma is_max_set_has_reset b meta :
  Metadata.is_max_reduction (Metadata.set_has_reset b meta)
  = Metadata.is_max_reduction meta.
Proof. reflexivity. Qed.

Lemma is_min_set_has_reset b meta :
  Metadata.is_min_reduction (Metadata.set_has_reset b meta)
  = Metadata.is_min_reduction meta.
Proof. reflexivity. Qed.

(** One call under mean reduction adds the weighted value and the batch
    size, whichever way it is made, and leaves no cached result. *)
Lemma mean_run_call meta self c a n :
  Metadata.is_mean_reduction meta = true →
  ResultMetric.acc self = ResultMetric.TensorAcc (ResultMetric.VT a) n →
  ∃ meta' self',
    run_call (meta, self) c = Ok (meta', self') ∧
    Metadata.is_mean_reduction meta' = true ∧
    ResultMetric.acc self' =
      ResultMetric.TensorAcc
        (ResultMetric.VT (a + tensor_mean (call_value c) * inject_Z (call_batch_size c)))
        (n + inject_Z (call_batch_size c)) ∧
    ResultMetric._computed self' = None.
Proof.
  intros Hmean Hacc.
  destruct meta as [? ? ? ? ? ? [] ? ? ?]; try discriminate Hmean.
  destruct self as [ac fc cc]; simpl in Hacc; subst ac.
  destruct c as [v b|v b]; cbn; eauto 10.
Qed.

Lemma mean_run_calls cs : ∀ meta self a n,
  Metadata.is_mean_reduction meta = true →
  ResultMetric.acc self = ResultMetric.TensorAcc (ResultMetric.VT a) n →
  ∃ meta' self' a' n',
    run_calls (meta, self) cs = Ok (meta', self') ∧
    Metadata.is_mean_reduction meta' = true ∧
    ResultMetric.acc self' = ResultMetric.TensorAcc (ResultMetric.VT a') n' ∧
    a' == a + weighted_total cs ∧ n' == n + total_batch_size cs ∧
    (cs ≠ [] → ResultMetric._computed self' = None).
Proof.
  induction cs as [|c cs IH]; intros meta self a n Hmean Hacc.
  - exists meta, self, a, n. simpl. repeat split; try done; try ring.
  - destruct (mean_run_call meta self c a n Hmean Hacc)
      as (meta1 & self1 & Hrun & Hmean1 & Hacc1 & Hcomp1).
    destruct (IH meta1 self1 _ _ Hmean1 Hacc1)
      as (meta' & self' & a' & n' & Hruns & Hmean' & Hacc' & Ha & Hn & Hcomp').
    exists meta', self', a', n'. simpl. rewrite Hrun; simpl.
    repeat split; try done.
    + rewrite Ha. ring.
    + rewrite Hn. ring.
    + intros _. destruct cs as [|c' cs]; [|by apply Hcomp'].
      simpl in Hruns. by simplify_eq.
Qed.

Lemma total_batch_size_pos cs :
  cs ≠ [] → Forall (λ c, (0 < call_batch_size c)%Z) cs → 0 < total_batch_size cs.
Proof.
  intros Hne Hpos. induction Hpos as [|c cs Hc Hcs IH]; [done|]. simpl.
  assert (0 < inject_Z (call_batch_size c)) as Hc'.
  { unfold Qlt; simpl. lia. }
  destruct cs as [|c' cs'].
  - simpl. lra.
  - assert (0 < total_batch_size (c' :: cs')) by (by apply IH). lra.
Qed.

(** C1: after a reset, whatever sequence of [update] and [log] calls a
    tensor metric with mean reduction receives, each with a value and a
    positive batch size, [compute()] returns the mean of the per-call
    values [mean(value)] weighted by the batch sizes; the batch sizes
    may differ from call to call. *)
Theorem C1_mean_is_batch_size_weighted meta self (cs : list metric_call) :
  Metadata.is_mean_reduction meta = true →
  ResultMetric.is_tensor self = true →
  cs ≠ [] →
  Forall (λ c, (0 < call_batch_size c)%Z) cs →
  ∃ st0 meta' self' q self'',
    ResultMetric.reset meta self = Ok st0 ∧
    run_calls st0 cs = Ok (meta', self') ∧
    ResultMetric.wrapped_compute meta' self' = Ok ([q], self'') ∧
    q == weighted_mean cs ∧
    0 < total_batch_size cs.
Proof.
  intros Hmean Htensor Hne Hpos.
  unfold ResultMetric.reset, ResultMetric.is_tensor in *.
  destruct (ResultMetric.acc self) as [v n|] eqn:Hacc; [|done].
  eexists. 
  destruct (mean_run_calls cs (Metadata.set_has_reset true meta)
              (ResultMetric.super_reset self) 0 0) as
    (meta' & self' & a' & n' & Hruns & Hmean' & Hacc' & Ha & Hn & Hcomp').
  { done. }
  { unfold ResultMetric.super_reset. by rewrite Hacc. }
  exists meta', self', (a' / n'). eexists.
  split; [reflexivity|]. split; [exact Hruns|].
  split; [|split].
  - unfold ResultMetric.wrapped_compute, ResultMetric.compute.
    rewrite (Hcomp' Hne), Hacc', Hmean'. simpl. reflexivity.
  - unfold weighted_mean. rewrite Ha, Hn. 
    by rewrite !Qplus_0_l.
  - by apply total_batch_size_pos.
Qed.

(** Under max (min) reduction the accumulator starts from 0 and every
    call folds the value of the call into it with [max] ([min]): after a
    reset and the calls [cs], [compute()] is this fold. *)
Lemma extremum_run_calls (pick : Q → Q → Q) cs : ∀ meta self a n,
  (Metadata.is_max_reduction meta = true ∧ pick = py_max ∨
   Metadata.is_min_reduction meta = true ∧ pick = py_min) →
  ResultMetric.acc self = ResultMetric.TensorAcc (ResultMetric.VT a) n →
  ∃ meta' self',
    run_calls (meta, self) cs = Ok (meta', self') ∧
    Metadata.reduce_fx meta' = Metadata.reduce_fx meta ∧
    ResultMetric.acc self' =
      ResultMetric.TensorAcc
        (ResultMetric.VT (foldl (λ x c, pick x (tensor_mean (call_value c))) a cs)) n.
Proof.
  induction cs as [|c cs IH]; intros meta self a n Hkind Hacc.
  - exists meta, self. by repeat split.
  - assert (∃ meta1 self1,
              run_call (meta, self) c = Ok (meta1, self1) ∧
              Metadata.reduce_fx meta1 = Metadata.reduce_fx meta ∧
              ResultMetric.acc self1 =
                ResultMetric.TensorAcc
                  (ResultMetric.VT (pick a (tensor_mean (call_value c)))) n)
      as (meta1 & self1 & Hrun & Hfx & Hacc1).
    { destruct self as [ac fc cc]; simpl in Hacc; subst ac.
      destruct meta as [? ? ? ? ? ? fn ? ? ?].
      destruct Hkind as [[Hk ->]|[Hk ->]]; destruct fn; try discriminate Hk;
        destruct c as [v b|v b]; cbn; eauto 10. }
    destruct (IH meta1 self1 (pick a (tensor_mean (call_value c))) n)
      as (meta' & self' & Hruns & Hfx' & Hacc'); [|done|].
    { unfold Metadata.is_max_reduction, Metadata.is_min_reduction in *.
      by rewrite Hfx. }
    exists meta', self'. cbn [run_calls]. rewrite Hrun. cbn.
    repeat split; [done|congruence|done].
Qed.

End ResultMetricFacts.

Lemma C1_witness :
  let cs := [Update [1; 3] 2; Forward [4] 6; Update [0; 1; 2] 1] in
  Metadata.is_mean_reduction (sample_meta torch_mean) = true ∧
  ResultMetric.is_tensor (ResultMetric.init (M:=fixed_metric) true) = true ∧
  Forall (λ c, (0 < call_batch_size c)%Z) cs ∧
  ∃ st0 meta' self' q self'',
    ResultMetric.reset (sample_meta torch_mean) (ResultMetric.init (M:=fixed_metric) true)
      = Ok st0 ∧
    run_calls st0 cs = Ok (meta', self') ∧
    ResultMetric.wrapped_compute meta' self' = Ok ([q], self'') ∧
    q == weighted_mean cs ∧
    0 < total_batch_size cs.
Proof.
  intros cs.
  assert (Forall (λ c, (0 < call_batch_size c)%Z) cs) as Hpos
    by (repeat constructor).
  split; [reflexivity|]. split; [reflexivity|]. split; [exact Hpos|].
  apply (C1_mean_is_batch_size_weighted (M:=fixed_metric)
           (sample_meta torch_mean) (ResultMetric.init true) cs);
    [reflexivity | reflexivity | discriminate | exact Hpos].
Defined.

(** C5 fails on the code: [reset] puts the accumulator of a max (min)
    reduction back to 0, like [__init__] did, so after calls whose
    values are all negative (positive) [compute()] returns 0, which is
    not the maximum (minimum) of the per-call values. *)
Theorem C5_extremum_starts_from_zero :
  let cs_max := [Update [-1] 1; Forward [-3; -5] 2] in
  let cs_min := [Forward [2] 1; Update [7] 1] in
  (∃ st0 st q self',
     ResultMetric.reset (sample_meta torch_max) (ResultMetric.init (M:=fixed_metric) true)
       = Ok st0 ∧
     run_calls st0 cs_max = Ok st ∧
     ResultMetric.wrapped_compute st.1 st.2 = Ok ([q], self') ∧
     q == 0 ∧ is_running_max (-1) cs_max ∧ ¬ is_running_max q cs_max) ∧
  (∃ st0 st q self',
     ResultMetric.reset (sample_meta torch_min) (ResultMetric.init (M:=fixed_metric) true)
       = Ok st0 ∧
     run_calls st0 cs_min = Ok st ∧
     ResultMetric.wrapped_compute st.1 st.2 = Ok ([q], self') ∧
     q == 0 ∧ is_running_min 2 cs_min ∧ ¬ is_running_min q cs_min).
Proof.
  intros cs_max cs_min. split.
  - do 4 eexists. split; [reflexivity|]. split; [reflexivity|].
    split; [reflexivity|]. split; [reflexivity|]. split.
    + split; [apply Exists_cons; left; reflexivity|].
      repeat (apply Forall_cons; split; [by vm_compute|]). by apply Forall_nil.
    + intros [Hex _]. apply Exists_cons in Hex as [Heq|Hex].
      { by vm_compute in Heq. }
      apply Exists_cons in Hex as [Heq|Hex]; [by vm_compute in Heq|].
      by apply Exists_nil in Hex.
  - do 4 eexists. split; [reflexivity|]. split; [reflexivity|].
    split; [reflexivity|]. split; [reflexivity|]. split.
    + split; [apply Exists_cons; left; reflexivity|].
      repeat (apply Forall_cons; split; [by vm_compute|]). by apply Forall_nil.
    + intros [Hex _]. apply Exists_cons in Hex as [Heq|Hex].
      { by vm_compute in Heq. }
      apply Exists_cons in Hex as [Heq|Hex]; [by vm_compute in Heq|].
      by apply Exists_nil in Hex.
Qed.

(** ** CheckpointConnector: loop counters *)

Section ConnectorFacts.
Import CheckpointConnector.
Implicit Types (w : world) (c : checkpoint).

Ltac conn_simpl :=
  unfold mbind, conn_bind, get, modify, emit, raise, lift, when, mret, conn_ret,
    set_trainer, set_resume_checkpoint_path, set_loaded_checkpoint, set_fs in *;
  cbn in *.

Lemma is_empty_false_epoch c e : epoch c = Some e → is_empty c = false.
Proof. intros He. unfold is_empty. rewrite He. reflexivity. Qed.

(** [restore_progress] writes both counters before it checks anything,
    so they hold the checkpoint's values however the call ends. *)
Lemma restore_progress_sets w e g :
  epoch (loaded_checkpoint w) = Some e →
  global_step (loaded_checkpoint w) = Some g →
  ∃ r w',
    restore_progress w = (r, w') ∧
    the_trainer w' = set_progress g e (the_trainer w) ∧
    loaded_checkpoint w' = loaded_checkpoint w ∧
    fs w' = fs w ∧
    resume_checkpoint_path w' = resume_checkpoint_path w ∧
    (r = Raise MisconfigurationException ↔
       ∃ m, max_epochs (the_trainer w) = Some m ∧ (m < e)%Z).
Proof.
  intros He Hg. unfold restore_progress. conn_simpl.
  rewrite (is_empty_false_epoch _ _ He), Hg, He. cbn.
  destruct (max_epochs (the_trainer w)) as [m|] eqn:Hm; cbn.
  - case_bool_decide as Hlt; cbn.
    + do 2 eexists. split; [reflexivity|]. repeat split; eauto.
      exists m. split; [done|lia].
    + destruct (decide _); cbn.
      * do 2 eexists. split; [reflexivity|]. repeat split; try done.
        intros (m' & [= <-] & ?). lia.
      * destruct (_ && _); cbn;
          (do 2 eexists; split; [reflexivity|]; repeat split; try done;
           intros (m' & [= <-] & ?); lia).
  - destruct (decide _); cbn.
    + do 2 eexists. split; [reflexivity|]. repeat split; try done.
      intros (m' & [=] & ?).
    + destruct (_ && _); cbn;
        (do 2 eexists; split; [reflexivity|]; repeat split; try done;
         intros (m' & [=] & ?)).
Qed.

(** A loop of calls to a collaborator only extends the trace. *)
Lemma for_range_emit (f : nat → event) n : ∀ i w,
  ∃ evs, for_range i n (λ i, emit (f i)) w =
         (Ok (), mk_world (the_trainer w) (resume_checkpoint_path w)
                   (loaded_checkpoint w) (fs w) (trace w ++ evs)).
Proof.
  induction n as [|n IH]; intros i w; cbn.
  - exists []. rewrite app_nil_r. by destruct w.
  - destruct (IH (S i) (mk_world (the_trainer w) (resume_checkpoint_path w)
                          (loaded_checkpoint w) (fs w) (trace w ++ [f i])))
      as [evs Hevs].
    exists (f i :: evs). unfold mbind, conn_bind, emit at 1, modify at 1.
    cbn in *. rewrite Hevs. by rewrite <-app_assoc.
Qed.

(** [dump_checkpoint] always returns, leaves the trainer, the file
    system and the loaded checkpoint as they are, and records the
    counters as follows. *)
Lemma dump_checkpoint_counters (NAME KEY TYPE : string) (weights_only : bool) w :
  ∃ c w',
    dump_checkpoint NAME KEY TYPE weights_only w = (Ok c, w') ∧
    the_trainer w' = the_trainer w ∧ fs w' = fs w ∧
    global_step c = Some (trainer_global_step (the_trainer w) + 1)%Z ∧
    epoch c =
      Some (if match max_steps (the_trainer w) with
               | Some m => negb (bool_decide (m = 0%Z)) &&
                           bool_decide (m ≤ trainer_global_step (the_trainer w))%Z
               | None => false
               end
            then current_epoch (the_trainer w)
            else (current_epoch (the_trainer w) + 1)%Z).
Proof.
  assert (∀ (b : bool) (x : Z),
            Some (if negb b then (x + 1)%Z else x) = Some (if b then x else (x + 1)%Z))
    as Hflip by (by intros []).
  unfold dump_checkpoint. unfold mbind, conn_bind, get. cbn.
  destruct weights_only; cbn [negb].
  - conn_simpl. destruct (has_datamodule (the_trainer w)); cbn;
      do 2 eexists; (split; [reflexivity|]);
      destruct (has_hparams (the_trainer w)), (has_hparams_name (the_trainer w)),
        (hparams_is_container (the_trainer w)); cbn; auto.
  - unfold emit at 2, modify at 1. cbn.
    match goal with |- context [for_range 0 ?n ?f ?w0] =>
      destruct (for_range_emit accelerator_optimizer_state n 0 w0) as [evs1 Hevs1];
      change (for_range 0 n f w0)
        with (for_range 0 n (λ i, emit (accelerator_optimizer_state i)) w0);
      rewrite Hevs1 end.
    cbn.
    match goal with |- context [for_range 0 ?n ?f ?w0] =>
      destruct (for_range_emit scheduler_state_dict n 0 w0) as [evs2 Hevs2];
      change (for_range 0 n f w0)
        with (for_range 0 n (λ i, emit (scheduler_state_dict i)) w0);
      rewrite Hevs2 end.
    conn_simpl. destruct (has_datamodule (the_trainer w)); cbn;
      do 2 eexists; (split; [reflexivity|]);
      destruct (has_hparams (the_trainer w)), (has_hparams_name (the_trainer w)),
        (hparams_is_container (the_trainer w)); cbn; auto.
Qed.

End ConnectorFacts.

(** ** Strings: splitting and the numbers in file names *)

Lemma split_go_not_contained sep s :
  contains sep s = false → split_go sep 0 s = [s].
Proof.
  induction s as [|a s IH]; [done|]. cbn [contains split_go].
  intros [Hpre Hrest]%orb_false_elim. rewrite Hpre, (IH Hrest). done.
Qed.

Lemma strip_prefix_Some pre : ∀ s r, strip_prefix pre s = Some r → s = pre +:+ r.
Proof.
  induction pre as [|a pre IH]; intros s r; cbn.
  - by intros [= ->].
  - destruct s as [|b s]; [done|]. case_decide as Hab; [|done].
    subst b. intros Hr. by rewrite (IH _ _ Hr).
Qed.

Lemma strip_suffix_Some suf : ∀ s d, strip_suffix suf s = Some d → s = d +:+ suf.
Proof.
  induction s as [|a s IH]; intros d; cbn.
  - case_decide; [|done]. intros [= <-]. by subst suf.
  - case_decide as Heq; [intros [= <-]; by subst suf|].
    destruct (strip_suffix suf s) as [d'|] eqn:Hd; [|done].
    cbn. intros [= <-]. change (String a s = String a (d' +:+ suf)).
    f_equal. by apply IH.
Qed.

Lemma is_digit_not_c c : is_digit c = true → c ≠ "c"%char.
Proof. intros Hd ->. discriminate Hd. Qed.

Lemma contains_digits_ckpt d :
  all_digits d = true → contains "ckpt_" (d +:+ ".ckpt") = false.
Proof.
  induction d as [|c d IH]; [by intros _; vm_compute|].
  cbn [all_digits]. intros [Hc Hd]%andb_true_iff.
  change (String c d +:+ ".ckpt") with (String c (d +:+ ".ckpt")).
  unfold contains at 1; fold contains. rewrite (IH Hd), orb_false_r.
  cbn [starts_with]. destruct (Ascii.eqb_spec "c" c) as [<-|Hne]; [|done].
  discriminate Hc.
Qed.

Lemma keep_digits_suffix d :
  all_digits d = true → keep_digits (d +:+ ".ckpt") = d.
Proof.
  induction d as [|c d IH]; [done|].
  cbn [all_digits]. intros [Hc Hd]%andb_true_iff.
  change (String c d +:+ ".ckpt") with (String c (d +:+ ".ckpt")).
  cbn [keep_digits]. by rewrite Hc, (IH Hd).
Qed.

Lemma digits_value_nonneg d : ∀ acc, (0 ≤ acc)%Z → (0 ≤ digits_value acc d)%Z.
Proof.
  induction d as [|c d IH]; intros acc Hacc; cbn; [done|].
  apply IH. assert (0 ≤ digit_value c)%Z; [|lia].
  unfold digit_value. repeat case_match; lia.
Qed.

Lemma split_go_hpc r :
  contains "ckpt_" r = false → split_go "ckpt_" 0 ("hpc_ckpt_" +:+ r) = ["hpc_"; r].
Proof.
  intros Hr.
  change ("hpc_ckpt_" +:+ r) with
    (String "h" (String "p" (String "c" (String "_"
      (String "c" (String "k" (String "p" (String "t" (String "_" r))))))))).
  cbn. by rewrite (split_go_not_contained _ _ Hr).
Qed.

(** On the name of a rotation checkpoint, the steps of
    [max_ckpt_in_folder] (the substring test, the split, the removal of
    the non-digits and [int]) find the index of the name. *)
Lemma hpc_ckpt_index_parse name n :
  hpc_ckpt_index name = Some n →
  contains "ckpt_" name = true ∧
  (split_last "ckpt_" name ≫= λ x, int_of_digits (keep_digits x)) = Ok n ∧
  (0 ≤ n)%Z.
Proof.
  unfold hpc_ckpt_index. intros Hidx.
  destruct (strip_prefix "hpc_ckpt_" name) as [rest|] eqn:Hpre; [|done].
  apply strip_prefix_Some in Hpre as ->. cbn in Hidx.
  destruct (strip_suffix ".ckpt" rest) as [d|] eqn:Hsuf; [|done].
  apply strip_suffix_Some in Hsuf as ->. cbn in Hidx.
  destruct (all_digits d) eqn:Hd; [|done].
  case_bool_decide as Hne; [done|]. cbn in Hidx. injection Hidx as <-.
  split; [done|]. split; [|by apply digits_value_nonneg].
  unfold split_last, split.
  rewrite (split_go_hpc _ (contains_digits_ckpt _ Hd)).
  cbn. rewrite keep_digits_suffix by done.
  by destruct d.
Qed.

Lemma max_list_foldr v vs :
  (0 ≤ v)%Z → max_list v vs = foldr Z.max 0%Z (v :: vs).
Proof.
  unfold max_list. revert v. induction vs as [|x vs IH]; intros v Hv; cbn.
  - lia.
  - rewrite IH by lia. cbn. lia.
Qed.

(** ** The connector monad, step by step *)

Section ConnSteps.
Import CheckpointConnector.

Lemma conn_bind_unfold {A B} (m : conn A) (f : A → conn B) w :
  (m ≫= f) w =
  match m w with
  | (Ok a, w') => f a w'
  | (Raise e, w') => (Raise e, w')
  end.
Proof. reflexivity. Qed.

Lemma run_get w : get w = (Ok w, w).
Proof. reflexivity. Qed.

Lemma run_ret {A} (a : A) w : (mret a : conn A) w = (Ok a, w).
Proof. reflexivity. Qed.

Lemma run_lift {A} (m : outcome A) w : lift m w = (m, w).
Proof. reflexivity. Qed.

Lemma run_emit e w :
  emit e w = (Ok (), mk_world (the_trainer w) (resume_checkpoint_path w)
                       (loaded_checkpoint w) (fs w) (trace w ++ [e])).
Proof. reflexivity. Qed.

Lemma run_set_fs f w :
  set_fs f w = (Ok (), mk_world (the_trainer w) (resume_checkpoint_path w)
                         (loaded_checkpoint w) f (trace w)).
Proof. reflexivity. Qed.

Lemma run_set_resume_checkpoint_path p w :
  set_resume_checkpoint_path p w =
  (Ok (), mk_world (the_trainer w) p (loaded_checkpoint w) (fs w) (trace w)).
Proof. reflexivity. Qed.

Lemma run_set_loaded_checkpoint c w :
  set_loaded_checkpoint c w =
  (Ok (), mk_world (the_trainer w) (resume_checkpoint_path w) c (fs w) (trace w)).
Proof. reflexivity. Qed.

Lemma run_raise {A} e w : (raise e : conn A) w = (Raise e, w).
Proof. reflexivity. Qed.

Lemma run_when_true (m : conn ()) w : when true m w = m w.
Proof. reflexivity. Qed.

Lemma run_when_false (m : conn ()) w : when false m w = (Ok (), w).
Proof. reflexivity. Qed.

End ConnSteps.

(** One step of a method: the first statement runs, the rest follows. *)
Ltac conn_step :=
  rewrite conn_bind_unfold;
  rewrite ?run_get, ?run_ret, ?run_lift, ?run_emit, ?run_set_fs,
    ?run_set_resume_checkpoint_path, ?run_set_loaded_checkpoint, ?run_raise;
  cbv beta iota;
  cbn [CheckpointConnector.the_trainer CheckpointConnector.resume_checkpoint_path
       CheckpointConnector.loaded_checkpoint CheckpointConnector.fs
       CheckpointConnector.trace].

(** ** CheckpointConnector: rotation checkpoints *)

Section RotationFacts.
Import CheckpointConnector.

Lemma max_ckpt_in_folder_absent fs folder name_key :
  fs_exists fs folder = false → max_ckpt_in_folder fs folder name_key = Ok None.
Proof. intros H. unfold max_ckpt_in_folder. by rewrite H. Qed.

Lemma max_ckpt_in_folder_listing fs folder name_key listing :
  dirs fs !! folder = Some listing →
  max_ckpt_in_folder fs folder name_key =
    if decide (length (filter (λ x, contains name_key x = true)
                         (map basename listing)) = 0%nat)
    then Ok None
    else
      mapM (λ name, name ← split_last name_key name; int_of_digits (keep_digits name))
           (filter (λ x, contains name_key x = true) (map basename listing))
      ≫= λ ckpt_vs,
           match ckpt_vs with
           | v :: vs => Ok (Some (max_list v vs))
           | [] => Raise ValueError
           end.
Proof.
  intros Hdir. unfold max_ckpt_in_folder, fs_exists, fs_listdir.
  rewrite Hdir. rewrite bool_decide_eq_true_2 by eauto. reflexivity.
Qed.

Lemma max_ckpt_in_folder_no_match fs folder name_key listing :
  dirs fs !! folder = Some listing →
  Forall (λ n, contains name_key (basename n) = false) listing →
  max_ckpt_in_folder fs folder name_key = Ok None.
Proof.
  intros Hdir Hnone. rewrite (max_ckpt_in_folder_listing _ _ _ _ Hdir).
  replace (filter _ (map basename listing)) with (@nil string); [done|].
  symmetry. clear Hdir. induction Hnone as [|n l Hn Hl IH]; [done|].
  cbn [map]. rewrite filter_cons_False by (by rewrite Hn). done.
Qed.

(** In a directory where every name with [ckpt_] in it is the name of a
    rotation checkpoint, the names that pass the substring test are the
    rotation checkpoints, and they parse to their indices. *)
Lemma rotation_listing_parse listing :
  Forall (λ n, contains "ckpt_" (basename n) = true →
               is_Some (hpc_ckpt_index (basename n))) listing →
  let indices := omap (λ n, hpc_ckpt_index (basename n)) listing in
  mapM (λ name, name ← split_last "ckpt_" name; int_of_digits (keep_digits name))
       (filter (λ x, contains "ckpt_" x = true) (map basename listing))
  = Ok indices ∧
  length (filter (λ x, contains "ckpt_" x = true) (map basename listing))
  = length indices ∧
  Forall (λ i, 0 ≤ i)%Z indices.
Proof.
  intros H. induction H as [|n l Hn Hl IH]; [done|].
  destruct IH as (IH1 & IH2 & IH3). cbn [map omap list_omap].
  destruct (hpc_ckpt_index (basename n)) as [v|] eqn:Hidx.
  - destruct (hpc_ckpt_index_parse _ _ Hidx) as (Hin & Hparse & Hpos).
    rewrite filter_cons_True by done.
    assert (∀ (f : string → outcome Z) x xs,
              mapM f (x :: xs) = f x ≫= λ y, mapM f xs ≫= λ k, Ok (y :: k))
      as Hcons by reflexivity.
    rewrite Hcons, Hparse, IH1.
    repeat split; [cbn [length]; by rewrite IH2 | by constructor].
  - destruct (contains "ckpt_" (basename n)) eqn:Hin.
    + destruct (Hn eq_refl) as [? [=]].
    + rewrite filter_cons_False by (by rewrite Hin). done.
Qed.

Lemma max_ckpt_in_folder_rotation fs folder listing :
  dirs fs !! folder = Some listing →
  Forall (λ n, contains "ckpt_" (basename n) = true →
               is_Some (hpc_ckpt_index (basename n))) listing →
  ∃ max_suffix,
    max_ckpt_in_folder fs folder default_name_key = Ok max_suffix ∧
    (default 0 max_suffix + 1 = next_rotation_index listing)%Z.
Proof.
  intros Hdir H. rewrite (max_ckpt_in_folder_listing _ _ _ _ Hdir).
  destruct (rotation_listing_parse listing H) as (Hparse & Hlen & Hpos).
  unfold next_rotation_index, default_name_key.
  set (fl := filter _ (map basename listing)) in *.
  set (indices := omap _ listing) in *.
  destruct (decide (length fl = 0%nat)) as [Hz|Hnz].
  - exists None. split; [done|].
    destruct indices; [done|]. cbn in Hlen. lia.
  - rewrite Hparse.
    destruct indices as [|v vs]; [cbn in Hlen; lia|].
    eexists. split; [reflexivity|].
    cbn [default]. rewrite max_list_foldr by (by inversion Hpos). done.
Qed.

Lemma makedirs_listing folder f :
  dirs (fs_makedirs folder f) !! folder = Some (default [] (dirs f !! folder)) ∧
  fs_makedirs folder (fs_makedirs folder f) = fs_makedirs folder f.
Proof.
  unfold fs_makedirs. destruct (dirs f !! folder) as [l|] eqn:Hl; cbn.
  - by rewrite Hl.
  - by rewrite lookup_insert_eq.
Qed.

(** [hpc_save] with nothing unpicklable in the checkpoint returns the
    path built from the outcome of [max_ckpt_in_folder]. *)
Lemma hpc_save_path (NAME KEY TYPE folder : string) w max_suffix :
  unpicklable (the_trainer w) = [] →
  max_ckpt_in_folder (fs_makedirs folder (fs w)) folder default_name_key
    = Ok max_suffix →
  ∃ w',
    hpc_save NAME KEY TYPE folder w =
    (Ok (path_join folder
           ("hpc_ckpt_" +:+ pretty (default 0 max_suffix + 1)%Z +:+ ".ckpt")), w').
Proof.
  intros Hpick Hmax. unfold hpc_save.
  do 4 conn_step. rewrite Hmax. do 2 conn_step.
  rewrite (proj2 (makedirs_listing folder (fs w))).
  rewrite conn_bind_unfold.
  match goal with |- context [dump_checkpoint NAME KEY TYPE false ?w0] =>
    destruct (dump_checkpoint_counters NAME KEY TYPE false w0)
      as (c & w1 & -> & Ht & Hfs & _) end.
  do 3 conn_step. cbn [the_trainer] in Ht. rewrite Ht, Hpick. cbn [existsb].
  unfold do_atomic_save. do 2 conn_step. rewrite Hpick. cbn [existsb].
  conn_step. rewrite run_ret. eauto.
Qed.

End RotationFacts.

(** ** CheckpointConnector: restore *)

Section RestoreFacts.
Import CheckpointConnector.
Variable DEPRECATED : list string.

Lemma only_trace_refl w : only_trace w w.
Proof. by repeat split. Qed.

Lemma only_trace_trans w1 w2 w3 :
  only_trace w1 w2 → only_trace w2 w3 → only_trace w1 w3.
Proof.
  intros (?&?&?&?) (?&?&?&?). repeat split; congruence.
Qed.

Lemma hpc_resume_path_none w :
  max_ckpt_in_folder (fs w) (weights_save_path (the_trainer w)) "hpc_ckpt_" = Ok None →
  hpc_resume_path w = (Ok None, w).
Proof.
  intros H. unfold hpc_resume_path. do 2 conn_step. rewrite H. by cbv beta iota.
Qed.

Lemma resume_start_loads w path c :
  path ≠ EmptyString →
  resume_checkpoint_path w = Some path →
  max_ckpt_in_folder (fs w) (weights_save_path (the_trainer w)) "hpc_ckpt_" = Ok None →
  files (fs w) !! path = Some c →
  ∃ w', resume_start w = (Ok (), w') ∧
        the_trainer w' = the_trainer w ∧ fs w' = fs w ∧
        loaded_checkpoint w' = c.
Proof.
  intros Hne Hpath Hhpc Hfile. unfold resume_start.
  rewrite conn_bind_unfold, (hpc_resume_path_none _ Hhpc).
  do 2 conn_step. rewrite Hpath.
  destruct (decide (path = EmptyString)) as [|_]; [done|].
  assert (fs_exists (fs w) path = true) as Hex.
  { unfold fs_exists. rewrite (bool_decide_eq_true_2 (is_Some (files _ !! _)));
      [apply orb_true_r | eauto]. }
  destruct (on_gpu (the_trainer w)).
  - rewrite conn_bind_unfold, run_when_true, run_emit. cbv beta iota.
    cbn [the_trainer resume_checkpoint_path loaded_checkpoint fs trace].
    rewrite Hex. cbn [negb]. conn_step. rewrite Hfile.
    rewrite run_set_loaded_checkpoint. eauto.
  - rewrite conn_bind_unfold, run_when_false. cbv beta iota.
    rewrite Hex. cbn [negb]. conn_step. rewrite Hfile.
    rewrite run_set_loaded_checkpoint. eauto.
Qed.

Lemma run_when_emit b e w : ∃ w', when b (emit e) w = (Ok (), w') ∧ only_trace w w'.
Proof.
  destruct b; [rewrite run_when_true, run_emit | rewrite run_when_false];
    eexists; (split; [reflexivity|]); by repeat split.
Qed.

Lemma restore_datamodule_frame w :
  ∃ w', restore_datamodule w = (Ok (), w') ∧ only_trace w w'.
Proof. unfold restore_datamodule. conn_step. apply run_when_emit. Qed.

Lemma restore_model_frame w :
  max_ckpt_in_folder (fs w) (weights_save_path (the_trainer w)) "hpc_ckpt_" = Ok None →
  plugin_restores_model (the_trainer w) = true ∨
    has_key "state_dict" (loaded_checkpoint w) = true →
  ∃ w', restore_model w = (Ok (), w') ∧ only_trace w w'.
Proof.
  intros Hhpc Hsd. unfold restore_model. conn_step.
  destruct (plugin_restores_model (the_trainer w) || is_empty (loaded_checkpoint w))
    eqn:Hskip.
  { rewrite run_ret. eexists. split; [done|]. apply only_trace_refl. }
  destruct Hsd as [Hp|Hsd]; [by rewrite Hp in Hskip|].
  conn_step. rewrite conn_bind_unfold, hpc_resume_path_none by done.
  cbv beta iota. rewrite conn_bind_unfold, run_when_false. cbv beta iota.
  rewrite Hsd. conn_step.
  destruct (run_when_emit (on_gpu (the_trainer w)) model_cuda
              (mk_world (the_trainer w) (resume_checkpoint_path w)
                 (loaded_checkpoint w) (fs w)
                 ((trace w ++ [model_on_load_checkpoint]) ++ [model_load_state_dict])))
    as (w' & -> & Hw').
  exists w'. split; [done|]. destruct Hw' as (?&?&?&?). by repeat split.
Qed.

Lemma restore_callbacks_frame w :
  existsb (λ key, has_key key (loaded_checkpoint w)) DEPRECATED = false →
  ∃ w', restore_callbacks DEPRECATED w = (Ok (), w') ∧ only_trace w w'.
Proof.
  intros Hdep. unfold restore_callbacks. conn_step. rewrite Hdep.
  destruct (is_empty (loaded_checkpoint w)).
  - rewrite run_ret. eexists. split; [done|]. apply only_trace_refl.
  - rewrite run_emit. eexists. split; [done|]. by repeat split.
Qed.

(** With a checkpoint whose epoch is beyond [max_epochs],
    [restore_training_state] stops in [restore_progress], after the
    counters were written. *)
Lemma restore_training_state_conflict w e g m :
  epoch (loaded_checkpoint w) = Some e →
  global_step (loaded_checkpoint w) = Some g →
  max_epochs (the_trainer w) = Some m → (m < e)%Z →
  ∃ w', restore_training_state w = (Raise MisconfigurationException, w') ∧
        progress w' = (g, e).
Proof.
  intros He Hg Hm Hlt. unfold restore_training_state. conn_step.
  rewrite (is_empty_false_epoch _ _ He). conn_step.
  rewrite conn_bind_unfold.
  match goal with |- context [restore_progress ?w0] =>
    destruct (restore_progress_sets w0 e g He Hg)
      as (r & w' & -> & Ht & _ & _ & _ & Hr) end.
  rewrite (proj2 Hr) by eauto.
  exists w'. split; [done|]. unfold progress. by rewrite Ht.
Qed.

End RestoreFacts.

(** ** CheckpointConnector: restore, rotation and resume paths *)

Section ConnectorProperties.
Import CheckpointConnector.

(** C2: [restore_progress] sets the trainer's [global_step] and
    [current_epoch] to the values of the loaded checkpoint;
    [dump_checkpoint] saves [global_step] plus one and, whenever the
    maximum step count has not been reached (in particular when
    [max_steps] is unset), [epoch] plus one; so a checkpoint with epoch 4
    and global_step 100, restored under [max_steps=None] and dumped
    before any further training, gives global_step 101 and epoch 5. *)
Theorem C2_restore_progress_then_dump (NAME KEY TYPE : string)
    (w w2 : world) (e g : Z) (weights_only : bool) :
  epoch (loaded_checkpoint w) = Some e →
  global_step (loaded_checkpoint w) = Some g →
  ∃ r w',
    restore_progress w = (r, w') ∧
    progress w' = (g, e) ∧
    (∃ c w2',
       dump_checkpoint NAME KEY TYPE weights_only w2 = (Ok c, w2') ∧
       global_step c = Some (trainer_global_step (the_trainer w2) + 1)%Z ∧
       (¬ max_steps_reached (the_trainer w2) →
        epoch c = Some (current_epoch (the_trainer w2) + 1)%Z) ∧
       (max_steps (the_trainer w2) = None → ¬ max_steps_reached (the_trainer w2))) ∧
    (e = 4%Z → g = 100%Z → max_steps (the_trainer w) = None →
     ∃ c w'',
       dump_checkpoint NAME KEY TYPE weights_only w' = (Ok c, w'') ∧
       global_step c = Some 101%Z ∧ epoch c = Some 5%Z).
Proof.
  intros He Hg.
  destruct (restore_progress_sets w e g He Hg) as (r & w' & Hrun & Ht & _).
  exists r, w'. split; [done|]. split; [unfold progress; by rewrite Ht|]. split.
  - destruct (dump_checkpoint_counters NAME KEY TYPE weights_only w2)
      as (c & w2' & Hdump & _ & _ & Hstep & Hepoch).
    exists c, w2'. repeat split; [done..| |].
    + intros Hnot. rewrite Hepoch. f_equal.
      destruct (max_steps (the_trainer w2)) as [m|] eqn:Hm; [|done].
      destruct (bool_decide (m ≤ _)%Z) eqn:Hle; [|by rewrite andb_false_r].
      apply bool_decide_eq_true_1 in Hle. destruct Hnot. by exists m.
    + intros Hnone (m & Hm & _). congruence.
  - intros -> -> Hnone.
    destruct (dump_checkpoint_counters NAME KEY TYPE weights_only w')
      as (c & w'' & Hdump & _ & _ & Hstep & Hepoch).
    exists c, w''. rewrite Hstep, Hepoch, Ht. cbn. by rewrite Hnone.
Qed.

Lemma C2_witness :
  let w := mk_world sample_trainer None sample_checkpoint sample_fs [] in
  epoch (loaded_checkpoint w) = Some 4%Z ∧
  global_step (loaded_checkpoint w) = Some 100%Z ∧
  ∃ r w',
    restore_progress w = (r, w') ∧
    progress w' = (100%Z, 4%Z) ∧
    (∃ c w2',
       dump_checkpoint "hparams_name" "hyper_parameters" "hparams_type" false
         sample_world = (Ok c, w2') ∧
       global_step c = Some (trainer_global_step (the_trainer sample_world) + 1)%Z ∧
       (¬ max_steps_reached (the_trainer sample_world) →
        epoch c = Some (current_epoch (the_trainer sample_world) + 1)%Z) ∧
       (max_steps (the_trainer sample_world) = None →
        ¬ max_steps_reached (the_trainer sample_world))) ∧
    (4%Z = 4%Z → 100%Z = 100%Z → max_steps (the_trainer w) = None →
     ∃ c w'',
       dump_checkpoint "hparams_name" "hyper_parameters" "hparams_type" false w'
         = (Ok c, w'') ∧
       global_step c = Some 101%Z ∧ epoch c = Some 5%Z).
Proof.
  intros w. split; [reflexivity|]. split; [reflexivity|].
  apply (C2_restore_progress_then_dump _ _ _ w sample_world 4 100 false);
    reflexivity.
Defined.

(** C4, as the code has it: given a checkpoint whose recorded epoch
    exceeds [max_epochs], [restore] raises the configuration-conflict
    error, and by then the trainer's [global_step] and [current_epoch]
    have been overwritten with the checkpoint's values (they are not put
    back). *)
Theorem C4_restore_conflict_leaves_checkpoint_counters (DEPRECATED : list string)
    (checkpoint_path : string) (w : world) (c : checkpoint) (e g m : Z) :
  checkpoint_path ≠ EmptyString →
  max_ckpt_in_folder (fs w) (weights_save_path (the_trainer w)) "hpc_ckpt_" = Ok None →
  files (fs w) !! checkpoint_path = Some c →
  epoch c = Some e →
  global_step c = Some g →
  plugin_restores_model (the_trainer w) = true ∨ has_key "state_dict" c = true →
  existsb (λ key, has_key key c) DEPRECATED = false →
  max_epochs (the_trainer w) = Some m →
  (m < e)%Z →
  ∃ w',
    restore DEPRECATED checkpoint_path w = (Raise MisconfigurationException, w') ∧
    progress w' = (g, e).
Proof.
  intros Hne Hhpc Hfile He Hg Hsd Hdep Hm Hlt. unfold restore. conn_step.
  rewrite conn_bind_unfold.
  match goal with |- context [resume_start ?w0] =>
    destruct (resume_start_loads w0 checkpoint_path c Hne eq_refl Hhpc Hfile)
      as (w1 & -> & Ht1 & Hfs1 & Hc1) end.
  cbn [the_trainer fs] in Ht1, Hfs1.
  rewrite conn_bind_unfold.
  destruct (restore_datamodule_frame w1) as (w2 & -> & Ht2 & _ & Hc2 & Hfs2).
  rewrite conn_bind_unfold.
  destruct (restore_model_frame w2) as (w3 & -> & Ht3 & _ & Hc3 & Hfs3).
  { by rewrite Hfs2, Hfs1, Ht2, Ht1. }
  { by rewrite Ht2, Ht1, Hc2, Hc1. }
  rewrite conn_bind_unfold.
  destruct (restore_callbacks_frame DEPRECATED w3) as (w4 & -> & Ht4 & _ & Hc4 & _).
  { by rewrite Hc3, Hc2, Hc1. }
  rewrite conn_bind_unfold.
  destruct (restore_training_state_conflict w4 e g m) as (w5 & -> & Hp);
    [by rewrite Hc4, Hc3, Hc2, Hc1..|by rewrite Ht4, Ht3, Ht2, Ht1|done|].
  by exists w5.
Qed.

Lemma C4_witness :
  "last.ckpt" ≠ EmptyString ∧
  max_ckpt_in_folder (fs sample_world) (weights_save_path (the_trainer sample_world))
    "hpc_ckpt_" = Ok None ∧
  files (fs sample_world) !! "last.ckpt" = Some sample_checkpoint ∧
  ∃ w',
    restore [] "last.ckpt" sample_world = (Raise MisconfigurationException, w') ∧
    progress w' = (100%Z, 4%Z).
Proof.
  split; [discriminate|]. split; [reflexivity|]. split; [reflexivity|].
  apply (C4_restore_conflict_leaves_checkpoint_counters
           [] "last.ckpt" sample_world sample_checkpoint 4 100 3);
    first [discriminate | reflexivity | by right | lia].
Defined.

(** C4, as stated, fails: on the example, [restore] raises the
    configuration-conflict error and the trainer's counters are no
    longer the ones it had before the call. *)
Lemma C4_counterexample :
  (restore [] "last.ckpt" sample_world).1 = Raise MisconfigurationException ∧
  progress sample_world = (0%Z, 0%Z) ∧
  progress (restore [] "last.ckpt" sample_world).2 = (100%Z, 4%Z) ∧
  progress (restore [] "last.ckpt" sample_world).2 ≠ progress sample_world.
Proof. vm_compute. repeat split; discriminate. Qed.

(** C10: for a folder that is absent, or that holds no file whose name
    contains the checkpoint prefix, [max_ckpt_in_folder] returns [None]
    and [get_max_ckpt_path_from_folder] still returns the path
    [folder/hpc_ckpt_0.ckpt], which names no file of the folder. *)
Theorem C10_no_checkpoint_resolves_to_index_0 (f : filesystem) (folder : string) :
  fs_exists f folder = false ∨
    (∃ listing, dirs f !! folder = Some listing ∧
       Forall (λ n, contains default_name_key (basename n) = false) listing) →
  max_ckpt_in_folder f folder default_name_key = Ok None ∧
  get_max_ckpt_path_from_folder f folder = Ok (folder +:+ "/hpc_ckpt_0.ckpt") ∧
  (∀ listing n, dirs f !! folder = Some listing → n ∈ listing →
     basename n ≠ "hpc_ckpt_0.ckpt").
Proof.
  intros H.
  assert (max_ckpt_in_folder f folder default_name_key = Ok None) as Hmax.
  { destruct H as [H|(listing & Hdir & Hnone)].
    - by apply max_ckpt_in_folder_absent.
    - by eapply max_ckpt_in_folder_no_match. }
  split; [done|]. split.
  - unfold get_max_ckpt_path_from_folder. by rewrite Hmax.
  - intros listing n Hdir Hn Hbase.
    destruct H as [H|(listing' & Hdir' & Hnone)].
    + unfold fs_exists in H. rewrite Hdir in H.
      rewrite bool_decide_eq_true_2 in H by eauto. done.
    + rewrite Hdir in Hdir'. injection Hdir' as <-.
      rewrite Forall_forall in Hnone. specialize (Hnone n Hn).
      rewrite Hbase in Hnone. discriminate Hnone.
Qed.

Lemma C10_witness :
  (fs_exists sample_fs "nowhere" = false ∨
     (∃ listing, dirs sample_fs !! "nowhere" = Some listing ∧
        Forall (λ n, contains default_name_key (basename n) = false) listing)) ∧
  max_ckpt_in_folder sample_fs "nowhere" default_name_key = Ok None ∧
  get_max_ckpt_path_from_folder sample_fs "nowhere" = Ok "nowhere/hpc_ckpt_0.ckpt" ∧
  (∀ listing n, dirs sample_fs !! "nowhere" = Some listing → n ∈ listing →
     basename n ≠ "hpc_ckpt_0.ckpt").
Proof.
  split; [left; reflexivity|].
  apply (C10_no_checkpoint_resolves_to_index_0 sample_fs "nowhere").
  left. reflexivity.
Defined.

(** C6, as the code has it: in a directory where every name that
    contains [ckpt_] is the name of a rotation checkpoint
    [hpc_ckpt_N.ckpt], [hpc_save] writes the next rotation checkpoint at
    index max(existing indices, default 0) + 1; on an empty directory
    that is [hpc_ckpt_1.ckpt]; on a directory with [hpc_ckpt_3.ckpt],
    [hpc_ckpt_7.ckpt] and an unrelated [other_2.ckpt] it is
    [hpc_ckpt_8.ckpt], and before that save
    [get_max_ckpt_path_from_folder] resolves to the path with index 7. *)
Theorem C6_hpc_save_next_rotation_index (NAME KEY TYPE folder : string) (w : world) :
  unpicklable (the_trainer w) = [] →
  Forall (λ n, contains default_name_key (basename n) = true →
               is_Some (hpc_ckpt_index (basename n)))
         (default [] (dirs (fs w) !! folder)) →
  (∃ w',
     hpc_save NAME KEY TYPE folder w =
     (Ok (path_join folder
            ("hpc_ckpt_" +:+
             pretty (next_rotation_index (default [] (dirs (fs w) !! folder))) +:+
             ".ckpt")), w')) ∧
  (hpc_save NAME KEY TYPE "fresh" sample_world).1 = Ok "fresh/hpc_ckpt_1.ckpt" ∧
  (hpc_save NAME KEY TYPE "ckpts" sample_world).1 = Ok "ckpts/hpc_ckpt_8.ckpt" ∧
  get_max_ckpt_path_from_folder sample_fs "ckpts" = Ok "ckpts/hpc_ckpt_7.ckpt".
Proof.
  assert (∀ folder w,
    unpicklable (the_trainer w) = [] →
    Forall (λ n, contains default_name_key (basename n) = true →
                 is_Some (hpc_ckpt_index (basename n)))
           (default [] (dirs (fs w) !! folder)) →
    ∃ w',
      hpc_save NAME KEY TYPE folder w =
      (Ok (path_join folder
             ("hpc_ckpt_" +:+
              pretty (next_rotation_index (default [] (dirs (fs w) !! folder))) +:+
              ".ckpt")), w')) as Hgeneral.
  { clear folder w. intros folder w Hpick Hnames.
    destruct (max_ckpt_in_folder_rotation (fs_makedirs folder (fs w)) folder
                (default [] (dirs (fs w) !! folder))
                (proj1 (makedirs_listing folder (fs w))) Hnames)
      as (max_suffix & Hmax & Hnext).
    destruct (hpc_save_path NAME KEY TYPE folder w max_suffix Hpick Hmax) as [w' Hw'].
    exists w'. by rewrite <-Hnext. }
  intros Hpick Hnames. split; [by apply Hgeneral|]. split; [|split].
  - destruct (Hgeneral "fresh" sample_world) as [w' ->]; [done| |reflexivity].
    replace (dirs (fs sample_world) !! "fresh") with (Some (@nil string))
      by (by vm_compute).
    apply Forall_nil. done.
  - destruct (Hgeneral "ckpts" sample_world) as [w' ->]; [done| |reflexivity].
    replace (dirs (fs sample_world) !! "ckpts")
      with (Some ["ckpts/hpc_ckpt_3.ckpt"; "ckpts/hpc_ckpt_7.ckpt"; "ckpts/other_2.ckpt"])
      by (by vm_compute).
    repeat (apply Forall_cons; split; [intros Hin; vm_compute in Hin |- *;
                                first [discriminate Hin | eauto]|]).
    apply Forall_nil. done.
  - reflexivity.
Qed.

Lemma C6_witness :
  unpicklable (the_trainer sample_world) = [] ∧
  (∃ w',
     hpc_save "hparams_name" "hyper_parameters" "hparams_type" "ckpts" sample_world =
     (Ok "ckpts/hpc_ckpt_8.ckpt", w')) ∧
  (hpc_save "hparams_name" "hyper_parameters" "hparams_type" "fresh" sample_world).1
    = Ok "fresh/hpc_ckpt_1.ckpt" ∧
  (hpc_save "hparams_name" "hyper_parameters" "hparams_type" "ckpts" sample_world).1
    = Ok "ckpts/hpc_ckpt_8.ckpt" ∧
  get_max_ckpt_path_from_folder sample_fs "ckpts" = Ok "ckpts/hpc_ckpt_7.ckpt".
Proof.
  split; [reflexivity|].
  apply (C6_hpc_save_next_rotation_index
           "hparams_name" "hyper_parameters" "hparams_type" "ckpts" sample_world).
  - reflexivity.
  - replace (dirs (fs sample_world) !! "ckpts")
      with (Some ["ckpts/hpc_ckpt_3.ckpt"; "ckpts/hpc_ckpt_7.ckpt"; "ckpts/other_2.ckpt"])
      by reflexivity.
    repeat (apply Forall_cons; split; [intros Hin; vm_compute in Hin |- *;
                                first [discriminate Hin | eauto]|]).
    apply Forall_nil. done.
Defined.

(** C6, as stated, fails: the directory [mixed] holds the rotation
    checkpoint [hpc_ckpt_3.ckpt] and a file [ckpt_9.ckpt]; the maximum of
    the existing [hpc_ckpt_N] indices plus one is 4, and [hpc_save]
    writes [hpc_ckpt_10.ckpt]. *)
Lemma C6_counterexample :
  dirs (fs sample_world) !! "mixed" = Some ["mixed/hpc_ckpt_3.ckpt"; "mixed/ckpt_9.ckpt"] ∧
  next_rotation_index ["mixed/hpc_ckpt_3.ckpt"; "mixed/ckpt_9.ckpt"] = 4%Z ∧
  (hpc_save "hparams_name" "hyper_parameters" "hparams_type" "mixed" sample_world).1
    = Ok "mixed/hpc_ckpt_10.ckpt" ∧
  "mixed/hpc_ckpt_10.ckpt" ≠ "mixed/hpc_ckpt_4.ckpt".
Proof. vm_compute. repeat split; discriminate. Qed.

End ConnectorProperties.

(** ** Nested collections: the walkers *)

Section TreeFacts.
Context {A B : Type}.

(** Induction over a nested collection, with the property available for
    every element of a mapping or sequence. *)
Lemma tree_nested_ind (P : tree A → Prop) :
  (∀ a, P (Leaf a)) →
  (∀ kvs, Forall (λ kv, P kv.2) kvs → P (Dict kvs)) →
  (∀ xs, Forall P xs → P (Seq xs)) →
  ∀ t, P t.
Proof.
  intros Hleaf Hdict Hseq. fix IH 1. intros [a|kvs|xs].
  - apply Hleaf.
  - apply Hdict. induction kvs as [|kv kvs IHkvs]; constructor; [apply IH|apply IHkvs].
  - apply Hseq. induction xs as [|x xs IHxs]; constructor; [apply IH|apply IHxs].
Qed.

Lemma assoc_map_values {C D} (g : C → D) k (d : list (string * C)) :
  assoc k (map (λ kv, (kv.1, g kv.2)) d) = g <$> assoc k d.
Proof.
  induction d as [|[k' v] d IH]; [done|]. cbn. by destruct (decide (k' = k)).
Qed.

Lemma subtree_tree_map (f : A → B) p : ∀ t,
  subtree p (tree_map f t) = tree_map f <$> subtree p t.
Proof.
  induction p as [|[k|i] p IH]; intros t; [done|..]; destruct t as [a|kvs|xs]; try done.
  - cbn [subtree tree_map]. rewrite assoc_map_values.
    destruct (assoc k kvs) as [v|]; [apply IH|done].
  - cbn [subtree tree_map]. change (map (tree_map f) xs) with (tree_map f <$> xs).
    rewrite list_lookup_fmap. destruct (xs !! i) as [v|]; [apply IH|done].
Qed.

Lemma leaf_at_tree_map (f : A → B) p t :
  leaf_at p (tree_map f t) = f <$> leaf_at p t.
Proof.
  unfold leaf_at. rewrite subtree_tree_map.
  by destruct (subtree p t) as [[a|kvs|xs]|].
Qed.

(** A leaf at a position is one of the leaves. *)
Lemma leaf_at_leaves p : ∀ (t : tree A) a, leaf_at p t = Some a → a ∈ leaves t.
Proof.
  unfold leaf_at.
  induction p as [|[k|i] p IH]; intros t a.
  - destruct t; cbn; [|done..]. intros [= ->]. by apply list_elem_of_singleton.
  - destruct t as [|kvs|]; cbn; [done| |done].
    destruct (assoc k kvs) as [v|] eqn:Hk; [|done]. cbn. intros Ha.
    apply IH in Ha. clear IH.
    induction kvs as [|[k' v'] kvs IHkvs]; [done|]. cbn in Hk |- *.
    apply elem_of_app. destruct (decide (k' = k)); [left; by simplify_eq|right; auto].
  - destruct t as [| |xs]; cbn; [done..|].
    destruct (xs !! i) as [v|] eqn:Hi; [|done]. cbn. intros Ha.
    apply IH in Ha. clear IH. revert i Hi.
    induction xs as [|x xs IHxs]; intros i Hi; [done|]. cbn.
    apply elem_of_app. destruct i as [|i]; cbn in Hi; [left; by simplify_eq|right; eauto].
Qed.

End TreeFacts.

Lemma tree_map_id_on {A} (f : A → A) (t : tree A) :
  (∀ a, a ∈ leaves t → f a = a) → tree_map f t = t.
Proof.
  induction t as [a|kvs IH|xs IH] using tree_nested_ind; intros Hf; cbn.
  - rewrite Hf; [done|]. cbn. apply list_elem_of_singleton. done.
  - f_equal. induction IH as [|[k v] kvs Hv Hkvs IHkvs]; [done|]. cbn in *.
    rewrite Hv, IHkvs; [done|..]; intros a Ha; apply Hf, elem_of_app; auto.
  - f_equal. induction IH as [|x xs Hx Hxs IHxs]; [done|]. cbn in *.
    rewrite Hx, IHxs; [done|..]; intros a Ha; apply Hf, elem_of_app; auto.
Qed.

Lemma tree_map_compose {A B C} (f : A → B) (g : B → C) (t : tree A) :
  tree_map g (tree_map f t) = tree_map (g ∘ f) t.
Proof.
  induction t as [a|kvs IH|xs IH] using tree_nested_ind; cbn; [done|..].
  - f_equal. induction IH as [|[k v] kvs Hv Hkvs IHkvs]; [done|]. cbn in *.
    by rewrite Hv, IHkvs.
  - f_equal. induction IH as [|x xs Hx Hxs IHxs]; [done|]. cbn in *.
    by rewrite Hx, IHxs.
Qed.

Lemma shape_tree_map {A B} (f : A → B) (t : tree A) : shape (tree_map f t) = shape t.
Proof. unfold shape. by rewrite tree_map_compose. Qed.

Lemma leaves_tree_map {A B} (f : A → B) (t : tree A) :
  leaves (tree_map f t) = map f (leaves t).
Proof.
  induction t as [a|kvs IH|xs IH] using tree_nested_ind; cbn; [done|..].
  - induction IH as [|[k v] kvs Hv Hkvs IHkvs]; [done|]. cbn in *.
    by rewrite map_app, Hv, IHkvs.
  - induction IH as [|x xs Hx Hxs IHxs]; [done|]. cbn in *.
    by rewrite map_app, Hx, IHxs.
Qed.

(** A walk keeps the shape of the collection, and every leaf of the
    result is what the function returned for some leaf. *)
Lemma traverse_shape {S A B} (f : S → A → outcome (S * B)) : ∀ t s s' u,
  traverse f s t = Ok (s', u) →
  shape u = shape t ∧ ∀ b, b ∈ leaves u → ∃ s1 s2 a, f s1 a = Ok (s2, b).
Proof.
  intros t.
  induction t as [a|kvs IH|xs IH] using tree_nested_ind; intros s s' u Hrun.
  - cbn in Hrun. apply bind_Ok in Hrun as ([s1 b] & Hf & Hrun).
    cbn in Hrun. simplify_eq. split; [done|].
    intros b' ->%list_elem_of_singleton. eauto.
  - cbn [traverse] in Hrun. apply bind_Ok in Hrun as ([s1 kvs'] & Hgo & Hrun).
    cbn in Hrun. simplify_eq.
    revert s s' kvs' Hgo.
    induction IH as [|kv kvs Hkv Hkvs IHkvs]; intros s s' kvs' Hgo.
    { cbn in Hgo. simplify_eq. split; [done|]. by intros b ?%elem_of_nil. }
    apply bind_Ok in Hgo as ([s1 v'] & Hv & Hgo).
    apply bind_Ok in Hgo as ([s2 rest'] & Hrest & Hgo).
    cbn in Hgo. simplify_eq.
    destruct (Hkv _ _ _ Hv) as [Hshape Hleaves].
    destruct (IHkvs _ _ _ Hrest) as [Hshapes Hleaves'].
    split.
    + unfold shape in *. cbn in *. injection Hshapes as Hshapes. by rewrite Hshape, Hshapes.
    + intros b [Hb|Hb]%elem_of_app; [by apply Hleaves|by apply Hleaves'].
  - cbn [traverse] in Hrun. apply bind_Ok in Hrun as ([s1 xs'] & Hgo & Hrun).
    cbn in Hrun. simplify_eq.
    revert s s' xs' Hgo.
    induction IH as [|x xs Hx Hxs IHxs]; intros s s' xs' Hgo.
    { cbn in Hgo. simplify_eq. split; [done|]. by intros b ?%elem_of_nil. }
    apply bind_Ok in Hgo as ([s1 x'] & Hv & Hgo).
    apply bind_Ok in Hgo as ([s2 rest'] & Hrest & Hgo).
    cbn in Hgo. simplify_eq.
    destruct (Hx _ _ _ Hv) as [Hshape Hleaves].
    destruct (IHxs _ _ _ Hrest) as [Hshapes Hleaves'].
    split.
    + unfold shape in *. cbn in *. injection Hshapes as Hshapes. by rewrite Hshape, Hshapes.
    + intros b [Hb|Hb]%elem_of_app; [by apply Hleaves|by apply Hleaves'].
Qed.

(** Walking again over the elements that a walk returned, with a
    function that returns each of them as it is with the same result,
    gives the same collection of results. *)
Lemma traverse_replay {A B} (f : A → outcome (A * B)) (u : tree (A * B)) :
  (∀ x, x ∈ leaves u → f x.1 = Ok x) →
  traverse (λ (_ : unit) a, r ← f a; Ok ((), r)) () (tree_map fst u) = Ok ((), u).
Proof.
  induction u as [x|kvs IH|xs IH] using tree_nested_ind; intros Hf.
  - cbn. rewrite Hf by (by apply list_elem_of_singleton). done.
  - cbn [traverse tree_map].
    match goal with |- ?go () _ ≫= _ = _ =>
      assert (go () (map (λ kv, (kv.1, tree_map fst kv.2)) kvs) = Ok ((), kvs)) as ->;
        [|done]
    end.
    induction IH as [|[k v] kvs Hv Hkvs IHkvs]; [done|]. cbn in *.
    rewrite Hv by (intros x Hx; apply Hf, elem_of_app; auto). cbn.
    rewrite IHkvs by (intros x Hx; apply Hf, elem_of_app; auto). done.
  - cbn [traverse tree_map].
    match goal with |- ?go () _ ≫= _ = _ =>
      assert (go () (map (tree_map fst) xs) = Ok ((), xs)) as ->; [|done]
    end.
    induction IH as [|x xs Hx Hxs IHxs]; [done|]. cbn in *.
    rewrite Hx by (intros y Hy; apply Hf, elem_of_app; auto). cbn.
    rewrite IHxs by (intros y Hy; apply Hf, elem_of_app; auto). done.
Qed.

(** ** ResultCollection: serialization *)

Section SerializationFacts.
Context {M : Type} `{!TorchMetric M}.
Import ResultCollection.

Lemma assoc_dict_set {A} k k' (v : A) d :
  assoc k (dict_set k' v d) = if decide (k' = k) then Some v else assoc k d.
Proof.
  induction d as [|[k0 v0] d IH]; cbn.
  - by destruct (decide (k' = k)).
  - destruct (decide (k0 = k')) as [->|Hne]; cbn.
    + by destruct (decide (k' = k)).
    + destruct (decide (k0 = k)) as [->|Hne']; [|done].
      by destruct (decide (k' = k)); [congruence|].
Qed.

Lemma assoc_elem_of_NoDup {A} k (v : A) d :
  NoDup (keys d) → (k, v) ∈ d → assoc k d = Some v.
Proof.
  unfold keys. induction d as [|[k0 v0] d IH]; [by intros _ ?%elem_of_nil|].
  cbn. intros [Hk0 Hd]%NoDup_cons [Heq|Hin]%elem_of_cons.
  - simplify_eq. by destruct (decide (k0 = k0)).
  - destruct (decide (k0 = k)) as [->|Hne]; [|by apply IH].
    destruct Hk0. apply list_elem_of_fmap. by exists (k, v).
Qed.

Lemma assoc_is_Some_keys {A} k (d : list (string * A)) :
  k ∈ keys d → ∃ v, (k, v) ∈ d.
Proof.
  unfold keys. intros ([k' v] & -> & Hin)%list_elem_of_fmap. by exists v.
Qed.

(** Assigning a list of key/value pairs, one after the other. *)
Lemma assoc_foldl_setitem_other (pairs : list (string * entry M)) : ∀ self k,
  k ∉ keys pairs →
  assoc k (items (foldl (λ self kv, setitem kv.1 kv.2 self) self pairs))
  = assoc k (items self).
Proof.
  unfold keys. induction pairs as [|[k0 v0] pairs IH]; intros self k Hk; [done|].
  cbn in Hk |- *. apply not_elem_of_cons in Hk as [Hne Hk].
  rewrite IH by done. cbn. rewrite assoc_dict_set.
  by destruct (decide (k0 = k)); [congruence|].
Qed.

Lemma assoc_foldl_setitem (pairs : list (string * entry M)) : ∀ self k v,
  NoDup (keys pairs) → (k, v) ∈ pairs →
  assoc k (items (foldl (λ self kv, setitem kv.1 kv.2 self) self pairs)) = Some v.
Proof.
  unfold keys. induction pairs as [|[k0 v0] pairs IH]; intros self k v Hnd Hin;
    [by apply elem_of_nil in Hin|].
  cbn in Hnd |- *. apply NoDup_cons in Hnd as [Hk0 Hnd].
  apply elem_of_cons in Hin as [Heq|Hin].
  - simplify_eq. rewrite assoc_foldl_setitem_other by done.
    cbn. rewrite assoc_dict_set. by destruct (decide (k0 = k0)).
  - by apply IH.
Qed.

Lemma load_result_metric_to_state_dict (item : ResultMetric.t M) :
  load_result_metric (to_state_dict item) = item.
Proof. by destruct item as [[v n|v] fc cc]. Qed.

(** Under [resupplies_live_metrics], re-assigning the metric objects
    changes nothing. *)
Lemma re_assign_metric_live (metrics : gmap string M) meta (item : ResultMetric.t M) :
  (∀ name m, Metadata.metric_attribute meta = Some name → metrics !! name = Some m →
             ResultMetric.value item = Some (ResultMetric.VM m)) →
  re_assign_metric metrics meta item = item.
Proof.
  intros Hlive. unfold re_assign_metric.
  destruct (Metadata.metric_attribute meta) as [name|]; [|done].
  destruct (metrics !! name) as [m|] eqn:Hm; [|done].
  specialize (Hlive name m eq_refl Hm).
  destruct item as [[v n|v] fc cc]; cbn in *; by simplify_eq.
Qed.

(** What [load_from_state_dict] leaves under a key of the saved
    collection is what the collection had there. *)
Lemma load_from_state_dict_assoc (self fresh : t M) (metrics : gmap string M) key e :
  NoDup (keys (items self)) →
  resupplies_live_metrics metrics self →
  (key, e) ∈ items self →
  assoc key (items (load_from_state_dict fresh (state_dict self) metrics)) = Some e.
Proof.
  intros Hnd Hlive Hin. unfold load_from_state_dict, state_dict.
  rewrite map_map. cbn [fst snd].
  set (pairs := map _ (items self)).
  assert (pairs = items self) as Hpairs.
  { unfold pairs. clear. induction (items self) as [|[k [meta node|b| |z]] d IH];
      cbn; [done|..]; rewrite IH; try done.
    rewrite tree_map_compose.
    rewrite tree_map_id_on; [done|]. intros a _. apply load_result_metric_to_state_dict. }
  rewrite Hpairs. clear pairs Hpairs.
  pose proof (assoc_foldl_setitem (items self) fresh key e Hnd Hin) as Hassoc.
  destruct (decide (size metrics = 0%nat)); [done|].
  cbn [items set_items]. rewrite assoc_map_values, Hassoc. cbn. f_equal.
  destruct e as [meta node|b| |z]; try done. cbn. f_equal.
  apply tree_map_id_on. intros item Hitem. apply re_assign_metric_live.
  intros name m Hname Hm. by eapply Hlive.
Qed.

(** C9: a collection serialized with [state_dict()] and loaded with
    [load_from_state_dict()] into a fresh collection, the live metric
    objects being supplied again by attribute name, has under every key
    of the original the same [compute()] output as the original. *)
Theorem C9_state_dict_round_trip (self fresh : t M) (metrics : gmap string M)
    (key : string) (p : list step) :
  NoDup (keys (items self)) →
  resupplies_live_metrics metrics self →
  key ∈ keys (items self) →
  compute_at (load_from_state_dict fresh (state_dict self) metrics) key p
  = compute_at self key p.
Proof.
  intros Hnd Hlive [e Hin]%assoc_is_Some_keys. unfold compute_at.
  rewrite (load_from_state_dict_assoc self fresh metrics key e Hnd Hlive Hin).
  by rewrite (assoc_elem_of_NoDup key e (items self) Hnd Hin).
Qed.

End SerializationFacts.

(** ** ResultCollection: reset on a change of hook *)

(** A walk with a function that never raises, whose results do not
    depend on the shared state as long as an invariant of the state
    holds: the results are those of [tree_map], and the state is folded
    over the leaves. *)
Lemma traverse_total {S A B} (f : S → A → outcome (S * B)) (I : S → Prop)
    (step : S → A → S) (g : A → B) :
  (∀ s a, I s → f s a = Ok (step s a, g a) ∧ I (step s a)) →
  ∀ t s, I s →
    traverse f s t = Ok (foldl step s (leaves t), tree_map g t) ∧
    I (foldl step s (leaves t)).
Proof.
  intros Hf t.
  induction t as [a|kvs IH|xs IH] using tree_nested_ind; intros s Hs.
  - cbn. destruct (Hf s a Hs) as [-> HI]. done.
  - cbn [traverse leaves tree_map].
    match goal with |- ?go s kvs ≫= _ = _ ∧ _ =>
      assert (∀ s, I s →
                go s kvs = Ok (foldl step s (concat (map (λ kv, leaves kv.2) kvs)),
                               map (λ kv, (kv.1, tree_map g kv.2)) kvs) ∧
                I (foldl step s (concat (map (λ kv, leaves kv.2) kvs)))) as Hgo
    end.
    { clear s Hs. induction IH as [|kv kvs Hkv Hkvs IHkvs]; intros s Hs; [done|].
      destruct (Hkv s Hs) as [Hrun HI]. rewrite Hrun. cbn.
      destruct (IHkvs _ HI) as [Hrest HI']. rewrite Hrest. cbn.
      by rewrite foldl_app. }
    destruct (Hgo s Hs) as [-> HI]. done.
  - cbn [traverse leaves tree_map].
    match goal with |- ?go s xs ≫= _ = _ ∧ _ =>
      assert (∀ s, I s →
                go s xs = Ok (foldl step s (concat (map leaves xs)),
                              map (tree_map g) xs) ∧
                I (foldl step s (concat (map leaves xs)))) as Hgo
    end.
    { clear s Hs. induction IH as [|x xs Hx Hxs IHxs]; intros s Hs; [done|].
      destruct (Hx s Hs) as [Hrun HI]. rewrite Hrun. cbn.
      destruct (IHxs _ HI) as [Hrest HI']. rewrite Hrest. cbn.
      by rewrite foldl_app. }
    destruct (Hgo s Hs) as [-> HI]. done.
Qed.

Section ResetFacts.
Context {M : Type} `{!TorchMetric M}.
Import ResultCollection.

Lemma set_has_reset_twice b b' meta :
  Metadata.set_has_reset b (Metadata.set_has_reset b' meta) = Metadata.set_has_reset b meta.
Proof. reflexivity. Qed.

Lemma set_has_reset_same meta : Metadata.set_has_reset (Metadata.has_reset meta) meta = meta.
Proof. by destruct meta. Qed.

(** With [metrics=False], [reset_fn] resets the tensors of the hook and
    nothing else, and it never raises. *)
Lemma reset_fn_tensors hook meta0 meta (item : ResultMetric.t M) :
  (∃ b, meta = Metadata.set_has_reset b meta0) →
  reset_fn (Some hook) (Some false) meta item
    = Ok (reset_meta_of_hook hook meta0 meta item, reset_tensor_of_hook hook meta0 item) ∧
  (∃ b, reset_meta_of_hook hook meta0 meta item = Metadata.set_has_reset b meta0).
Proof.
  intros [b ->]. unfold reset_fn, reset_meta_of_hook, reset_tensor_of_hook.
  cbn [xorb Metadata.fx Metadata.set_has_reset].
  destruct (ResultMetric.is_tensor item) eqn:Htensor; cbn [andb]; [|eauto].
  destruct (bool_decide (hook = Metadata.fx meta0)); [|eauto]. split; [|eauto].
  unfold ResultMetric.reset. unfold ResultMetric.is_tensor in Htensor.
  by destruct (ResultMetric.acc item).
Qed.

Lemma reset_entry_tensors hook (e : entry M) :
  reset_entry (Some hook) (Some false) e = Ok (reset_tensors_entry hook e).
Proof.
  destruct e as [meta node|b| |z]; try done. cbn.
  destruct (traverse_total (reset_fn (Some hook) (Some false))
              (λ s, ∃ b, s = Metadata.set_has_reset b meta)
              (reset_meta_of_hook hook meta) (reset_tensor_of_hook hook meta)
              (λ s a Hs, reset_fn_tensors hook meta s a Hs) node meta)
    as [-> _]; [|done].
  exists (Metadata.has_reset meta). by rewrite set_has_reset_same.
Qed.

Lemma mapM_items_total (f : entry M → outcome (entry M)) (h : entry M → entry M) d :
  (∀ e, f e = Ok (h e)) →
  mapM_items f d = Ok (map (λ kv, (kv.1, h kv.2)) d).
Proof.
  intros Hf. induction d as [|[k e] d IH]; [done|]. cbn. by rewrite Hf, IH.
Qed.

Lemma _reset_tensors (self : t M) hook :
  _reset self (Some hook) (Some false)
  = Ok (set_items (map (λ kv, (kv.1, reset_tensors_entry hook kv.2)) (items self)) self).
Proof.
  unfold _reset.
  by rewrite (mapM_items_total _ (reset_tensors_entry hook)
                (items self) (reset_entry_tensors hook)).
Qed.

Lemma log_unfold (self : t M) (a : log_args M) :
  log self a =
  if on_step a && _on_epoch_end_reached self then Raise RuntimeError
  else
    self1 ← (if should_reset_tensors (log_created self a) (log_hook a)
             then _reset (log_created self a) (Some (log_hook a)) (Some false)
             else Ok (log_created self a));
    self2 ← update_metrics self1 (log_key a) (value a) (log_batch_size a);
    Ok (set_current_fx (Some (log_hook a)) self2).
Proof.
  unfold log, log_created, log_key, log_hook.
  by destruct (dataloader_idx a).
Qed.

Lemma should_reset_tensors_created (self : t M) (a : log_args M) hook :
  should_reset_tensors (log_created self a) hook = should_reset_tensors self hook.
Proof.
  unfold log_created, to_result_metric.
  destruct (decide _); [done|]. by destruct (is_leaf _).
Qed.

(** The state of a metric after [reset]: the accumulators are back at
    their defaults. *)
Lemma super_reset_acc (item : ResultMetric.t M) :
  ResultMetric.is_tensor item = true →
  ResultMetric.acc (ResultMetric.super_reset item)
  = ResultMetric.TensorAcc (ResultMetric.VT 0) 0.
Proof.
  unfold ResultMetric.is_tensor, ResultMetric.super_reset.
  by destruct (ResultMetric.acc item).
Qed.

(** C3: when [log] is called with a hook (qualified by the dataloader
    index) other than the one of the preceding [log] call, and the batch
    index is unset or zero, then before the value is fed in exactly the
    tensor accumulators whose metadata carries the new hook are reset:
    the metric-object accumulators of every hook and the tensor
    accumulators of every other hook are as they were. *)
Theorem C3_hook_change_resets_tensors_of_new_hook (self : t M) (a : log_args M) :
  on_step a && _on_epoch_end_reached self = false →
  _current_fx self ≠ Some (log_hook a) →
  batch_idx self = None ∨ batch_idx self = Some 0%Z →
  ∃ before_update,
    _reset (log_created self a) (Some (log_hook a)) (Some false) = Ok before_update ∧
    log self a =
      (self' ← update_metrics before_update (log_key a) (value a) (log_batch_size a);
       Ok (set_current_fx (Some (log_hook a)) self')) ∧
    keys (items before_update) = keys (items (log_created self a)) ∧
    ∀ key e, assoc key (items (log_created self a)) = Some e →
      match e with
      | EResult meta node =>
          ∃ meta' node',
            assoc key (items before_update) = Some (EResult meta' node') ∧
            Metadata.fx meta' = Metadata.fx meta ∧
            ∀ p item, leaf_at p node = Some item →
              ∃ item',
                leaf_at p node' = Some item' ∧
                (ResultMetric.is_tensor item = true →
                 Metadata.fx meta = log_hook a →
                 ResultMetric.acc item' = ResultMetric.TensorAcc (ResultMetric.VT 0) 0) ∧
                (ResultMetric.is_tensor item = false → item' = item) ∧
                (Metadata.fx meta ≠ log_hook a → item' = item)
      | _ => assoc key (items before_update) = Some e
      end.
Proof.
  intros Hallowed Hhook Hidx.
  eexists. split; [apply _reset_tensors|]. split; [|split].
  - rewrite log_unfold, Hallowed, should_reset_tensors_created.
    unfold should_reset_tensors.
    rewrite bool_decide_eq_false_2 by done.
    destruct Hidx as [->| ->]; cbn [negb andb];
      rewrite ?bool_decide_eq_true_2 by done; by rewrite _reset_tensors.
  - cbn [items set_items]. unfold keys. rewrite <-list_fmap_compose.
    by apply list_fmap_ext.
  - intros key e Hkey. cbn [items set_items].
    rewrite assoc_map_values, Hkey.
    destruct e as [meta node|b| |z]; try done.
    eexists _, _. split; [reflexivity|]. split.
    { generalize (leaves node). intros l.
      assert (∀ m, Metadata.fx m = Metadata.fx meta →
                   Metadata.fx (foldl (reset_meta_of_hook (log_hook a) meta) m l)
                   = Metadata.fx meta) as Hfold; [|by apply Hfold].
      induction l as [|x l IH]; intros m Hm; [done|]. cbn. apply IH.
      unfold reset_meta_of_hook.
      destruct (ResultMetric.is_tensor x && _); exact Hm. }
    intros p item Hitem. rewrite leaf_at_tree_map, Hitem.
    eexists. split; [reflexivity|]. unfold reset_tensor_of_hook.
    repeat split.
    + intros Htensor Hfx. rewrite Htensor, bool_decide_eq_true_2 by done.
      by apply super_reset_acc.
    + by intros ->.
    + intros Hfx. rewrite bool_decide_eq_false_2 by done. by rewrite andb_false_r.
Qed.

End ResetFacts.

(** ** ResultCollection: routing to the callback map *)

Section RoutingFacts.
Context {M : Type} `{!TorchMetric M}.
Import ResultCollection.

Lemma populate_callback (self : t M) on_step r ms ms' :
  populate (training self) on_step r ms = Ok ms' →
  callback_metrics ms' =
    if routed_to_callback self on_step r
    then <[row_name_forked r := row_value r]>
           (<[row_name r := row_value r]> (callback_metrics ms))
    else callback_metrics ms.
Proof.
  unfold populate, routed_to_callback.
  destruct (row_logger r), (training self || row_on_epoch r && negb on_step),
    (row_prog_bar r); cbn;
    try (intros [= <-]; reflexivity);
    (destruct (traverse _ _ _) as [[? ?]|]; cbn; [intros [= <-]; reflexivity|done]).
Qed.

(** One turn of the loop of [get_metrics], on the callback map. *)
Lemma get_metrics_loop_callback (self : t M) on_step todo : ∀ ms0 d ms,
  get_metrics_loop self on_step todo ms0 = Ok (d, ms) →
  (∀ x, is_Some (callback_metrics ms0 !! x) → is_Some (callback_metrics ms !! x)) ∧
  (∀ key e r, (key, e) ∈ todo → non_skipped self on_step key e r →
     routed_to_callback self on_step r = true →
     is_Some (callback_metrics ms !! row_name r) ∧
     is_Some (callback_metrics ms !! row_name_forked r)) ∧
  (∀ x v, callback_metrics ms !! x = Some v →
     callback_metrics ms0 !! x = Some v ∨
     ∃ key e r, (key, e) ∈ todo ∧ non_skipped self on_step key e r ∧
       routed_to_callback self on_step r = true ∧
       (x = row_name r ∨ x = row_name_forked r) ∧ v = row_value r).
Proof.
  induction todo as [|[key e] todo IH]; intros ms0 d ms Hloop.
  { cbn in Hloop. simplify_eq. split; [done|]. split; [|by left].
    by intros ? ? ? ?%elem_of_nil. }
  cbn [get_metrics_loop] in Hloop.
  apply bind_Ok in Hloop as ([e1 ms1] & Hstep & Hloop).
  apply bind_Ok in Hloop as ([rest ms2] & Hrest & Hloop).
  cbn in Hloop. simplify_eq.
  destruct (IH _ _ _ Hrest) as (IHmono & IHin & IHout). clear IH Hrest.
  (* what this entry does to the callback map *)
  assert (callback_metrics ms1 = callback_metrics ms0 ∧
            (∀ r, non_skipped self on_step key e r →
                  routed_to_callback self on_step r = false) ∨
          ∃ r, non_skipped self on_step key e r ∧
               routed_to_callback self on_step r = true ∧
               callback_metrics ms1 =
                 <[row_name_forked r := row_value r]>
                   (<[row_name r := row_value r]> (callback_metrics ms0)))
    as Hentry.
  { destruct (valid_item key e) eqn:Hvalid.
    - apply bind_Ok in Hstep as ([e' r] & Hrow & Hstep).
      destruct r as [r|].
      + apply bind_Ok in Hstep as (ms' & Hpop & Hstep). cbn in Hstep. simplify_eq.
        apply populate_callback in Hpop.
        destruct (routed_to_callback self on_step r) eqn:Hrouted.
        * right. exists r. repeat split; eauto.
        * left. split; [done|]. intros r' [_ [e'' Hrow']]. congruence.
      + cbn in Hstep. simplify_eq. left. split; [done|].
        intros r' [_ [e'' Hrow']]. congruence.
    - cbn in Hstep. simplify_eq. left. split; [done|].
      intros r' [Hvalid' _]. congruence. }
  split; [|split].
  - intros x Hx. apply IHmono.
    destruct Hentry as [[-> _]|(r & _ & _ & ->)]; [done|].
    destruct (decide (row_name_forked r = x)) as [->|];
      [rewrite lookup_insert_eq; eauto|rewrite lookup_insert_ne by done].
    destruct (decide (row_name r = x)) as [->|];
      [rewrite lookup_insert_eq; eauto|by rewrite lookup_insert_ne].
  - intros key' e' r [Heq|Hin]%elem_of_cons Hns Hrouted.
    + simplify_eq.
      destruct Hentry as [[_ Hno]|(r' & [_ [e1' Hrow']] & _ & Hms1)].
      { rewrite (Hno r Hns) in Hrouted. done. }
      destruct Hns as [_ [e2' Hrow]].
      assert (r' = r) as -> by congruence.
      split; apply IHmono; rewrite Hms1.
      * destruct (decide (row_name_forked r = row_name r)) as [->|];
          [rewrite lookup_insert_eq; eauto|].
        rewrite lookup_insert_ne, lookup_insert_eq by done. eauto.
      * rewrite lookup_insert_eq. eauto.
    + by eapply IHin.
  - intros x v Hx. destruct (IHout x v Hx) as [Hx1|(key' & e' & r & Hin & Hr)].
    + destruct Hentry as [[Hms1 _]|(r & Hns & Hrouted & Hms1)];
        rewrite Hms1 in Hx1; [by left|].
      destruct (decide (row_name_forked r = x)) as [<-|Hne1].
      { rewrite lookup_insert_eq in Hx1. simplify_eq. right.
        exists key, e, r. split; [apply elem_of_cons; by left|]. auto. }
      rewrite lookup_insert_ne in Hx1 by done.
      destruct (decide (row_name r = x)) as [<-|Hne2].
      { rewrite lookup_insert_eq in Hx1. simplify_eq. right.
        exists key, e, r. split; [apply elem_of_cons; by left|]. auto. }
      rewrite lookup_insert_ne in Hx1 by done. by left.
    + right. exists key', e', r. split; [apply elem_of_cons; by right|done].
Qed.

(** C7: in a view that [get_metrics(on_step)] returns, an entry that was
    not skipped is in the callback map under its base name and under
    its forked name when the collection is in training mode or when the
    entry is logged on epoch and the view is the epoch view; and the
    callback map holds nothing else: every one of its items is the value
    of such an entry under one of its two names. *)
Theorem C7_callback_routing (self self' : t M) (on_step : bool) (ms : metrics) :
  get_metrics self on_step = Ok (ms, self') →
  (∀ key e r, (key, e) ∈ items self → non_skipped self on_step key e r →
     routed_to_callback self on_step r = true →
     is_Some (callback_metrics ms !! row_name r) ∧
     is_Some (callback_metrics ms !! row_name_forked r)) ∧
  (∀ x v, callback_metrics ms !! x = Some v →
     ∃ key e r, (key, e) ∈ items self ∧ non_skipped self on_step key e r ∧
       routed_to_callback self on_step r = true ∧
       (x = row_name r ∨ x = row_name_forked r) ∧ v = row_value r).
Proof.
  unfold get_metrics. intros ([d ms'] & Hloop & Hret)%bind_Ok.
  cbn in Hret. simplify_eq.
  destruct (get_metrics_loop_callback _ _ _ _ _ _ Hloop) as (_ & Hin & Hout).
  split; [exact Hin|].
  intros x v Hx. destruct (Hout x v Hx) as [Hempty|Hfound]; [|done].
  cbn in Hempty. by rewrite lookup_empty in Hempty.
Qed.

End RoutingFacts.

(** ** ResultCollection: reading the epoch view twice *)

Section CacheFacts.
Context {M : Type} `{!TorchMetric M}.
Import ResultCollection.

Lemma _get_computed_cache_again meta (item item' : ResultMetric.t M) r :
  _get_computed_cache meta item = Ok (item', r) →
  (∀ c, ResultMetric._computed item' = Some c → length c = 1%nat) →
  _get_computed_cache meta item' = Ok (item', r).
Proof.
  unfold _get_computed_cache.
  destruct (Metadata.on_epoch meta); cbn [negb]; [|by intros [= <- <-]].
  destruct (ResultMetric._computed item) as [c|] eqn:Hc.
  - destruct (tensor_truthy c) as [filled|] eqn:Ht; cbn; [|done].
    destruct filled; cbn.
    + rewrite Hc. intros [= <- <-] _. rewrite Hc, Ht. cbn. by rewrite Hc.
    + unfold ResultMetric.wrapped_compute. rewrite Hc. cbn. rewrite ?Hc. intros [= <- <-] _.
      rewrite Hc, Ht. cbn. rewrite ?Hc. cbn. by rewrite ?Hc.
  - cbn. unfold ResultMetric.wrapped_compute at 1. rewrite Hc.
    destruct (ResultMetric.compute meta item) as [[r0 s']|] eqn:Hcomp; cbn; [|done].
    intros [= <- <-] Hlen. cbn.
    specialize (Hlen r0 eq_refl). destruct r0 as [|q [|]]; try done.
    cbn. destruct (Qeq_bool q 0); cbn; [unfold ResultMetric.wrapped_compute; cbn|]; done.
Qed.

Lemma view_value_layout on_step (e e' : entry M) v :
  view_value on_step e = Ok (e', v) → same_layout e e'.
Proof.
  destruct e as [meta node|b| |z]; cbn; try (by intros [= <- <-]).
  intros ([s seen] & Hrun & Hret)%bind_Ok. cbn in Hret. simplify_eq.
  split; [done|]. rewrite shape_tree_map.
  by destruct (traverse_shape _ _ _ _ _ Hrun).
Qed.

Lemma view_value_again (e e' : entry M) v :
  view_value false e = Ok (e', v) →
  (∀ meta node item c, e' = EResult meta node → item ∈ leaves node →
     ResultMetric._computed item = Some c → length c = 1%nat) →
  view_value false e' = Ok (e', v).
Proof.
  destruct e as [meta node|b| |z]; cbn; try (by intros [= <- <-]).
  intros ([s seen] & Hrun & Hret)%bind_Ok Hscalar. cbn in Hret. simplify_eq.
  cbn. rewrite traverse_replay; [done|].
  intros x Hx.
  destruct (traverse_shape _ _ _ _ _ Hrun) as [_ Hleaves].
  destruct (Hleaves x Hx) as (s1 & s2 & a & Ha).
  apply bind_Ok in Ha as (x' & Ha & Hret). cbn in Hret. simplify_eq.
  destruct x as [item' r]. apply (_get_computed_cache_again meta a item' r Ha).
  intros c. apply (Hscalar meta _ item' c eq_refl).
  rewrite leaves_tree_map. apply (list_elem_of_fmap_2 fst _ _ Hx).
Qed.

Lemma same_layout_refl (e : entry M) : same_layout e e.
Proof. by destruct e. Qed.

Lemma shape_is_leaf {A B} (n : tree A) (n' : tree B) :
  shape n' = shape n → is_leaf n' = is_leaf n.
Proof. by destruct n, n'. Qed.

Lemma same_layout_valid_item k (e e' : entry M) :
  same_layout e e' → valid_item k e' = valid_item k e.
Proof.
  destruct e as [meta node|b| |z], e' as [meta' node'|b'| |z']; cbn; try done;
    try (by intros [= ->]).
  intros [-> Hshape]. by rewrite (shape_is_leaf _ _ Hshape).
Qed.

Lemma same_layout_flags (e e' : entry M) :
  same_layout e e' → truthy e' = truthy e ∧ format_idx e' = format_idx e.
Proof.
  destruct e as [meta node|b| |z], e' as [meta' node'|b'| |z']; cbn; try done;
    try (by intros [= ->]).
  intros [-> Hshape]. split; [|done].
  destruct node as [a|kvs|xs], node' as [a'|kvs'|xs']; try done;
    unfold shape in Hshape; cbn in Hshape; injection Hshape as Hshape;
    [by destruct kvs, kvs'|by destruct xs, xs'].
Qed.

Lemma flag_view_layout (d d' : list (string * entry M)) :
  Forall2 (λ kv kv', kv'.1 = kv.1 ∧ same_layout kv.2 kv'.2) d d' →
  ∀ k, flag_view d' k = flag_view d k.
Proof.
  intros Hd k. unfold flag_view.
  induction Hd as [|[k1 e1] [k2 e2] d d' [Hk He] Hd IH]; [done|].
  cbn in Hk, He |- *. subst k2. destruct (decide (k1 = k)); [|exact IH].
  cbn. by destruct (same_layout_flags _ _ He) as [-> ->].
Qed.

Lemma _extract_metadata_layout (self self' : t M) key (e e' : entry M) on_step suffix :
  (∀ k, flag_view (items self') k = flag_view (items self) k) →
  same_layout e e' →
  _extract_metadata self' key e' on_step suffix = _extract_metadata self key e on_step suffix.
Proof.
  intros Hflag He. unfold _extract_metadata.
  assert (∀ name : string,
    (forked ← getitem (key +:+ ".forked") (items self');
     logger ← getitem (key +:+ ".logger") (items self');
     prog_bar ← getitem (key +:+ ".prog_bar") (items self');
     metric_on_epoch ← getitem (key +:+ ".on_epoch") (items self');
     dataloader_idx ← getitem (key +:+ ".dataloader_idx") (items self');
     dataloader_idx ← format_idx dataloader_idx;
     Ok (name, if truthy forked then name +:+ suffix else name,
         truthy logger, truthy prog_bar, truthy metric_on_epoch, dataloader_idx))
    =
    (forked ← getitem (key +:+ ".forked") (items self);
     logger ← getitem (key +:+ ".logger") (items self);
     prog_bar ← getitem (key +:+ ".prog_bar") (items self);
     metric_on_epoch ← getitem (key +:+ ".on_epoch") (items self);
     dataloader_idx ← getitem (key +:+ ".dataloader_idx") (items self);
     dataloader_idx ← format_idx dataloader_idx;
     Ok (name, if truthy forked then name +:+ suffix else name,
         truthy logger, truthy prog_bar, truthy metric_on_epoch, dataloader_idx)))
    as Hnested.
  { intros name. unfold getitem.
    repeat match goal with
    | |- context [assoc ?k (items self)] =>
        let H := fresh "H" in
        pose proof (Hflag k) as H; unfold flag_view in H;
        destruct (assoc k (items self)), (assoc k (items self'));
        cbn in H; simplify_eq; cbn; try done
    end.
    repeat match goal with
    | H : truthy _ = truthy _ |- _ => rewrite H; clear H
    | H : format_idx _ = format_idx _ |- _ => rewrite H; clear H
    end.
    done. }
  destruct e as [meta node|b| |z], e' as [meta' node'|b'| |z']; cbn in He;
    try done; simplify_eq; try (by rewrite Hnested).
  destruct He as [-> Hshape].
  destruct node as [a|kvs|xs], node' as [a'|kvs'|xs']; try done;
    by rewrite Hnested.
Qed.

Lemma get_row_layout (self : t M) on_step key (e e' : entry M) r :
  get_row self on_step key e = Ok (e', r) → same_layout e e'.
Proof.
  unfold get_row. intros ([e1 v] & Hview & Hrow)%bind_Ok.
  apply view_value_layout in Hview.
  destruct v as [v|]; [|by simplify_eq].
  destruct (is_empty (Some v)); [by simplify_eq|].
  apply bind_Ok in Hrow as ([[[[? ?] ?] ?] ?] & _ & Hrow). by simplify_eq.
Qed.

Lemma get_row_again (self self' : t M) key (e e' : entry M) r :
  (∀ k, flag_view (items self') k = flag_view (items self) k) →
  get_row self false key e = Ok (e', r) →
  (∀ meta node item c, e' = EResult meta node → item ∈ leaves node →
     ResultMetric._computed item = Some c → length c = 1%nat) →
  get_row self' false key e' = Ok (e', r).
Proof.
  intros Hflag Hrow Hscalar. unfold get_row in *.
  apply bind_Ok in Hrow as ([e1 v] & Hview & Hrow).
  assert (e1 = e') as ->.
  { destruct v as [v|]; [|by simplify_eq].
    destruct (is_empty (Some v)); [by simplify_eq|].
    apply bind_Ok in Hrow as ([[[[? ?] ?] ?] ?] & _ & Hrow). by simplify_eq. }
  rewrite (view_value_again e e' v Hview Hscalar). cbn.
  destruct v as [v|]; [|done].
  destruct (is_empty (Some v)); [done|].
  by rewrite (_extract_metadata_layout self self' key e e' false _ Hflag
                (view_value_layout false e e' _ Hview)).
Qed.

Lemma get_metrics_loop_layout (self : t M) on_step todo : ∀ ms0 d ms,
  get_metrics_loop self on_step todo ms0 = Ok (d, ms) →
  Forall2 (λ kv kv', kv'.1 = kv.1 ∧ same_layout kv.2 kv'.2) todo d.
Proof.
  induction todo as [|[key e] todo IH]; intros ms0 d ms Hloop.
  { cbn in Hloop. simplify_eq. constructor. }
  cbn [get_metrics_loop] in Hloop.
  apply bind_Ok in Hloop as ([e1 ms1] & Hstep & Hloop).
  apply bind_Ok in Hloop as ([rest ms2] & Hrest & Hloop).
  cbn in Hloop. simplify_eq. constructor; [|by eapply IH].
  split; [done|]. cbn.
  destruct (valid_item key e); [|cbn in Hstep; simplify_eq; apply same_layout_refl].
  apply bind_Ok in Hstep as ([e' r] & Hrow & Hstep).
  apply get_row_layout in Hrow.
  destruct r as [r|]; [|by simplify_eq].
  apply bind_Ok in Hstep as (ms' & _ & Hstep). by simplify_eq.
Qed.

(** Reading the epoch view again, from the collection that the first
    read left, goes through the same steps and changes nothing. *)
Lemma get_metrics_loop_again (self self' : t M) todo : ∀ ms0 d ms,
  training self' = training self →
  (∀ k, flag_view (items self') k = flag_view (items self) k) →
  get_metrics_loop self false todo ms0 = Ok (d, ms) →
  scalar_caches d →
  get_metrics_loop self' false d ms0 = Ok (d, ms).
Proof.
  induction todo as [|[key e] todo IH]; intros ms0 d ms Htraining Hflag Hloop Hscalar.
  { cbn in Hloop. by simplify_eq. }
  cbn [get_metrics_loop] in Hloop.
  apply bind_Ok in Hloop as ([e1 ms1] & Hstep & Hloop).
  apply bind_Ok in Hloop as ([rest ms2] & Hrest & Hloop).
  cbn in Hloop. simplify_eq.
  assert (scalar_caches rest) as Hscalar'.
  { intros k meta node item c Hin. apply (Hscalar k meta node item c).
    apply elem_of_cons. by right. }
  specialize (IH _ _ _ Htraining Hflag Hrest Hscalar').
  cbn [get_metrics_loop].
  destruct (valid_item key e) eqn:Hvalid.
  - apply bind_Ok in Hstep as ([e' r] & Hrow & Hstep).
    assert (e' = e1) as ->.
    { destruct r as [r|]; [|by simplify_eq].
      apply bind_Ok in Hstep as (ms' & _ & Hstep). by simplify_eq. }
    rewrite (same_layout_valid_item key e e1 (get_row_layout _ _ _ _ _ _ Hrow)), Hvalid.
    rewrite (get_row_again self self' key e e1 r Hflag Hrow).
    + cbn. rewrite Htraining. destruct r as [r|].
      * apply bind_Ok in Hstep as (ms' & Hpop & Hstep). simplify_eq.
        rewrite Hpop. cbn. by rewrite IH.
      * simplify_eq. cbn. by rewrite IH.
    + intros meta node item c ->. apply (Hscalar key meta node item c).
      apply elem_of_cons. by left.
  - cbn in Hstep. simplify_eq. rewrite Hvalid. cbn. by rewrite IH.
Qed.

(** X23: reading the epoch view a second time, when every value that
    the first reading cached is a tensor of one element: the second
    reading returns the same maps and leaves the collection as the
    first one left it (nothing is computed again). *)
Lemma get_epoch_metrics_again (self self' : t M) ms :
  get_epoch_metrics self = Ok (ms, self') →
  scalar_caches (items self') →
  get_epoch_metrics self' = Ok (ms, self').
Proof.
  unfold get_epoch_metrics, get_metrics.
  intros ([d ms'] & Hloop & Hret)%bind_Ok Hscalar. cbn in Hret. simplify_eq.
  cbn [items set_items] in *.
  rewrite (get_metrics_loop_again self (set_items d self) (items self) no_metrics d ms
             eq_refl
             (flag_view_layout _ _ (get_metrics_loop_layout _ _ _ _ _ _ Hloop))
             Hloop Hscalar).
  cbn. by destruct self.
Qed.

End CacheFacts.

(** ** ResultCollection: the examples *)

Lemma C3_witness :
  let a := ResultCollection.log_defaults "training_step" "accuracy" (Leaf (LTensor [1])) in
  ResultCollection._current_fx sample_collection ≠ Some (log_hook a) ∧
  ∃ before_update,
    ResultCollection._reset (log_created sample_collection a) (Some (log_hook a))
      (Some false) = Ok before_update ∧
    ResultCollection.log sample_collection a =
      (self' ← ResultCollection.update_metrics before_update (log_key a)
                 (ResultCollection.value a) (ResultCollection.log_batch_size a);
       Ok (ResultCollection.set_current_fx (Some (log_hook a)) self')) ∧
    keys (ResultCollection.items before_update)
      = keys (ResultCollection.items (log_created sample_collection a)) ∧
    ∀ key e, assoc key (ResultCollection.items (log_created sample_collection a)) = Some e →
      match e with
      | ResultCollection.EResult meta node =>
          ∃ meta' node',
            assoc key (ResultCollection.items before_update)
              = Some (ResultCollection.EResult meta' node') ∧
            Metadata.fx meta' = Metadata.fx meta ∧
            ∀ p item, leaf_at p node = Some item →
              ∃ item',
                leaf_at p node' = Some item' ∧
                (ResultMetric.is_tensor item = true →
                 Metadata.fx meta = log_hook a →
                 ResultMetric.acc item' = ResultMetric.TensorAcc (ResultMetric.VT 0) 0) ∧
                (ResultMetric.is_tensor item = false → item' = item) ∧
                (Metadata.fx meta ≠ log_hook a → item' = item)
      | _ => assoc key (ResultCollection.items before_update) = Some e
      end.
Proof.
  intros a. split; [discriminate|].
  apply (C3_hook_change_resets_tensors_of_new_hook sample_collection a).
  - reflexivity.
  - discriminate.
  - left. reflexivity.
Defined.

Lemma C7_witness :
  ∃ ms self',
    ResultCollection.get_metrics sample_collection false = Ok (ms, self') ∧
    (∀ key e r, (key, e) ∈ ResultCollection.items sample_collection →
       non_skipped sample_collection false key e r →
       routed_to_callback sample_collection false r = true →
       is_Some (ResultCollection.callback_metrics ms !! ResultCollection.row_name r) ∧
       is_Some (ResultCollection.callback_metrics ms !! ResultCollection.row_name_forked r)) ∧
    (∀ x v, ResultCollection.callback_metrics ms !! x = Some v →
       ∃ key e r, (key, e) ∈ ResultCollection.items sample_collection ∧
         non_skipped sample_collection false key e r ∧
         routed_to_callback sample_collection false r = true ∧
         (x = ResultCollection.row_name r ∨ x = ResultCollection.row_name_forked r) ∧
         v = ResultCollection.row_value r).
Proof.
  destruct (ResultCollection.get_metrics sample_collection false)
    as [[ms self']|e] eqn:Hget; [|by vm_compute in Hget].
  exists ms, self'. split; [reflexivity|].
  apply (C7_callback_routing sample_collection self' false ms Hget).
Defined.

Lemma C9_witness :
  NoDup (keys (ResultCollection.items sample_collection)) ∧
  resupplies_live_metrics sample_metrics sample_collection ∧
  ResultCollection.compute_at
    (ResultCollection.load_from_state_dict (ResultCollection.init true)
       (ResultCollection.state_dict sample_collection) sample_metrics)
    "validation_step.acc" []
  = ResultCollection.compute_at sample_collection "validation_step.acc" [].
Proof.
  assert (NoDup (keys (ResultCollection.items sample_collection))) as Hnd.
  { apply (bool_decide_unpack _). by vm_compute. }
  assert (resupplies_live_metrics sample_metrics sample_collection) as Hlive.
  { intros key meta node item name m Hin Hitem Hname Hm.
    unfold sample_collection in Hin. cbn [ResultCollection.items] in Hin.
    apply elem_of_cons in Hin as [Heq|Hin].
    { injection Heq as _ -> ->. discriminate Hname. }
    apply elem_of_cons in Hin as [Heq|Hin]; [|by apply elem_of_nil in Hin].
    injection Heq as _ -> ->. cbn in Hname, Hitem.
    injection Hname as <-. apply list_elem_of_singleton in Hitem as ->.
    unfold sample_metrics in Hm. rewrite lookup_singleton_eq in Hm.
    by injection Hm as <-. }
  split; [exact Hnd|]. split; [exact Hlive|].
  apply (C9_state_dict_round_trip sample_collection (ResultCollection.init true)
           sample_metrics "validation_step.acc" [] Hnd Hlive).
  apply (bool_decide_unpack _). by vm_compute.
Defined.

(** C8 fails on the code: after a metric object whose [compute()]
    returns a tensor of two elements was logged, the first
    [get_epoch_metrics()] returns the views (and caches the computed
    value), and the second one, with no [log] or [reset] in between,
    raises: the test [if not result_metric._computed] takes the truth
    value of the cached tensor. *)
Theorem C8_second_epoch_read_raises_on_cached_vector :
  ∃ self ms self',
    log_two_element_metric = Ok self ∧
    ResultCollection.get_epoch_metrics self = Ok (ms, self') ∧
    ResultCollection.log_metrics ms !! "per_class" = Some (Leaf (OTensor [1; 2])) ∧
    ResultCollection.get_epoch_metrics self' = Raise RuntimeError.
Proof.
  do 3 eexists. split; [by vm_compute|]. split; [by vm_compute|].
  split; by vm_compute.
Qed.

(** ** CheckpointConnector: how [restore] ends *)

Section MoreRestoreFacts.
Import CheckpointConnector.
Variable DEPRECATED : list string.

Lemma run_modify f w : modify f w = (Ok (), f w).
Proof. reflexivity. Qed.

Ltac conn_step' := conn_step; rewrite ?run_modify; cbv beta iota;
  cbn [the_trainer resume_checkpoint_path loaded_checkpoint fs trace].

Lemma for_range_frame (body : nat → conn ()) n :
  (∀ i w, ∃ w', body i w = (Ok (), w') ∧ only_trace w w') →
  ∀ i w, ∃ w', for_range i n body w = (Ok (), w') ∧ only_trace w w'.
Proof.
  intros Hbody. induction n as [|n IH]; intros i w; cbn [for_range].
  - exists w. split; [done|]. apply only_trace_refl.
  - rewrite conn_bind_unfold. destruct (Hbody i w) as (w1 & -> & H1).
    destruct (IH (S i) w1) as (w2 & -> & H2).
    exists w2. split; [done|]. by eapply only_trace_trans.
Qed.

(** Without a conflict with [max_epochs] and with a gradient
    accumulation other than 0, [restore_progress] ends normally. *)
Lemma restore_progress_ok w e g :
  epoch (loaded_checkpoint w) = Some e →
  global_step (loaded_checkpoint w) = Some g →
  (∀ m, max_epochs (the_trainer w) = Some m → (e ≤ m)%Z) →
  accumulate_grad_batches (the_trainer w) ≠ Some 0%Z →
  ∃ w', restore_progress w = (Ok (), w') ∧
    the_trainer w' = set_progress g e (the_trainer w) ∧
    loaded_checkpoint w' = loaded_checkpoint w ∧
    fs w' = fs w ∧
    resume_checkpoint_path w' = resume_checkpoint_path w.
Proof.
  intros He Hg Hmax Hacc. unfold restore_progress. conn_step.
  rewrite (is_empty_false_epoch _ _ He), Hg. conn_step.
  conn_step'. rewrite He. do 3 conn_step'.
  cbn [max_epochs set_current_epoch set_global_step set_progress current_epoch
       accumulate_grad_batches num_training_batches trainer_global_step].
  assert (match max_epochs (the_trainer w) with
          | Some m => bool_decide (e > m)%Z
          | None => false
          end = false) as ->.
  { destruct (max_epochs (the_trainer w)) as [m|]; [|done].
    apply bool_decide_eq_false_2. specialize (Hmax m eq_refl). lia. }
  destruct (decide _) as [Hz|_].
  { destruct (accumulate_grad_batches (the_trainer w)) as [z|]; cbn in Hz; [|done].
    by subst z. }
  match goal with |- context [when ?b (emit ?e) ?w0] =>
    destruct (run_when_emit b e w0) as (w' & -> & (Ht & Hp & Hc & Hf)) end.
  exists w'. cbn in Ht, Hp, Hc, Hf. by rewrite Ht, Hp, Hc, Hf.
Qed.

Lemma has_key_other key c :
  key ≠ "epoch" → key ≠ "global_step" →
  has_key key c = bool_decide (is_Some (others c !! key)).
Proof. intros H1 H2. unfold has_key. by rewrite !decide_False by done. Qed.

Lemma restore_optimizers_frame w :
  has_key "optimizer_states" (loaded_checkpoint w) = true →
  ∃ w', restore_optimizers w = (Ok (), w') ∧ only_trace w w'.
Proof.
  rewrite has_key_other by done. intros [p Hp]%bool_decide_eq_true_1.
  unfold restore_optimizers. conn_step.
  destruct (_ || _); [rewrite run_ret; eauto using only_trace_refl|].
  rewrite Hp. apply for_range_frame. intros i w0.
  rewrite conn_bind_unfold, run_emit. cbv beta iota.
  match goal with |- context [when ?b (emit ?e) ?w1] =>
    destruct (run_when_emit b e w1) as (w' & -> & (Ht & Hq & Hc & Hf)) end.
  exists w'. split; [done|]. by repeat split.
Qed.

Lemma restore_lr_schedulers_frame w :
  has_key "lr_schedulers" (loaded_checkpoint w) = true →
  ∃ w', restore_lr_schedulers w = (Ok (), w') ∧ only_trace w w'.
Proof.
  rewrite has_key_other by done. intros [p Hp]%bool_decide_eq_true_1.
  unfold restore_lr_schedulers. conn_step.
  destruct (_ || _); [rewrite run_ret; eauto using only_trace_refl|].
  rewrite Hp. apply for_range_frame. intros i w0.
  rewrite run_emit. eexists. split; [done|]. by repeat split.
Qed.

Lemma restore_optimizers_and_schedulers_frame w :
  has_key "optimizer_states" (loaded_checkpoint w) = true →
  has_key "lr_schedulers" (loaded_checkpoint w) = true →
  ∃ w', restore_optimizers_and_schedulers w = (Ok (), w') ∧ only_trace w w'.
Proof.
  intros Ho Hl. unfold restore_optimizers_and_schedulers. conn_step.
  destruct (_ || _); [rewrite run_ret; eauto using only_trace_refl|].
  rewrite Ho, Hl. cbn [negb orb]. rewrite conn_bind_unfold.
  destruct (restore_optimizers_frame w Ho) as (w1 & -> & H1).
  destruct (restore_lr_schedulers_frame w1) as (w2 & -> & H2).
  { destruct H1 as (_ & _ & -> & _). done. }
  exists w2. split; [done|]. by eapply only_trace_trans.
Qed.

Lemma restore_optimizers_and_schedulers_missing w :
  plugin_restores_optimizers (the_trainer w) = false →
  is_empty (loaded_checkpoint w) = false →
  has_key "optimizer_states" (loaded_checkpoint w) = false ∨
    has_key "lr_schedulers" (loaded_checkpoint w) = false →
  restore_optimizers_and_schedulers w = (Raise KeyError, w).
Proof.
  intros Hp He Hmiss. unfold restore_optimizers_and_schedulers. conn_step.
  rewrite Hp, He. cbn [orb].
  destruct Hmiss as [-> | ->]; cbn [negb orb]; [done|].
  by rewrite orb_true_r.
Qed.

Lemma resume_end_clears w :
  ∃ w', resume_end w = (Ok (), w') ∧
    the_trainer w' = the_trainer w ∧ fs w' = fs w ∧
    loaded_checkpoint w' = empty_checkpoint ∧ resume_checkpoint_path w' = None ∧
    trace w' =
      trace w ++
      [rank_zero_info ("Restored all states from the checkpoint file at " +:+
                       default "None" (resume_checkpoint_path w))] ++
      (if on_gpu (the_trainer w) then [cuda_empty_cache] else []) ++
      [barrier "CheckpointConnector.resume_end"].
Proof.
  unfold resume_end. do 4 conn_step.
  destruct (on_gpu (the_trainer w)).
  - rewrite conn_bind_unfold, run_when_true, run_emit. cbv beta iota.
    rewrite run_emit. eexists. split; [reflexivity|]. cbn.
    repeat split. by rewrite <-!app_assoc.
  - rewrite conn_bind_unfold, run_when_false. cbv beta iota.
    rewrite run_emit. eexists. split; [reflexivity|]. cbn.
    repeat split. by rewrite <-!app_assoc.
Qed.

Lemma hpc_ckpt_path_nonempty folder n : hpc_ckpt_path folder n ≠ EmptyString.
Proof. unfold hpc_ckpt_path. by destruct folder. Qed.

Lemma hpc_resume_path_some w n :
  max_ckpt_in_folder (fs w) (weights_save_path (the_trainer w)) "hpc_ckpt_" = Ok (Some n) →
  hpc_resume_path w = (Ok (Some (hpc_ckpt_path (weights_save_path (the_trainer w)) n)), w).
Proof.
  intros H. unfold hpc_resume_path. do 2 conn_step. rewrite H. by cbv beta iota.
Qed.

(** [resume_start] with a path to read, step by step. [hpc] is the
    outcome of [hpc_resume_path]. *)
Lemma resume_start_from w hpc path :
  hpc_resume_path w = (Ok hpc, w) →
  match hpc with
  | Some p => if decide (p = EmptyString) then resume_checkpoint_path w else Some p
  | None => resume_checkpoint_path w
  end = Some path →
  path ≠ EmptyString →
  resume_start w =
    let cleared :=
      trace w ++ (if on_gpu (the_trainer w) then [cuda_empty_cache] else []) in
    let announced :=
      cleared ++ [rank_zero_info ("Restoring states from the checkpoint file at " +:+ path)] in
    if negb (fs_exists (fs w) path)
    then (Raise FileNotFoundError,
          mk_world (the_trainer w) (Some path) (loaded_checkpoint w) (fs w) cleared)
    else match files (fs w) !! path with
         | Some c => (Ok (), mk_world (the_trainer w) (Some path) c (fs w) announced)
         | None => (Raise IsADirectoryError,
                    mk_world (the_trainer w) (Some path) (loaded_checkpoint w) (fs w)
                      announced)
         end.
Proof.
  intros Hhpc Hpath Hne. unfold resume_start.
  rewrite conn_bind_unfold, Hhpc. cbv beta iota. conn_step.
  rewrite Hpath. conn_step.
  destruct (decide (path = EmptyString)) as [|_]; [done|].
  cbv zeta.
  destruct (on_gpu (the_trainer w)).
  - rewrite conn_bind_unfold, run_when_true, run_emit. cbv beta iota.
    cbn [the_trainer resume_checkpoint_path loaded_checkpoint fs trace].
    destruct (fs_exists (fs w) path); cbn [negb]; [|done].
    conn_step. by destruct (files (fs w) !! path).
  - rewrite conn_bind_unfold, run_when_false. cbv beta iota. rewrite app_nil_r.
    destruct (fs_exists (fs w) path); cbn [negb]; [|done].
    conn_step. by destruct (files (fs w) !! path).
Qed.

(** [restore] up to the restore of the callbacks, and up to the restore
    of the training state, for a checkpoint that is read from [path]. *)
Lemma restore_reaches_callbacks path w c :
  path ≠ EmptyString →
  max_ckpt_in_folder (fs w) (weights_save_path (the_trainer w)) "hpc_ckpt_" = Ok None →
  files (fs w) !! path = Some c →
  plugin_restores_model (the_trainer w) = true ∨ has_key "state_dict" c = true →
  ∃ w3,
    restore DEPRECATED path w =
      (restore_callbacks DEPRECATED ≫= λ _, restore_training_state ≫= λ _, resume_end) w3 ∧
    the_trainer w3 = the_trainer w ∧ fs w3 = fs w ∧
    loaded_checkpoint w3 = c ∧ resume_checkpoint_path w3 = Some path.
Proof.
  intros Hne Hhpc Hfile Hsd. unfold restore. conn_step.
  rewrite conn_bind_unfold.
  rewrite (resume_start_from _ None path); [|by apply hpc_resume_path_none|done..].
  cbv zeta. cbn [the_trainer resume_checkpoint_path loaded_checkpoint fs trace].
  assert (fs_exists (fs w) path = true) as ->.
  { unfold fs_exists. rewrite (bool_decide_eq_true_2 (is_Some (files _ !! _)));
      [apply orb_true_r | eauto]. }
  cbn [negb]. rewrite Hfile.
  rewrite conn_bind_unfold.
  match goal with |- context [restore_datamodule ?w1] =>
    destruct (restore_datamodule_frame w1) as (w2 & -> & Ht2 & Hp2 & Hc2 & Hfs2) end.
  cbn [the_trainer resume_checkpoint_path loaded_checkpoint fs trace] in *.
  rewrite conn_bind_unfold.
  destruct (restore_model_frame w2) as (w3 & -> & Ht3 & Hp3 & Hc3 & Hfs3).
  { by rewrite Hfs2, Ht2. }
  { by rewrite Ht2, Hc2. }
  exists w3. split; [done|]. repeat split; congruence.
Qed.

Lemma restore_reaches_training_state path w c :
  path ≠ EmptyString →
  max_ckpt_in_folder (fs w) (weights_save_path (the_trainer w)) "hpc_ckpt_" = Ok None →
  files (fs w) !! path = Some c →
  plugin_restores_model (the_trainer w) = true ∨ has_key "state_dict" c = true →
  existsb (λ key, has_key key c) DEPRECATED = false →
  ∃ w4,
    restore DEPRECATED path w = (restore_training_state ≫= λ _, resume_end) w4 ∧
    the_trainer w4 = the_trainer w ∧ fs w4 = fs w ∧
    loaded_checkpoint w4 = c ∧ resume_checkpoint_path w4 = Some path.
Proof.
  intros Hne Hhpc Hfile Hsd Hdep.
  destruct (restore_reaches_callbacks path w c Hne Hhpc Hfile Hsd)
    as (w3 & -> & Ht3 & Hfs3 & Hc3 & Hp3).
  rewrite conn_bind_unfold.
  destruct (restore_callbacks_frame DEPRECATED w3) as (w4 & -> & Ht4 & Hp4 & Hc4 & Hfs4).
  { by rewrite Hc3. }
  exists w4. split; [done|]. repeat split; congruence.
Qed.

(** X1: with no rotation checkpoint in the weights directory, no path
    to resume from and nothing loaded, [restore] returns normally and
    restores nothing: the trainer and the file system are as before,
    and the only collaborators called are the datamodule hook (when
    there is a datamodule), the completion message, the cache release on
    GPU and the barrier. *)
Theorem restore_without_checkpoint_restores_nothing w :
  max_ckpt_in_folder (fs w) (weights_save_path (the_trainer w)) "hpc_ckpt_" = Ok None →
  is_empty (loaded_checkpoint w) = true →
  ∃ w',
    restore DEPRECATED EmptyString w = (Ok (), w') ∧
    the_trainer w' = the_trainer w ∧ fs w' = fs w ∧
    loaded_checkpoint w' = empty_checkpoint ∧ resume_checkpoint_path w' = None ∧
    trace w' =
      trace w ++
      (if has_datamodule (the_trainer w) then [datamodule_on_load_checkpoint] else []) ++
      [rank_zero_info "Restored all states from the checkpoint file at "] ++
      (if on_gpu (the_trainer w) then [cuda_empty_cache] else []) ++
      [barrier "CheckpointConnector.resume_end"].
Proof.
  intros Hhpc Hempty. unfold restore. conn_step.
  rewrite conn_bind_unfold. unfold resume_start.
  rewrite conn_bind_unfold, hpc_resume_path_none by done. cbv beta iota.
  do 2 conn_step. rewrite decide_True by done. rewrite run_ret. cbv beta iota.
  rewrite conn_bind_unfold. unfold restore_datamodule. conn_step.
  set (dm := if has_datamodule (the_trainer w)
             then [datamodule_on_load_checkpoint] else []).
  assert (∀ w0 : world,
    when (has_datamodule (the_trainer w)) (emit datamodule_on_load_checkpoint) w0
    = (Ok (), mk_world (the_trainer w0) (resume_checkpoint_path w0)
                (loaded_checkpoint w0) (fs w0) (trace w0 ++ dm))) as ->.
  { intros w0. unfold dm. destruct (has_datamodule (the_trainer w)).
    - by rewrite run_when_true, run_emit.
    - rewrite run_when_false, app_nil_r. by destruct w0. }
  cbv beta iota. cbn [the_trainer resume_checkpoint_path loaded_checkpoint fs trace].
  rewrite conn_bind_unfold. unfold restore_model. conn_step.
  rewrite Hempty, orb_true_r, run_ret. cbv beta iota.
  rewrite conn_bind_unfold. unfold restore_callbacks. conn_step.
  rewrite Hempty, run_ret. cbv beta iota.
  rewrite conn_bind_unfold. unfold restore_training_state. conn_step.
  rewrite Hempty, run_ret. cbv beta iota.
  match goal with |- context [resume_end ?w0] =>
    destruct (resume_end_clears w0) as (w' & -> & Ht & Hf & Hc & Hp & Htr) end.
  exists w'. cbn in Ht, Hf, Htr. repeat split; try done.
  rewrite Htr. by rewrite <-!app_assoc.
Qed.

(** X2: when the path to resume from names nothing that exists (and the
    weights directory holds no rotation checkpoint), [restore] raises
    [FileNotFoundError] before anything is restored: the trainer, the
    loaded checkpoint and the file system are as before, and no
    collaborator was called apart from the cache release on GPU. *)
Theorem restore_missing_file_raises path w :
  path ≠ EmptyString →
  max_ckpt_in_folder (fs w) (weights_save_path (the_trainer w)) "hpc_ckpt_" = Ok None →
  fs_exists (fs w) path = false →
  ∃ w',
    restore DEPRECATED path w = (Raise FileNotFoundError, w') ∧
    the_trainer w' = the_trainer w ∧ fs w' = fs w ∧
    loaded_checkpoint w' = loaded_checkpoint w ∧
    trace w' = trace w ++ (if on_gpu (the_trainer w) then [cuda_empty_cache] else []).
Proof.
  intros Hne Hhpc Hex. unfold restore. conn_step.
  rewrite conn_bind_unfold.
  rewrite (resume_start_from _ None path); [|by apply hpc_resume_path_none|done..].
  cbv zeta. cbn [the_trainer resume_checkpoint_path loaded_checkpoint fs trace].
  rewrite Hex. cbn [negb]. eexists. split; [reflexivity|]. by repeat split.
Qed.

(** X3: a rotation checkpoint in the weights directory takes priority:
    when [max_ckpt_in_folder] finds the index [n] there and the file
    [hpc_ckpt_n.ckpt] holds the checkpoint [c], [resume_start] loads [c]
    and records that path, whatever path was asked for. *)
Theorem resume_start_prefers_hpc_checkpoint w n c :
  max_ckpt_in_folder (fs w) (weights_save_path (the_trainer w)) "hpc_ckpt_" = Ok (Some n) →
  files (fs w) !! hpc_ckpt_path (weights_save_path (the_trainer w)) n = Some c →
  ∃ w',
    resume_start w = (Ok (), w') ∧
    loaded_checkpoint w' = c ∧
    resume_checkpoint_path w' = Some (hpc_ckpt_path (weights_save_path (the_trainer w)) n) ∧
    the_trainer w' = the_trainer w ∧ fs w' = fs w.
Proof.
  intros Hmax Hfile.
  rewrite (resume_start_from w _ (hpc_ckpt_path (weights_save_path (the_trainer w)) n)
             (hpc_resume_path_some w n Hmax)).
  - cbv zeta.
    assert (fs_exists (fs w) (hpc_ckpt_path (weights_save_path (the_trainer w)) n) = true)
      as ->.
    { unfold fs_exists. rewrite (bool_decide_eq_true_2 (is_Some (files _ !! _)));
        [apply orb_true_r | eauto]. }
    cbn [negb]. rewrite Hfile. eexists. split; [reflexivity|]. by repeat split.
  - by rewrite decide_False by apply hpc_ckpt_path_nonempty.
  - apply hpc_ckpt_path_nonempty.
Qed.

(** X4: a checkpoint that carries a deprecated key makes [restore] raise
    [ValueError] in [restore_callbacks], before the training state is
    restored: the trainer (its loop counters included) and the file
    system are as before, and the checkpoint stays loaded. *)
Theorem restore_deprecated_schema_keeps_counters path w c :
  path ≠ EmptyString →
  max_ckpt_in_folder (fs w) (weights_save_path (the_trainer w)) "hpc_ckpt_" = Ok None →
  files (fs w) !! path = Some c →
  is_empty c = false →
  plugin_restores_model (the_trainer w) = true ∨ has_key "state_dict" c = true →
  existsb (λ key, has_key key c) DEPRECATED = true →
  ∃ w',
    restore DEPRECATED path w = (Raise ValueError, w') ∧
    the_trainer w' = the_trainer w ∧ fs w' = fs w ∧ loaded_checkpoint w' = c.
Proof.
  intros Hne Hhpc Hfile Hempty Hsd Hdep.
  destruct (restore_reaches_callbacks path w c Hne Hhpc Hfile Hsd)
    as (w3 & -> & Ht3 & Hfs3 & Hc3 & Hp3).
  rewrite conn_bind_unfold. unfold restore_callbacks. conn_step.
  rewrite Hc3, Hempty, Hdep, run_raise. by exists w3.
Qed.

(** X5: a checkpoint without [optimizer_states] or without
    [lr_schedulers] (a weights-only checkpoint) makes [restore] raise
    [KeyError], and by then the loop counters hold the checkpoint's
    values and the checkpoint is still loaded. *)
Theorem restore_weights_only_checkpoint_raises path w c e g :
  path ≠ EmptyString →
  max_ckpt_in_folder (fs w) (weights_save_path (the_trainer w)) "hpc_ckpt_" = Ok None →
  files (fs w) !! path = Some c →
  epoch c = Some e →
  global_step c = Some g →
  plugin_restores_model (the_trainer w) = true ∨ has_key "state_dict" c = true →
  existsb (λ key, has_key key c) DEPRECATED = false →
  (∀ m, max_epochs (the_trainer w) = Some m → (e ≤ m)%Z) →
  accumulate_grad_batches (the_trainer w) ≠ Some 0%Z →
  plugin_restores_optimizers (the_trainer w) = false →
  has_key "optimizer_states" c = false ∨ has_key "lr_schedulers" c = false →
  ∃ w',
    restore DEPRECATED path w = (Raise KeyError, w') ∧
    the_trainer w' = set_progress g e (the_trainer w) ∧
    loaded_checkpoint w' = c.
Proof.
  intros Hne Hhpc Hfile He Hg Hsd Hdep Hmax Hacc Hplug Hmiss.
  destruct (restore_reaches_training_state path w c Hne Hhpc Hfile Hsd Hdep)
    as (w4 & -> & Ht4 & Hfs4 & Hc4 & Hp4).
  rewrite conn_bind_unfold. unfold restore_training_state. conn_step.
  rewrite Hc4, (is_empty_false_epoch _ _ He). conn_step.
  rewrite conn_bind_unfold.
  match goal with |- context [restore_progress ?w0] =>
    destruct (restore_progress_ok w0 e g) as (w5 & -> & Ht5 & Hc5 & Hfs5 & Hp5) end;
    cbn [the_trainer resume_checkpoint_path loaded_checkpoint fs trace] in *;
    rewrite ?Hc4, ?Ht4; try done.
  rewrite restore_optimizers_and_schedulers_missing.
  - exists w5. by rewrite Ht5, Hc5, Ht4, Hc4.
  - rewrite Ht5. cbn. by rewrite Ht4.
  - rewrite Hc5, Hc4. by apply is_empty_false_epoch with e.
  - by rewrite Hc5, Hc4.
Qed.

(** X6: a checkpoint with everything in it, whose epoch does not exceed
    [max_epochs], is restored: [restore] returns normally, the loop
    counters hold the checkpoint's values, nothing else of the trainer
    and nothing of the file system changed, and the connector has let go
    of the checkpoint and of the path. *)
Theorem restore_full_checkpoint path w c e g :
  path ≠ EmptyString →
  max_ckpt_in_folder (fs w) (weights_save_path (the_trainer w)) "hpc_ckpt_" = Ok None →
  files (fs w) !! path = Some c →
  epoch c = Some e →
  global_step c = Some g →
  plugin_restores_model (the_trainer w) = true ∨ has_key "state_dict" c = true →
  existsb (λ key, has_key key c) DEPRECATED = false →
  (∀ m, max_epochs (the_trainer w) = Some m → (e ≤ m)%Z) →
  accumulate_grad_batches (the_trainer w) ≠ Some 0%Z →
  has_key "optimizer_states" c = true →
  has_key "lr_schedulers" c = true →
  ∃ w',
    restore DEPRECATED path w = (Ok (), w') ∧
    the_trainer w' = set_progress g e (the_trainer w) ∧
    fs w' = fs w ∧
    loaded_checkpoint w' = empty_checkpoint ∧
    resume_checkpoint_path w' = None.
Proof.
  intros Hne Hhpc Hfile He Hg Hsd Hdep Hmax Hacc Hopt Hlr.
  destruct (restore_reaches_training_state path w c Hne Hhpc Hfile Hsd Hdep)
    as (w4 & -> & Ht4 & Hfs4 & Hc4 & Hp4).
  rewrite conn_bind_unfold. unfold restore_training_state. conn_step.
  rewrite Hc4, (is_empty_false_epoch _ _ He). conn_step.
  rewrite conn_bind_unfold.
  match goal with |- context [restore_progress ?w0] =>
    destruct (restore_progress_ok w0 e g) as (w5 & -> & Ht5 & Hc5 & Hfs5 & Hp5) end;
    cbn [the_trainer resume_checkpoint_path loaded_checkpoint fs trace] in *;
    rewrite ?Hc4, ?Ht4; try done.
  destruct (restore_optimizers_and_schedulers_frame w5)
    as (w6 & -> & Ht6 & Hp6 & Hc6 & Hfs6); [by rewrite Hc5, Hc4..|].
  destruct (resume_end_clears w6) as (w' & -> & Ht & Hf & Hc & Hp & _).
  exists w'. split; [done|]. repeat split; congruence.
Qed.

End MoreRestoreFacts.

(** ** CheckpointConnector: saving, and names without a number *)

Section MoreRotationFacts.
Import CheckpointConnector.

(** A loop that collects results raises as soon as one element does;
    when every failure is the same exception, that is the exception. *)
Lemma mapM_raise {A B} (f : A → outcome B) (e : exn) (l : list A) x :
  x ∈ l → f x = Raise e →
  (∀ y e', y ∈ l → f y = Raise e' → e' = e) →
  mapM f l = Raise e.
Proof.
  intros Hx Hfx Hall. induction l as [|y l IH]; [by apply elem_of_nil in Hx|].
  cbn [mapM]. destruct (f y) as [b|e'] eqn:Hfy.
  - cbn. apply elem_of_cons in Hx as [Hxy|Hx]; [subst y; congruence|].
    rewrite IH; [done..|]. intros z e'' Hz. apply Hall, elem_of_cons. by right.
  - cbn. f_equal. apply (Hall y e'); [apply elem_of_cons; by left|done].
Qed.

(** [int] of the empty string: what [max_ckpt_in_folder] runs into when a
    name has no digit after the last occurrence of the key. *)
Lemma max_ckpt_in_folder_int_of_empty f folder name_key listing n :
  name_key ≠ EmptyString →
  dirs f !! folder = Some listing →
  n ∈ listing →
  contains name_key (basename n) = true →
  keep_digits (List.last (split_go name_key 0 (basename n)) EmptyString) = EmptyString →
  max_ckpt_in_folder f folder name_key = Raise ValueError.
Proof.
  intros Hkey Hdir Hn Hin Hdigits.
  rewrite (max_ckpt_in_folder_listing _ _ _ _ Hdir).
  assert (basename n ∈ filter (λ x, contains name_key x = true) (map basename listing))
    as Hmem.
  { apply list_elem_of_filter. split; [done|]. by apply (list_elem_of_fmap_2 basename). }
  destruct (decide _) as [Hlen|_].
  { apply length_zero_iff_nil in Hlen. rewrite Hlen in Hmem.
    by apply elem_of_nil in Hmem. }
  assert (∀ x, split_last name_key x = Ok (List.last (split_go name_key 0 x) EmptyString))
    as Hsplit.
  { intros x. unfold split_last, split. by destruct name_key. }
  rewrite (mapM_raise _ ValueError _ (basename n) Hmem); [done| |].
  - rewrite Hsplit. cbn. by rewrite Hdigits.
  - intros y e' _. rewrite Hsplit. cbn. unfold int_of_digits.
    destruct (keep_digits (List.last (split_go name_key 0 y) _)); [congruence|done].
Qed.

(** X7: a directory entry whose name contains the key but has no digit
    after its last occurrence (such as [ckpt_best.ckpt]) makes
    [max_ckpt_in_folder] raise [ValueError]: [int('')]. *)
Theorem max_ckpt_in_folder_name_without_number f folder name_key listing n :
  name_key ≠ EmptyString →
  dirs f !! folder = Some listing →
  n ∈ listing →
  contains name_key (basename n) = true →
  keep_digits (List.last (split_go name_key 0 (basename n)) EmptyString) = EmptyString →
  max_ckpt_in_folder f folder name_key = Raise ValueError.
Proof. apply max_ckpt_in_folder_int_of_empty. Qed.

(** X8: with an entry in the folder whose name contains [ckpt_] but has
    no digit after its last occurrence, [hpc_save] fails with
    [ValueError] once the folder is made and the logger saved: no
    checkpoint is dumped and no file is written; and
    [get_max_ckpt_path_from_folder] fails in the same way. *)
Theorem hpc_save_name_without_number (NAME KEY TYPE folder : string) w n :
  n ∈ default [] (dirs (fs w) !! folder) →
  contains default_name_key (basename n) = true →
  keep_digits (List.last (split_go default_name_key 0 (basename n)) EmptyString)
    = EmptyString →
  hpc_save NAME KEY TYPE folder w =
    (Raise ValueError,
     mk_world (the_trainer w) (resume_checkpoint_path w) (loaded_checkpoint w)
       (fs_makedirs folder (fs w)) (trace w ++ [logger_save])) ∧
  get_max_ckpt_path_from_folder (fs w) folder = Raise ValueError.
Proof.
  intros Hn Hin Hdigits.
  destruct (dirs (fs w) !! folder) as [listing|] eqn:Hdir;
    [|by apply elem_of_nil in Hn].
  cbn [default] in Hn. split.
  - unfold hpc_save. do 4 conn_step.
    rewrite (max_ckpt_in_folder_int_of_empty _ folder _ listing n);
      [done|done| |done..].
    rewrite (proj1 (makedirs_listing folder (fs w))), Hdir. done.
  - unfold get_max_ckpt_path_from_folder.
    by rewrite (max_ckpt_in_folder_int_of_empty _ folder _ listing n).
Qed.

(** What [dump_checkpoint] returns: it only calls collaborators, and the
    dictionary has the model's [state_dict] and, unless [weights_only],
    one saved state per optimizer and per scheduler of the trainer. *)
Lemma dump_checkpoint_contents (NAME KEY TYPE : string) (weights_only : bool) w :
  ∃ c w',
    dump_checkpoint NAME KEY TYPE weights_only w = (Ok c, w') ∧
    only_trace w w' ∧
    has_key "state_dict" c = true ∧
    (Forall (λ k, k ≠ "optimizer_states" ∧ k ≠ "lr_schedulers") [NAME; KEY; TYPE] →
     others c !! "optimizer_states" =
       (if weights_only then None else Some (Items (optimizers (the_trainer w)))) ∧
     others c !! "lr_schedulers" =
       (if weights_only then None else Some (Items (lr_schedulers (the_trainer w))))) ∧
    (has_hparams (the_trainer w) = true → is_Some (others c !! KEY)).
Proof.
  unfold dump_checkpoint. unfold mbind, conn_bind, get. cbn.
  assert (∀ c0 : checkpoint,
    has_key "state_dict" c0 = true →
    ∀ o l, others c0 !! "optimizer_states" = o → others c0 !! "lr_schedulers" = l →
    let c :=
      if has_hparams (the_trainer w)
      then
        if hparams_is_container (the_trainer w)
        then set_other TYPE Blob
               (set_other KEY Blob
                  (if has_hparams_name (the_trainer w)
                   then set_other NAME Blob c0 else c0))
        else set_other KEY Blob
               (if has_hparams_name (the_trainer w)
                then set_other NAME Blob c0 else c0)
      else c0 in
    has_key "state_dict" c = true ∧
    (Forall (λ k, k ≠ "optimizer_states" ∧ k ≠ "lr_schedulers") [NAME; KEY; TYPE] →
     others c !! "optimizer_states" = o ∧ others c !! "lr_schedulers" = l) ∧
    (has_hparams (the_trainer w) = true → is_Some (others c !! KEY))) as Hhp.
  { intros c0 Hsd o l Ho Hl.
    assert (∀ k c1, has_key "state_dict" c1 = true →
                    has_key "state_dict" (set_other k Blob c1) = true) as Hset.
    { intros k c1. rewrite !has_key_other by done. cbn.
      intros [x Hx]%bool_decide_eq_true_1. apply bool_decide_eq_true_2.
      destruct (decide (k = "state_dict")) as [->|];
        [rewrite lookup_insert_eq|rewrite lookup_insert_ne by done]; eauto. }
    cbv zeta. split; [|split].
    - destruct (has_hparams (the_trainer w)), (hparams_is_container (the_trainer w)),
        (has_hparams_name (the_trainer w)); auto using Hset.
    - intros Hnames.
      assert (NAME ≠ "optimizer_states" ∧ NAME ≠ "lr_schedulers" ∧
              KEY ≠ "optimizer_states" ∧ KEY ≠ "lr_schedulers" ∧
              TYPE ≠ "optimizer_states" ∧ TYPE ≠ "lr_schedulers")
        as (?&?&?&?&?&?).
      { inversion Hnames as [|? ? [? ?] Hrest]; subst.
        inversion Hrest as [|? ? [? ?] Hrest']; subst.
        inversion Hrest' as [|? ? [? ?] _]; subst. done. }
      destruct (has_hparams (the_trainer w)), (hparams_is_container (the_trainer w)),
        (has_hparams_name (the_trainer w));
        cbn; rewrite ?lookup_insert_ne by done; done.
    - intros ->. destruct (hparams_is_container (the_trainer w)); cbn.
      + destruct (decide (TYPE = KEY)) as [->|];
          [rewrite lookup_insert_eq|rewrite lookup_insert_ne, lookup_insert_eq by done];
          eauto.
      + rewrite lookup_insert_eq. eauto. }
  destruct weights_only; cbn [negb].
  - unfold mbind, conn_bind, emit, modify, when, mret, conn_ret. cbn.
    destruct (has_datamodule (the_trainer w)); cbn;
      (do 2 eexists; split; [reflexivity|]; split; [by repeat split|];
       apply Hhp; done).
  - unfold emit at 2, modify at 1. cbn.
    match goal with |- context [for_range 0 ?n ?f ?w0] =>
      destruct (for_range_emit accelerator_optimizer_state n 0 w0) as [evs1 Hevs1];
      change (for_range 0 n f w0)
        with (for_range 0 n (λ i, emit (accelerator_optimizer_state i)) w0);
      rewrite Hevs1 end.
    cbn.
    match goal with |- context [for_range 0 ?n ?f ?w0] =>
      destruct (for_range_emit scheduler_state_dict n 0 w0) as [evs2 Hevs2];
      change (for_range 0 n f w0)
        with (for_range 0 n (λ i, emit (scheduler_state_dict i)) w0);
      rewrite Hevs2 end.
    unfold mbind, conn_bind, emit, modify, when, mret, conn_ret. cbn.
    destruct (has_datamodule (the_trainer w)); cbn;
      (do 2 eexists; split; [reflexivity|]; split; [by repeat split|];
       apply Hhp; done).
Qed.

(** A loop whose every turn calls a collaborator first, and otherwise
    only extends the trace, has called it for every index. *)
Lemma for_range_events (body : nat → conn ()) (f : nat → event) n :
  (∀ i w, ∃ w' evs, body i w = (Ok (), w') ∧ only_trace w w' ∧
                    trace w' = trace w ++ f i :: evs) →
  ∀ i w, ∃ w' evs,
    for_range i n body w = (Ok (), w') ∧ only_trace w w' ∧
    trace w' = trace w ++ evs ∧
    ∀ j, (i ≤ j < i + n)%nat → f j ∈ evs.
Proof.
  intros Hbody. induction n as [|n IH]; intros i w; cbn [for_range].
  - exists w, []. split; [done|]. split; [apply only_trace_refl|].
    split; [by rewrite app_nil_r|]. intros j Hj. lia.
  - rewrite conn_bind_unfold. destruct (Hbody i w) as (w1 & evs1 & -> & H1 & Ht1).
    destruct (IH (S i) w1) as (w2 & evs2 & -> & H2 & Ht2 & Hin).
    exists w2, (f i :: evs1 ++ evs2). split; [done|].
    split; [by eapply only_trace_trans|]. split.
    + rewrite Ht2, Ht1. by rewrite <-app_assoc.
    + intros j Hj. destruct (decide (j = i)) as [->|Hne].
      * apply elem_of_cons. by left.
      * apply elem_of_cons. right. apply elem_of_app. right. apply Hin. lia.
Qed.

Lemma restore_optimizers_loads w k :
  plugin_restores_optimizers (the_trainer w) = false →
  is_empty (loaded_checkpoint w) = false →
  others (loaded_checkpoint w) !! "optimizer_states" = Some (Items k) →
  ∃ w' evs,
    restore_optimizers w = (Ok (), w') ∧ only_trace w w' ∧
    trace w' = trace w ++ evs ∧
    ∀ j, (j < optimizers (the_trainer w) `min` k)%nat → optimizer_load_state_dict j ∈ evs.
Proof.
  intros Hp He Hk. unfold restore_optimizers. conn_step. rewrite Hp, He, Hk. cbn [orb].
  destruct (for_range_events
              (λ i, emit (optimizer_load_state_dict i);;
                    when (bool_decide (is_Some (root_gpu (the_trainer w))))
                      (emit (optimizer_state_to_gpu i)))
              optimizer_load_state_dict (optimizers (the_trainer w) `min` k))
    with (i := 0%nat) (w := w) as (w' & evs & Hrun & Hframe & Htr & Hin).
  { intros i w0. rewrite conn_bind_unfold, run_emit. cbv beta iota.
    destruct (bool_decide _).
    - rewrite run_when_true, run_emit. eexists _, [_]. split; [reflexivity|].
      split; [by repeat split|]. cbn. by rewrite <-app_assoc.
    - rewrite run_when_false. eexists _, []. split; [reflexivity|].
      split; [by repeat split|]. done. }
  exists w', evs. split; [exact Hrun|]. split; [done|]. split; [done|].
  intros j Hj. apply Hin. lia.
Qed.

Lemma restore_lr_schedulers_loads w k :
  plugin_restores_optimizers (the_trainer w) = false →
  is_empty (loaded_checkpoint w) = false →
  others (loaded_checkpoint w) !! "lr_schedulers" = Some (Items k) →
  ∃ w' evs,
    restore_lr_schedulers w = (Ok (), w') ∧ only_trace w w' ∧
    trace w' = trace w ++ evs ∧
    ∀ j, (j < lr_schedulers (the_trainer w) `min` k)%nat → scheduler_load_state_dict j ∈ evs.
Proof.
  intros Hp He Hk. unfold restore_lr_schedulers. conn_step. rewrite Hp, He, Hk. cbn [orb].
  destruct (for_range_events (λ i, emit (scheduler_load_state_dict i))
              scheduler_load_state_dict (lr_schedulers (the_trainer w) `min` k))
    with (i := 0%nat) (w := w) as (w' & evs & Hrun & Hframe & Htr & Hin).
  { intros i w0. rewrite run_emit. eexists _, []. split; [reflexivity|].
    split; [by repeat split|]. done. }
  exists w', evs. split; [exact Hrun|]. split; [done|]. split; [done|].
  intros j Hj. apply Hin. lia.
Qed.

(** X9: what [dump_checkpoint] writes, [restore_training_state] takes
    back.  On a trainer that has not reached [max_epochs], a full dump,
    once it is the loaded checkpoint of a connector of that trainer,
    restores without error: the step counter is the dumped one (the
    current step plus one), the epoch counter is the dumped one, and
    every optimizer and every scheduler of the trainer had its state
    loaded. *)
Theorem dump_then_restore_training_state (NAME KEY TYPE : string) w :
  Forall (λ k, k ≠ "optimizer_states" ∧ k ≠ "lr_schedulers") [NAME; KEY; TYPE] →
  plugin_restores_optimizers (the_trainer w) = false →
  accumulate_grad_batches (the_trainer w) ≠ Some 0%Z →
  (∀ m, max_epochs (the_trainer w) = Some m → (current_epoch (the_trainer w) < m)%Z) →
  ∃ c w1,
    dump_checkpoint NAME KEY TYPE false w = (Ok c, w1) ∧
    ∀ path files_then trace_then,
    ∃ w3,
      restore_training_state (mk_world (the_trainer w) path c files_then trace_then)
        = (Ok (), w3) ∧
      Some (trainer_global_step (the_trainer w3)) = global_step c ∧
      Some (current_epoch (the_trainer w3)) = epoch c ∧
      trainer_global_step (the_trainer w3) = (trainer_global_step (the_trainer w) + 1)%Z ∧
      (∀ i, (i < optimizers (the_trainer w))%nat →
            optimizer_load_state_dict i ∈ trace w3) ∧
      (∀ i, (i < lr_schedulers (the_trainer w))%nat →
            scheduler_load_state_dict i ∈ trace w3).
Proof.
  intros Hnames Hplug Hacc Hmax.
  destruct (dump_checkpoint_contents NAME KEY TYPE false w)
    as (c & w1 & Hdump & _ & Hsd & Hkeys & _).
  destruct (dump_checkpoint_counters NAME KEY TYPE false w)
    as (c' & w1' & Hdump' & _ & _ & Hstep & Hepoch).
  rewrite Hdump in Hdump'. injection Hdump' as <- <-.
  destruct (Hkeys Hnames) as [Hopt Hlr]. clear Hkeys.
  exists c, w1. split; [done|]. intros path files_then trace_then.
  set (w2 := mk_world (the_trainer w) path c files_then trace_then).
  assert (the_trainer w2 = the_trainer w) as Ht2 by done.
  assert (loaded_checkpoint w2 = c) as Hc by done.
  clearbody w2.
  set (e := if match max_steps (the_trainer w) with
               | Some m => negb (bool_decide (m = 0%Z)) &&
                           bool_decide (m ≤ trainer_global_step (the_trainer w))%Z
               | None => false
               end
            then current_epoch (the_trainer w)
            else (current_epoch (the_trainer w) + 1)%Z) in *.
  assert (is_empty c = false) as Hne by (by eapply is_empty_false_epoch).
  unfold restore_training_state. conn_step. rewrite Hc, Hne. conn_step.
  rewrite conn_bind_unfold.
  match goal with |- context [restore_progress ?w0] =>
    destruct (restore_progress_ok w0 e (trainer_global_step (the_trainer w) + 1))
      as (w3 & -> & Ht3 & Hc3 & Hfs3 & Hp3) end;
    cbn [the_trainer resume_checkpoint_path loaded_checkpoint fs trace] in *;
    rewrite ?Hc, ?Ht2; try done.
  { intros m Hm. specialize (Hmax m Hm). unfold e.
    destruct (max_steps (the_trainer w)) as [ms|]; [destruct (_ && _)|]; lia. }
  unfold restore_optimizers_and_schedulers. conn_step.
  rewrite Ht3, Hc3, Hc, Hne. cbn [plugin_restores_optimizers set_progress].
  rewrite Ht2, Hplug. cbn [orb].
  rewrite !has_key_other by done. rewrite Hopt, Hlr.
  rewrite !bool_decide_eq_true_2 by eauto. cbn [negb orb].
  rewrite conn_bind_unfold.
  destruct (restore_optimizers_loads w3 (optimizers (the_trainer w)))
    as (w4 & evs4 & -> & (Ht4 & Hp4 & Hc4 & Hfs4) & Htr4 & Hin4).
  { rewrite Ht3. cbn. by rewrite Ht2. }
  { by rewrite Hc3, Hc. }
  { by rewrite Hc3, Hc. }
  destruct (restore_lr_schedulers_loads w4 (lr_schedulers (the_trainer w)))
    as (w5 & evs5 & -> & (Ht5 & Hp5 & Hc5 & Hfs5) & Htr5 & Hin5).
  { rewrite Ht4, Ht3. cbn. by rewrite Ht2. }
  { by rewrite Hc4, Hc3, Hc. }
  { by rewrite Hc4, Hc3, Hc. }
  exists w5. split; [done|].
  rewrite Ht5, Ht4, Ht3. cbn [trainer_global_step current_epoch set_progress].
  rewrite Hstep, Hepoch. repeat split; try done.
  - intros i Hi. rewrite Htr5, Htr4. apply elem_of_app. left. apply elem_of_app. right.
    apply Hin4. rewrite Ht3. cbn. rewrite Ht2. lia.
  - intros i Hi. rewrite Htr5. apply elem_of_app. right.
    apply Hin5. rewrite Ht4, Ht3. cbn. rewrite Ht2. lia.
Qed.

(** X10: when the hyper-parameters are what cannot be pickled,
    [hpc_save] drops them, warns, and saves: the call returns the path,
    and the file written there is a checkpoint without the
    hyper-parameters key. *)
Theorem hpc_save_drops_unpicklable_hyper_parameters (NAME KEY TYPE folder : string)
    w max_suffix :
  unpicklable (the_trainer w) = [KEY] →
  has_hparams (the_trainer w) = true →
  KEY ≠ "epoch" → KEY ≠ "global_step" →
  max_ckpt_in_folder (fs_makedirs folder (fs w)) folder default_name_key
    = Ok max_suffix →
  let path :=
    path_join folder ("hpc_ckpt_" +:+ pretty (default 0 max_suffix + 1)%Z +:+ ".ckpt") in
  ∃ w' c,
    hpc_save NAME KEY TYPE folder w = (Ok path, w') ∧
    rank_zero_warn "warning, `hyper_parameters` dropped from checkpoint." ∈ trace w' ∧
    atomic_save path ∈ trace w' ∧
    files (fs w') !! path = Some c ∧
    has_key KEY c = false ∧
    global_step c = Some (trainer_global_step (the_trainer w) + 1)%Z.
Proof.
  intros Hpick Hhp Hk1 Hk2 Hmax path. unfold hpc_save.
  do 4 conn_step. rewrite Hmax. do 2 conn_step.
  rewrite (proj2 (makedirs_listing folder (fs w))).
  rewrite conn_bind_unfold.
  match goal with |- context [dump_checkpoint NAME KEY TYPE false ?w0] =>
    destruct (dump_checkpoint_contents NAME KEY TYPE false w0)
      as (c & w1 & Hdump & (Ht1 & Hp1 & Hc1 & Hfs1) & _ & _ & Hkey);
    destruct (dump_checkpoint_counters NAME KEY TYPE false w0)
      as (c' & w1' & Hdump' & _ & _ & Hstep & _);
    rewrite Hdump in Hdump'; injection Hdump' as <- <-;
    rewrite Hdump end.
  cbn [the_trainer resume_checkpoint_path loaded_checkpoint fs trace] in *.
  specialize (Hkey Hhp).
  assert (has_key KEY c = true) as Hhas.
  { rewrite has_key_other by done. by apply bool_decide_eq_true_2. }
  assert (has_key KEY (del_other KEY c) = false) as Hdel.
  { rewrite has_key_other by done. apply bool_decide_eq_false_2.
    cbn. rewrite lookup_delete_eq. by intros [? [=]]. }
  do 3 conn_step. rewrite Ht1, Hpick. cbn [existsb]. rewrite Hhas. cbn [orb].
  conn_step. unfold do_atomic_save. do 2 conn_step.
  rewrite ?Ht1, Hpick. cbn [existsb]. rewrite Hdel. cbn [orb].
  conn_step. rewrite run_ret.
  eexists _, (del_other KEY c). split; [reflexivity|].
  cbn [the_trainer resume_checkpoint_path loaded_checkpoint fs trace].
  split; [|split; [|split; [|split]]].
  - apply elem_of_app. left. apply elem_of_app. right. apply list_elem_of_singleton. done.
  - apply elem_of_app. right. apply list_elem_of_singleton. done.
  - unfold fs_write. cbn [files]. by rewrite lookup_insert_eq.
  - done.
  - done.
Qed.

End MoreRotationFacts.

(** ** Numbers in file names: writing and reading back *)

Lemma digits_value_acc s : ∀ a,
  digits_value a s = (a * 10 ^ Z.of_nat (String.length s) + digits_value 0 s)%Z.
Proof.
  induction s as [|c s IH]; intros a; cbn [digits_value String.length].
  - cbn. lia.
  - rewrite IH, (IH (10 * 0 + digit_value c)%Z).
    rewrite Nat2Z.inj_succ, Z.pow_succ_r by lia. lia.
Qed.

Lemma pretty_N_char_digit y :
  (y < 10)%N →
  is_digit (pretty_N_char y) = true ∧ digit_value (pretty_N_char y) = Z.of_N y.
Proof.
  intros Hy.
  assert (y = 0 ∨ y = 1 ∨ y = 2 ∨ y = 3 ∨ y = 4 ∨ y = 5 ∨ y = 6 ∨ y = 7 ∨ y = 8 ∨ y = 9)%N
    as Hcases by lia.
  repeat (destruct Hcases as [->|Hcases]; [done|]). by subst y.
Qed.

Lemma pretty_N_go_digits x : ∀ s,
  all_digits s = true →
  all_digits (pretty_N_go x s) = true ∧
  digits_value 0 (pretty_N_go x s)
  = (Z.of_N x * 10 ^ Z.of_nat (String.length s) + digits_value 0 s)%Z.
Proof.
  induction (N.lt_wf_0 x) as [x _ IH]. intros s Hs.
  assert (x = 0 ∨ 0 < x)%N as [->|Hx] by lia.
  { rewrite pretty_N_go_0. split; [done|]. lia. }
  rewrite pretty_N_go_step by done.
  destruct (pretty_N_char_digit (x `mod` 10)) as [Hd Hv].
  { by apply N.mod_lt. }
  destruct (IH (x `div` 10)%N) with (s := String (pretty_N_char (x `mod` 10)) s)
    as [Hall Hval].
  { by apply N.div_lt. }
  { cbn [all_digits]. by rewrite Hd, Hs. }
  split; [done|]. rewrite Hval. cbn [digits_value String.length].
  rewrite (digits_value_acc s (10 * 0 + _)), Hv.
  rewrite Nat2Z.inj_succ, Z.pow_succ_r by lia.
  rewrite (N.div_mod x 10) at 3 by done.
  rewrite N2Z.inj_add, N2Z.inj_mul. change (Z.of_N 10) with 10%Z. lia.
Qed.

(** [int(str(n))] is [n], and [str(n)] is a non-empty string of decimal
    digits, for an index [n] that is not negative. *)
Lemma pretty_digits (n : Z) :
  (0 ≤ n)%Z →
  all_digits (pretty n) = true ∧ pretty n ≠ EmptyString ∧ digits_value 0 (pretty n) = n.
Proof.
  intros Hn. destruct n as [|p|p]; [done| |lia].
  unfold pretty, pretty_Z, pretty, pretty_positive, pretty, pretty_N.
  rewrite decide_False by done.
  destruct (pretty_N_go_digits (N.pos p) EmptyString eq_refl) as [Hall Hval].
  cbn [String.length digits_value] in Hval. change (Z.of_nat 0) with 0%Z in Hval.
  rewrite Z.pow_0_r, Z.mul_1_r, Z.add_0_r in Hval.
  split; [done|]. split; [|done].
  intros Hempty. rewrite Hempty in Hval. cbn in Hval. lia.
Qed.

Lemma string_length_app (s1 s2 : string) :
  String.length (s1 +:+ s2) = (String.length s1 + String.length s2)%nat.
Proof.
  induction s1 as [|c s1 IH]; [done|].
  change (String c s1 +:+ s2) with (String c (s1 +:+ s2)).
  cbn [String.length]. by rewrite IH.
Qed.

Lemma strip_suffix_app suf : ∀ d, strip_suffix suf (d +:+ suf) = Some d.
Proof.
  induction d as [|c d IH].
  - change (EmptyString +:+ suf) with suf.
    destruct suf; cbn [strip_suffix]; by rewrite decide_True.
  - change (String c d +:+ suf) with (String c (d +:+ suf)). cbn [strip_suffix].
    rewrite decide_False.
    + by rewrite IH.
    + intros Heq. apply (f_equal String.length) in Heq. cbn in Heq.
      rewrite string_length_app in Heq. lia.
Qed.

Lemma hpc_ckpt_index_pretty (n : Z) :
  (0 ≤ n)%Z → hpc_ckpt_index ("hpc_ckpt_" +:+ pretty n +:+ ".ckpt") = Some n.
Proof.
  intros Hn. destruct (pretty_digits n Hn) as (Hall & Hne & Hval).
  unfold hpc_ckpt_index.
  change (strip_prefix "hpc_ckpt_" ("hpc_ckpt_" +:+ pretty n +:+ ".ckpt"))
    with (Some (pretty n +:+ ".ckpt")).
  cbn [mbind option_bind]. rewrite strip_suffix_app. cbn [mbind option_bind].
  rewrite Hall, bool_decide_eq_false_2 by done. cbn. by rewrite Hval.
Qed.

(** ** Paths *)

Lemma split_go_slash_app (a b : string) :
  contains "/" b = false →
  ∃ p ps, split_go "/" 0 (a +:+ "/" +:+ b) = p :: ps ∧ ps ≠ [] ∧ List.last ps EmptyString = b.
Proof.
  intros Hb. induction a as [|c a (p & ps & Hsplit & Hne & Hlast)].
  - exists EmptyString, [b]. split; [|done].
    change (EmptyString +:+ "/" +:+ b) with (String "/" b).
    cbn. by rewrite (split_go_not_contained _ _ Hb).
  - change (String c a +:+ "/" +:+ b) with (String c (a +:+ "/" +:+ b)).
    cbn [split_go starts_with]. rewrite andb_true_r.
    destruct (Ascii.eqb "/" c).
    + cbn. rewrite Hsplit. exists EmptyString, (p :: ps). split; [done|]. split; [done|].
      destruct ps; [done|]. exact Hlast.
    + rewrite Hsplit. by exists (String c p), ps.
Qed.

Lemma ends_with_slash_app (a : string) :
  ends_with_slash a = true → ∃ a0, a = a0 +:+ "/".
Proof.
  induction a as [|c a IH]; [done|]. cbn [ends_with_slash].
  destruct a as [|c' a'].
  - intros ->%bool_decide_eq_true_1. by exists EmptyString.
  - intros Ha. destruct (IH Ha) as [a0 ->]. by exists (String c a0).
Qed.

Lemma string_app_assoc (a b c : string) : (a +:+ b) +:+ c = a +:+ b +:+ c.
Proof.
  induction a as [|x a IH]; [done|].
  change ((String x a +:+ b) +:+ c) with (String x ((a +:+ b) +:+ c)).
  by rewrite IH.
Qed.

(** [os.path.basename(os.path.join(folder, name))] is [name], for a
    name without a slash. *)
Lemma basename_path_join (folder name : string) :
  contains "/" name = false → basename (path_join folder name) = name.
Proof.
  intros Hname. unfold path_join, basename.
  destruct (bool_decide (folder = EmptyString)) eqn:Hempty.
  - apply bool_decide_eq_true_1 in Hempty as ->. cbn [orb].
    change (EmptyString +:+ name) with name.
    by rewrite (split_go_not_contained _ _ Hname).
  - cbn [orb]. destruct (ends_with_slash folder) eqn:Hslash.
    + destruct (ends_with_slash_app _ Hslash) as [a0 ->].
      rewrite string_app_assoc.
      destruct (split_go_slash_app a0 name Hname) as (p & ps & -> & Hne & Hlast).
      destruct ps; [done|]. exact Hlast.
    + destruct (split_go_slash_app folder name Hname) as (p & ps & -> & Hne & Hlast).
      destruct ps; [done|]. exact Hlast.
Qed.

Lemma is_digit_not_slash c : is_digit c = true → Ascii.eqb "/" c = false.
Proof. intros Hc. destruct (Ascii.eqb_spec "/" c) as [<-|]; [discriminate Hc|done]. Qed.

Lemma rotation_name_no_slash d :
  all_digits d = true → contains "/" ("hpc_ckpt_" +:+ d +:+ ".ckpt") = false.
Proof.
  intros Hd.
  change ("hpc_ckpt_" +:+ d +:+ ".ckpt") with
    (String "h" (String "p" (String "c" (String "_"
      (String "c" (String "k" (String "p" (String "t" (String "_" (d +:+ ".ckpt")))))))))).
  cbn. induction d as [|c d IH]; [done|].
  cbn [all_digits] in Hd. apply andb_true_iff in Hd as [Hc Hd].
  change (String c d +:+ ".ckpt") with (String c (d +:+ ".ckpt")).
  cbn [contains starts_with]. rewrite (is_digit_not_slash _ Hc). cbn. by apply IH.
Qed.

(** The name that [hpc_save] forms for the index [n], read back by the
    steps of [max_ckpt_in_folder], is [n]. *)
Lemma hpc_ckpt_index_path_join folder (n : Z) :
  (0 ≤ n)%Z →
  hpc_ckpt_index (basename (path_join folder ("hpc_ckpt_" +:+ pretty n +:+ ".ckpt")))
  = Some n.
Proof.
  intros Hn. destruct (pretty_digits n Hn) as (Hall & _ & _).
  rewrite basename_path_join by (by apply rotation_name_no_slash).
  by apply hpc_ckpt_index_pretty.
Qed.


(** ** CheckpointConnector: saving and resuming *)

Section SaveAndResume.
Import CheckpointConnector.

(** What [hpc_save] leaves behind when nothing in the checkpoint is
    unpicklable. *)
Lemma hpc_save_result (NAME KEY TYPE folder : string) w max_suffix :
  unpicklable (the_trainer w) = [] →
  max_ckpt_in_folder (fs_makedirs folder (fs w)) folder default_name_key
    = Ok max_suffix →
  let path :=
    path_join folder ("hpc_ckpt_" +:+ pretty (default 0 max_suffix + 1)%Z +:+ ".ckpt") in
  ∃ c w',
    hpc_save NAME KEY TYPE folder w = (Ok path, w') ∧
    the_trainer w' = the_trainer w ∧
    resume_checkpoint_path w' = resume_checkpoint_path w ∧
    loaded_checkpoint w' = loaded_checkpoint w ∧
    fs w' = fs_write folder path c (fs_makedirs folder (fs w)) ∧
    global_step c = Some (trainer_global_step (the_trainer w) + 1)%Z ∧
    epoch c ≠ None.
Proof.
  intros Hpick Hmax path. unfold hpc_save.
  do 4 conn_step. rewrite Hmax. do 2 conn_step.
  rewrite (proj2 (makedirs_listing folder (fs w))).
  rewrite conn_bind_unfold.
  match goal with |- context [dump_checkpoint NAME KEY TYPE false ?w0] =>
    destruct (dump_checkpoint_contents NAME KEY TYPE false w0)
      as (c & w1 & Hdump & (Ht1 & Hp1 & Hc1 & Hfs1) & _);
    destruct (dump_checkpoint_counters NAME KEY TYPE false w0)
      as (c' & w1' & Hdump' & _ & _ & Hstep & Hepoch);
    rewrite Hdump in Hdump'; injection Hdump' as <- <-;
    rewrite Hdump end.
  cbn [the_trainer resume_checkpoint_path loaded_checkpoint fs trace] in *.
  do 3 conn_step. rewrite Ht1, Hpick. cbn [existsb].
  unfold do_atomic_save. do 2 conn_step. rewrite Hpick. cbn [existsb].
  conn_step. rewrite run_ret.
  exists c. eexists. split; [reflexivity|].
  cbn [the_trainer resume_checkpoint_path loaded_checkpoint fs trace].
  rewrite Hfs1. repeat split; try done. by rewrite Hepoch.
Qed.

Lemma fs_write_listing folder path c f names :
  dirs f !! folder = Some names →
  dirs (fs_write folder path c f) !! folder
    = Some (if bool_decide (path ∈ names) then names else names ++ [path]) ∧
  files (fs_write folder path c f) !! path = Some c.
Proof.
  intros Hdir. unfold fs_write. cbn [dirs files]. rewrite Hdir.
  split; [|by rewrite lookup_insert_eq].
  destruct (bool_decide (path ∈ names)); [done|by rewrite lookup_insert_eq].
Qed.

Lemma foldr_max_snoc (xs : list Z) (k : Z) :
  foldr Z.max 0%Z (xs ++ [k]) = Z.max (foldr Z.max 0%Z xs) (Z.max k 0).
Proof. induction xs as [|x xs IH]; cbn [foldr app]; [lia|]. rewrite IH. lia. Qed.

Lemma foldr_max_elem (xs : list Z) (k : Z) : k ∈ xs → (k ≤ foldr Z.max 0 xs)%Z.
Proof.
  induction xs as [|x xs IH]; [by intros ?%elem_of_nil|].
  intros [->|Hin]%elem_of_cons; cbn [foldr]; [lia|]. specialize (IH Hin). lia.
Qed.

(** Once the rotation checkpoint with the next index is in the listing,
    the listing still holds rotation checkpoints only, and the next
    index is one more. *)
Lemma rotation_listing_after_save folder listing :
  rotation_only listing →
  let k := next_rotation_index listing in
  let path := path_join folder ("hpc_ckpt_" +:+ pretty k +:+ ".ckpt") in
  let listing' := if bool_decide (path ∈ listing) then listing else listing ++ [path] in
  listing' = listing ++ [path] ∧
  rotation_only listing' ∧
  next_rotation_index listing' = (k + 1)%Z.
Proof.
  intros Hrot k path listing'.
  assert (0 ≤ foldr Z.max 0 (omap (λ n, hpc_ckpt_index (basename n)) listing))%Z as Hpos.
  { clear. induction (omap _ listing); cbn [foldr]; lia. }
  assert (0 ≤ k)%Z as Hk by (unfold k, next_rotation_index; lia).
  assert (hpc_ckpt_index (basename path) = Some k) as Hidx
    by (by apply hpc_ckpt_index_path_join).
  assert (path ∉ listing) as Hnew.
  { intros Hin.
    assert (k ∈ omap (λ n, hpc_ckpt_index (basename n)) listing) as Hkin.
    { apply list_elem_of_omap. by exists path. }
    apply foldr_max_elem in Hkin. unfold k, next_rotation_index in Hkin. lia. }
  unfold listing'. rewrite bool_decide_eq_false_2 by done.
  split; [done|]. split.
  - apply Forall_app. split; [done|]. apply Forall_singleton. intros _. by rewrite Hidx.
  - unfold next_rotation_index. rewrite omap_app. cbn [omap list_omap].
    rewrite Hidx. cbn [app]. rewrite foldr_max_snoc.
    fold (next_rotation_index listing). fold k. unfold k, next_rotation_index. lia.
Qed.

(** X20: two saves in a row take consecutive indices.  In a directory
    where every name that contains [ckpt_] is a rotation checkpoint,
    [hpc_save] writes index [k] (the next rotation index), the file is
    then listed in the directory, and [hpc_save] called again writes
    index [k + 1]. *)
Theorem hpc_save_twice_consecutive (NAME KEY TYPE folder : string) w :
  unpicklable (the_trainer w) = [] →
  rotation_only (default [] (dirs (fs w) !! folder)) →
  let k := next_rotation_index (default [] (dirs (fs w) !! folder)) in
  ∃ w1 w2,
    hpc_save NAME KEY TYPE folder w =
      (Ok (path_join folder ("hpc_ckpt_" +:+ pretty k +:+ ".ckpt")), w1) ∧
    path_join folder ("hpc_ckpt_" +:+ pretty k +:+ ".ckpt")
      ∈ default [] (dirs (fs w1) !! folder) ∧
    hpc_save NAME KEY TYPE folder w1 =
      (Ok (path_join folder ("hpc_ckpt_" +:+ pretty (k + 1)%Z +:+ ".ckpt")), w2).
Proof.
  intros Hpick Hrot k.
  set (listing := default [] (dirs (fs w) !! folder)) in *.
  destruct (max_ckpt_in_folder_rotation (fs_makedirs folder (fs w)) folder listing
              (proj1 (makedirs_listing folder (fs w))) Hrot)
    as (max_suffix & Hmax & Hnext).
  destruct (hpc_save_result NAME KEY TYPE folder w max_suffix Hpick Hmax)
    as (c & w1 & Hsave & Ht1 & _ & _ & Hfs1 & _).
  rewrite Hnext in Hsave, Hfs1. fold k in Hsave, Hfs1.
  destruct (rotation_listing_after_save folder listing Hrot) as (Hl & Hrot' & Hnext').
  fold k in Hl, Hrot', Hnext'.
  destruct (fs_write_listing folder
              (path_join folder ("hpc_ckpt_" +:+ pretty k +:+ ".ckpt")) c
              (fs_makedirs folder (fs w)) listing
              (proj1 (makedirs_listing folder (fs w)))) as [Hdir1 _].
  rewrite <-Hfs1 in Hdir1.
  destruct (max_ckpt_in_folder_rotation (fs_makedirs folder (fs w1)) folder _
              (proj1 (makedirs_listing folder (fs w1))))
    as (max_suffix' & Hmax' & Hnext'').
  { by rewrite Hdir1. }
  destruct (hpc_save_result NAME KEY TYPE folder w1 max_suffix')
    as (c' & w2 & Hsave' & _); [by rewrite Ht1|done|].
  rewrite Hnext'', Hdir1 in Hsave'. cbv [from_option id] in Hsave'.
  rewrite Hnext' in Hsave'.
  exists w1, w2. split; [done|]. split; [|done].
  rewrite Hdir1. cbv [from_option id]. rewrite Hl. apply elem_of_app. right.
  by apply list_elem_of_singleton.
Qed.

Lemma starts_with_app pre : ∀ s, starts_with pre s = true → ∃ r, s = pre +:+ r.
Proof.
  induction pre as [|a pre IH]; intros s; [by exists s|].
  destruct s as [|b s]; [done|]. cbn [starts_with].
  intros [Hab Hs]%andb_true_iff. apply Ascii.eqb_eq in Hab as ->.
  destruct (IH s Hs) as [r ->]. by exists r.
Qed.

Lemma contains_hpc_ckpt s :
  contains "hpc_ckpt_" s = true → contains "ckpt_" s = true.
Proof.
  induction s as [|c s IH]; [done|].
  unfold contains at 1; fold contains. intros [Hpre|Hrest]%orb_true_iff.
  - destruct (starts_with_app _ _ Hpre) as [r ->].
    change ("hpc_ckpt_" +:+ r) with
      (String "h" (String "p" (String "c" (String "_"
        (String "c" (String "k" (String "p" (String "t" (String "_" r))))))))).
    reflexivity.
  - unfold contains at 1; fold contains. rewrite (IH Hrest). apply orb_true_r.
Qed.

Lemma split_go_hpc_key r :
  contains "hpc_ckpt_" r = false →
  split_go "hpc_ckpt_" 0 ("hpc_ckpt_" +:+ r) = [EmptyString; r].
Proof.
  intros Hr.
  change ("hpc_ckpt_" +:+ r) with
    (String "h" (String "p" (String "c" (String "_"
      (String "c" (String "k" (String "p" (String "t" (String "_" r))))))))).
  cbn. by rewrite (split_go_not_contained _ _ Hr).
Qed.

(** On the name of a rotation checkpoint, the steps of
    [max_ckpt_in_folder] with the key [hpc_ckpt_] find the index. *)
Lemma hpc_ckpt_index_parse_hpc_key name n :
  hpc_ckpt_index name = Some n →
  contains "hpc_ckpt_" name = true ∧
  (split_last "hpc_ckpt_" name ≫= λ x, int_of_digits (keep_digits x)) = Ok n.
Proof.
  unfold hpc_ckpt_index. intros Hidx.
  destruct (strip_prefix "hpc_ckpt_" name) as [rest|] eqn:Hpre; [|done].
  apply strip_prefix_Some in Hpre as ->. cbn in Hidx.
  destruct (strip_suffix ".ckpt" rest) as [d|] eqn:Hsuf; [|done].
  apply strip_suffix_Some in Hsuf as ->. cbn in Hidx.
  destruct (all_digits d) eqn:Hd; [|done].
  case_bool_decide as Hne; [done|]. cbn in Hidx. injection Hidx as <-.
  assert (contains "hpc_ckpt_" (d +:+ ".ckpt") = false) as Hnot.
  { destruct (contains "hpc_ckpt_" (d +:+ ".ckpt")) eqn:Hc; [|done].
    apply contains_hpc_ckpt in Hc. by rewrite contains_digits_ckpt in Hc. }
  split; [done|].
  unfold split_last, split. rewrite (split_go_hpc_key _ Hnot).
  cbn. rewrite keep_digits_suffix by done. by destruct d.
Qed.

Lemma rotation_listing_parse_hpc_key listing :
  rotation_only listing →
  let indices := omap (λ n, hpc_ckpt_index (basename n)) listing in
  mapM (λ name, name ← split_last "hpc_ckpt_" name; int_of_digits (keep_digits name))
       (filter (λ x, contains "hpc_ckpt_" x = true) (map basename listing))
  = Ok indices ∧
  length (filter (λ x, contains "hpc_ckpt_" x = true) (map basename listing))
  = length indices.
Proof.
  intros H. induction H as [|n l Hn Hl IH]; [done|].
  destruct IH as (IH1 & IH2). cbn [map omap list_omap].
  destruct (hpc_ckpt_index (basename n)) as [v|] eqn:Hidx.
  - destruct (hpc_ckpt_index_parse_hpc_key _ _ Hidx) as (Hin & Hparse).
    rewrite filter_cons_True by done.
    assert (∀ (f : string → outcome Z) x xs,
              mapM f (x :: xs) = f x ≫= λ y, mapM f xs ≫= λ k, Ok (y :: k))
      as Hcons by reflexivity.
    rewrite Hcons, Hparse, IH1.
    split; [done|]. cbn [length]. by rewrite IH2.
  - destruct (contains "hpc_ckpt_" (basename n)) eqn:Hin.
    + apply contains_hpc_ckpt in Hin. destruct (Hn Hin) as [? [=]].
    + rewrite filter_cons_False by (by rewrite Hin). done.
Qed.

Lemma max_ckpt_in_folder_rotation_hpc_key f folder listing :
  dirs f !! folder = Some listing →
  rotation_only listing →
  omap (λ n, hpc_ckpt_index (basename n)) listing ≠ [] →
  max_ckpt_in_folder f folder "hpc_ckpt_"
  = Ok (Some (next_rotation_index listing - 1)%Z).
Proof.
  intros Hdir Hrot Hsome. rewrite (max_ckpt_in_folder_listing _ _ _ _ Hdir).
  destruct (rotation_listing_parse_hpc_key listing Hrot) as (Hparse & Hlen).
  destruct (rotation_listing_parse listing Hrot) as (_ & _ & Hpos).
  unfold next_rotation_index.
  set (fl := filter _ (map basename listing)) in *.
  set (indices := omap _ listing) in *.
  destruct (decide (length fl = 0%nat)) as [Hz|Hnz].
  { destruct indices; [done|]. cbn in Hlen. lia. }
  rewrite Hparse. destruct indices as [|v vs]; [done|].
  cbn [mbind outcome_bind]. rewrite max_list_foldr by (by inversion Hpos).
  do 2 f_equal. lia.
Qed.

(** X21: what [hpc_save] writes into the weights directory is what the
    next run resumes from.  In a weights directory where every name
    that contains [ckpt_] is a rotation checkpoint, after [hpc_save]
    there, [resume_start] loads the checkpoint just written (whatever
    path was asked for), and that checkpoint records the step after the
    current one. *)
Theorem hpc_save_then_resume_start (NAME KEY TYPE : string) w :
  let folder := weights_save_path (the_trainer w) in
  folder ≠ EmptyString →
  ends_with_slash folder = false →
  unpicklable (the_trainer w) = [] →
  rotation_only (default [] (dirs (fs w) !! folder)) →
  ∃ path w1 w2,
    hpc_save NAME KEY TYPE folder w = (Ok path, w1) ∧
    resume_start w1 = (Ok (), w2) ∧
    resume_checkpoint_path w2 = Some path ∧
    files (fs w1) !! path = Some (loaded_checkpoint w2) ∧
    global_step (loaded_checkpoint w2)
      = Some (trainer_global_step (the_trainer w) + 1)%Z.
Proof.
  intros folder Hne Hslash Hpick Hrot.
  set (listing := default [] (dirs (fs w) !! folder)) in *.
  set (k := next_rotation_index listing).
  destruct (max_ckpt_in_folder_rotation (fs_makedirs folder (fs w)) folder listing
              (proj1 (makedirs_listing folder (fs w))) Hrot)
    as (max_suffix & Hmax & Hnext).
  destruct (hpc_save_result NAME KEY TYPE folder w max_suffix Hpick Hmax)
    as (c & w1 & Hsave & Ht1 & _ & _ & Hfs1 & Hstep & _).
  rewrite Hnext in Hsave, Hfs1. fold k in Hsave, Hfs1.
  assert (path_join folder ("hpc_ckpt_" +:+ pretty k +:+ ".ckpt")
          = hpc_ckpt_path folder k) as Hpath.
  { unfold path_join, hpc_ckpt_path. rewrite Hslash, bool_decide_eq_false_2 by done.
    reflexivity. }
  destruct (rotation_listing_after_save folder listing Hrot) as (Hl & Hrot' & Hnext').
  fold k in Hl, Hrot', Hnext'.
  destruct (fs_write_listing folder
              (path_join folder ("hpc_ckpt_" +:+ pretty k +:+ ".ckpt")) c
              (fs_makedirs folder (fs w)) listing
              (proj1 (makedirs_listing folder (fs w)))) as [Hdir1 Hfile1].
  rewrite <-Hfs1 in Hdir1, Hfile1.
  assert (max_ckpt_in_folder (fs w1) (weights_save_path (the_trainer w1)) "hpc_ckpt_"
          = Ok (Some k)) as Hhpc.
  { rewrite Ht1. fold folder.
    rewrite (max_ckpt_in_folder_rotation_hpc_key _ _ _ Hdir1 Hrot').
    - rewrite Hnext'. do 2 f_equal. lia.
    - rewrite Hl, omap_app. cbn [omap list_omap].
      rewrite hpc_ckpt_index_path_join.
      + by destruct (omap _ listing).
      + unfold k, next_rotation_index.
        assert (0 ≤ foldr Z.max 0 (omap (λ n, hpc_ckpt_index (basename n)) listing))%Z;
          [|lia].
        clear. induction (omap _ listing); cbn [foldr]; lia. }
  exists (path_join folder ("hpc_ckpt_" +:+ pretty k +:+ ".ckpt")), w1.
  rewrite (resume_start_from w1 _ (hpc_ckpt_path folder k)
             (hpc_resume_path_some w1 k Hhpc)).
  - cbv zeta. rewrite Hpath in Hfile1, Hsave |- *.
    assert (fs_exists (fs w1) (hpc_ckpt_path folder k) = true) as ->.
    { unfold fs_exists. rewrite (bool_decide_eq_true_2 (is_Some (files _ !! _)));
        [apply orb_true_r | eauto]. }
    cbn [negb]. rewrite Hfile1. eexists. split; [exact Hsave|].
    split; [reflexivity|]. split; [reflexivity|]. split; [reflexivity|]. exact Hstep.
  - rewrite Ht1. fold folder. by rewrite decide_False by apply hpc_ckpt_path_nonempty.
  - apply hpc_ckpt_path_nonempty.
Qed.

End SaveAndResume.

(** ** ResultCollection: the views *)

(** A walk with a function that hands every element back as it is
    rebuilds the collection it walked over. *)
Lemma traverse_unchanged {S A B} (f : S → A → outcome (S * B)) (g : B → A) :
  (∀ s a s' b, f s a = Ok (s', b) → g b = a) →
  ∀ t s s' u, traverse f s t = Ok (s', u) → tree_map g u = t.
Proof.
  intros Hf t.
  induction t as [a|kvs IH|xs IH] using tree_nested_ind; intros s s' u Hrun.
  - cbn in Hrun. apply bind_Ok in Hrun as ([s1 b] & Hfa & Hrun).
    cbn in Hrun. simplify_eq. cbn. f_equal. by eapply Hf.
  - cbn [traverse] in Hrun. apply bind_Ok in Hrun as ([s1 kvs'] & Hgo & Hrun).
    cbn in Hrun. simplify_eq. cbn. f_equal.
    revert s s' kvs' Hgo.
    induction IH as [|[k v] kvs Hkv Hkvs IHkvs]; intros s s' kvs' Hgo.
    { cbn in Hgo. by simplify_eq. }
    apply bind_Ok in Hgo as ([s1 v'] & Hv & Hgo).
    apply bind_Ok in Hgo as ([s2 rest'] & Hrest & Hgo).
    cbn in Hgo. simplify_eq. cbn in *.
    by rewrite (Hkv _ _ _ Hv), (IHkvs _ _ _ Hrest).
  - cbn [traverse] in Hrun. apply bind_Ok in Hrun as ([s1 xs'] & Hgo & Hrun).
    cbn in Hrun. simplify_eq. cbn. f_equal.
    revert s s' xs' Hgo.
    induction IH as [|x xs Hx Hxs IHxs]; intros s s' xs' Hgo.
    { cbn in Hgo. by simplify_eq. }
    apply bind_Ok in Hgo as ([s1 x'] & Hv & Hgo).
    apply bind_Ok in Hgo as ([s2 rest'] & Hrest & Hgo).
    cbn in Hgo. simplify_eq. cbn in *.
    by rewrite (Hx _ _ _ Hv), (IHxs _ _ _ Hrest).
Qed.

Section ViewFacts.
Context {M : Type} `{!TorchMetric M}.
Import ResultCollection.

Lemma view_value_step_unchanged (e e' : entry M) v :
  view_value true e = Ok (e', v) → e' = e.
Proof.
  destruct e as [meta node|b| |z]; cbn; try (by intros [= <- <-]).
  intros ([s seen] & Hrun & Hret)%bind_Ok. cbn in Hret. simplify_eq.
  f_equal. eapply traverse_unchanged; [|exact Hrun].
  intros [] a [] [a' r] Hfa. apply bind_Ok in Hfa as ([a'' r'] & Hfa & Hret).
  cbn in Hret. simplify_eq. cbn. unfold _get_forward_cache in Hfa.
  destruct (Metadata.on_step meta); [|by simplify_eq].
  destruct (ResultMetric._forward_cache a); by simplify_eq.
Qed.

Lemma get_row_value (self : t M) on_step key (e e' : entry M) r :
  get_row self on_step key e = Ok (e', r) →
  ∃ v, view_value on_step e = Ok (e', v).
Proof.
  unfold get_row. intros ([e1 v] & Hview & Hrow)%bind_Ok. exists v.
  destruct v as [v|]; [|by simplify_eq].
  destruct (is_empty (Some v)); [by simplify_eq|].
  apply bind_Ok in Hrow as ([[[[? ?] ?] ?] ?] & _ & Hrow). by simplify_eq.
Qed.

Lemma get_metrics_loop_step_unchanged (self : t M) todo : ∀ ms0 d ms,
  get_metrics_loop self true todo ms0 = Ok (d, ms) → d = todo.
Proof.
  induction todo as [|[key e] todo IH]; intros ms0 d ms Hloop.
  { cbn in Hloop. by simplify_eq. }
  cbn [get_metrics_loop] in Hloop.
  apply bind_Ok in Hloop as ([e1 ms1] & Hstep & Hloop).
  apply bind_Ok in Hloop as ([rest ms2] & Hrest & Hloop).
  cbn in Hloop. simplify_eq. rewrite (IH _ _ _ Hrest). f_equal. f_equal.
  destruct (valid_item key e); [|cbn in Hstep; by simplify_eq].
  apply bind_Ok in Hstep as ([e' r] & Hrow & Hstep).
  destruct (get_row_value _ _ _ _ _ _ Hrow) as [v Hv].
  apply view_value_step_unchanged in Hv as ->.
  destruct r as [r|]; [|by simplify_eq].
  apply bind_Ok in Hstep as (ms' & _ & Hstep). by simplify_eq.
Qed.

(** X11: reading the step view never changes the collection: no metric
    is computed, no cache is filled. *)
Theorem get_batch_metrics_leaves_collection (self self' : t M) (ms : metrics) :
  get_batch_metrics self = Ok (ms, self') → self' = self.
Proof.
  unfold get_batch_metrics, get_metrics.
  intros ([d ms'] & Hloop & Hret)%bind_Ok. cbn in Hret. simplify_eq.
  rewrite (get_metrics_loop_step_unchanged _ _ _ _ _ Hloop). by destruct self.
Qed.

(** X12: outside training mode the step view routes nothing to the
    callback map. *)
Theorem get_batch_metrics_callback_empty_in_evaluation (self self' : t M) (ms : metrics) :
  training self = false →
  get_batch_metrics self = Ok (ms, self') →
  callback_metrics ms = ∅.
Proof.
  unfold get_batch_metrics, get_metrics.
  intros Htraining ([d ms'] & Hloop & Hret)%bind_Ok. cbn in Hret. simplify_eq.
  destruct (get_metrics_loop_callback _ _ _ _ _ _ Hloop) as (_ & _ & Hout).
  apply map_empty. intros x. destruct (callback_metrics ms !! x) as [v|] eqn:Hx; [|done].
  destruct (Hout x v Hx) as [Hempty|(key & e & r & _ & _ & Hrouted & _)].
  - cbn in Hempty. by rewrite lookup_empty in Hempty.
  - unfold routed_to_callback in Hrouted. rewrite Htraining, andb_false_r in Hrouted. done.
Qed.

Lemma populate_log (training on_step : bool) r ms ms' :
  populate training on_step r ms = Ok ms' →
  log_metrics ms' =
    if row_logger r then <[row_name_forked r := row_value r]> (log_metrics ms)
    else log_metrics ms.
Proof.
  unfold populate.
  destruct (row_logger r), (training || row_on_epoch r && negb on_step),
    (row_prog_bar r); cbn;
    try (intros [= <-]; reflexivity);
    (destruct (traverse _ _ _) as [[? ?]|]; cbn; [intros [= <-]; reflexivity|done]).
Qed.

(** The loop of [get_metrics], on the log map. *)
Lemma get_metrics_loop_log (self : t M) on_step todo : ∀ ms0 d ms,
  get_metrics_loop self on_step todo ms0 = Ok (d, ms) →
  (∀ x, is_Some (log_metrics ms0 !! x) → is_Some (log_metrics ms !! x)) ∧
  (∀ key e r, (key, e) ∈ todo → non_skipped self on_step key e r →
     row_logger r = true → is_Some (log_metrics ms !! row_name_forked r)) ∧
  (∀ x v, log_metrics ms !! x = Some v →
     log_metrics ms0 !! x = Some v ∨
     ∃ key e r, (key, e) ∈ todo ∧ non_skipped self on_step key e r ∧
       row_logger r = true ∧ x = row_name_forked r ∧ v = row_value r).
Proof.
  induction todo as [|[key e] todo IH]; intros ms0 d ms Hloop.
  { cbn in Hloop. simplify_eq. split; [done|]. split; [|by left].
    by intros ? ? ? ?%elem_of_nil. }
  cbn [get_metrics_loop] in Hloop.
  apply bind_Ok in Hloop as ([e1 ms1] & Hstep & Hloop).
  apply bind_Ok in Hloop as ([rest ms2] & Hrest & Hloop).
  cbn in Hloop. simplify_eq.
  destruct (IH _ _ _ Hrest) as (IHmono & IHin & IHout). clear IH Hrest.
  assert (log_metrics ms1 = log_metrics ms0 ∧
            (∀ r, non_skipped self on_step key e r → row_logger r = false) ∨
          ∃ r, non_skipped self on_step key e r ∧ row_logger r = true ∧
               log_metrics ms1 = <[row_name_forked r := row_value r]> (log_metrics ms0))
    as Hentry.
  { destruct (valid_item key e) eqn:Hvalid.
    - apply bind_Ok in Hstep as ([e' r] & Hrow & Hstep).
      destruct r as [r|].
      + apply bind_Ok in Hstep as (ms' & Hpop & Hstep). cbn in Hstep. simplify_eq.
        apply populate_log in Hpop.
        destruct (row_logger r) eqn:Hlogger.
        * right. exists r. repeat split; eauto.
        * left. split; [done|]. intros r' [_ [e'' Hrow']]. congruence.
      + cbn in Hstep. simplify_eq. left. split; [done|].
        intros r' [_ [e'' Hrow']]. congruence.
    - cbn in Hstep. simplify_eq. left. split; [done|].
      intros r' [Hvalid' _]. congruence. }
  split; [|split].
  - intros x Hx. apply IHmono.
    destruct Hentry as [[-> _]|(r & _ & _ & ->)]; [done|].
    destruct (decide (row_name_forked r = x)) as [->|];
      [rewrite lookup_insert_eq; eauto|by rewrite lookup_insert_ne].
  - intros key' e' r [Heq|Hin]%elem_of_cons Hns Hlogger.
    + simplify_eq.
      destruct Hentry as [[_ Hno]|(r' & [_ [e1' Hrow']] & _ & Hms1)].
      { rewrite (Hno r Hns) in Hlogger. done. }
      destruct Hns as [_ [e2' Hrow]].
      assert (r' = r) as -> by congruence.
      apply IHmono. rewrite Hms1, lookup_insert_eq. eauto.
    + by eapply IHin.
  - intros x v Hx. destruct (IHout x v Hx) as [Hx1|(key' & e' & r & Hin & Hr)].
    + destruct Hentry as [[Hms1 _]|(r & Hns & Hlogger & Hms1)];
        rewrite Hms1 in Hx1; [by left|].
      destruct (decide (row_name_forked r = x)) as [<-|Hne1].
      { rewrite lookup_insert_eq in Hx1. simplify_eq. right.
        exists key, e, r. split; [apply elem_of_cons; by left|]. auto. }
      rewrite lookup_insert_ne in Hx1 by done. by left.
    + right. exists key', e', r. split; [apply elem_of_cons; by right|done].
Qed.

(** X13: in a view that [get_metrics(on_step)] returns, an entry that
    was not skipped and was logged with [logger] is in the log map under
    its forked name, and the log map holds nothing else: every one of
    its items is the value of such an entry under its forked name (an
    entry logged with [logger=False] contributes nothing, and a forked
    entry is never there under its base name alone). *)
Theorem get_metrics_log_routing (self self' : t M) (on_step : bool) (ms : metrics) :
  get_metrics self on_step = Ok (ms, self') →
  (∀ key e r, (key, e) ∈ items self → non_skipped self on_step key e r →
     row_logger r = true → is_Some (log_metrics ms !! row_name_forked r)) ∧
  (∀ x v, log_metrics ms !! x = Some v →
     ∃ key e r, (key, e) ∈ items self ∧ non_skipped self on_step key e r ∧
       row_logger r = true ∧ x = row_name_forked r ∧ v = row_value r).
Proof.
  unfold get_metrics. intros ([d ms'] & Hloop & Hret)%bind_Ok.
  cbn in Hret. simplify_eq.
  destruct (get_metrics_loop_log _ _ _ _ _ _ Hloop) as (_ & Hin & Hout).
  split; [exact Hin|].
  intros x v Hx. destruct (Hout x v Hx) as [Hempty|Hfound]; [|done].
  cbn in Hempty. by rewrite lookup_empty in Hempty.
Qed.

(** After [reset()], the [ResultMetric] stored for a plain value is
    marked as reset. *)
Lemma reset_entry_plain (e e' : entry M) :
  plain_entry e →
  reset_entry None None e = Ok e' →
  plain_entry e' ∧ ∀ key, valid_item key e' = false.
Proof.
  destruct e as [meta [item| |]|b| |z]; cbn; try done; try (intros _ [= <-]; done).
  intros _. unfold reset_fn. cbn. unfold ResultMetric.reset.
  destruct (ResultMetric.acc item) as [v n|[[q|m]|]]; cbn; try done;
    intros [= <-]; (split; [done|]); intros key; cbn; by rewrite andb_false_r.
Qed.

Lemma mapM_items_plain (d d' : list (string * entry M)) :
  Forall (λ kv, plain_entry kv.2) d →
  mapM_items (reset_entry None None) d = Ok d' →
  Forall (λ kv, valid_item kv.1 kv.2 = false) d'.
Proof.
  intros Hd. revert d'. induction Hd as [|[k e] d He Hd IH]; intros d' Hrun.
  { cbn in Hrun. simplify_eq. constructor. }
  cbn in Hrun. apply bind_Ok in Hrun as (e' & Hreset & Hrun).
  apply bind_Ok in Hrun as (rest & Hrest & Hrun). cbn in Hrun. simplify_eq.
  constructor; [|by apply IH].
  cbn. by destruct (reset_entry_plain e e' He Hreset) as [_ ->].
Qed.

Lemma get_metrics_loop_nothing_valid (self : t M) on_step todo ms0 :
  Forall (λ kv, valid_item kv.1 kv.2 = false) todo →
  get_metrics_loop self on_step todo ms0 = Ok (todo, ms0).
Proof.
  induction 1 as [|[k e] todo He Htodo IH]; [done|].
  cbn [get_metrics_loop]. cbn in He. rewrite He. cbn. by rewrite IH.
Qed.

(** X14: after [reset()], on a collection of plain values (no nested
    collection was logged), both views are empty and reading them
    changes nothing, until something is logged again. *)
Theorem reset_empties_the_views (self self' : t M) (on_step : bool) :
  Forall (λ kv, plain_entry kv.2) (items self) →
  reset self None = Ok self' →
  get_metrics self' on_step = Ok (no_metrics, self') ∧
  _current_fx self' = None ∧ _on_epoch_end_reached self' = false ∧
  batch_idx self' = None.
Proof.
  intros Hplain Hreset. unfold reset, _reset in Hreset.
  apply bind_Ok in Hreset as (self1 & Hreset & Hret).
  apply bind_Ok in Hreset as (d & Hd & Hself1). cbn in Hret, Hself1. simplify_eq.
  split; [|done]. unfold get_metrics. cbn [items set_items set_current_fx
    set_on_epoch_end_reached].
  rewrite get_metrics_loop_nothing_valid by (by eapply mapM_items_plain).
  done.
Qed.

End ViewFacts.

(** ** ResultCollection: loading a state dictionary *)

Section MoreSerializationFacts.
Context {M : Type} `{!TorchMetric M}.
Import ResultCollection.

Lemma dict_set_fresh {A} k (v : A) d : k ∉ keys d → dict_set k v d = d ++ [(k, v)].
Proof.
  unfold keys. induction d as [|[k0 v0] d IH]; [done|].
  cbn. intros [Hne Hk]%not_elem_of_cons.
  rewrite decide_False by done. by rewrite IH.
Qed.

Lemma foldl_setitem_fresh (pairs : list (string * entry M)) : ∀ self,
  NoDup (keys (items self) ++ keys pairs) →
  items (foldl (λ self kv, setitem kv.1 kv.2 self) self pairs) = items self ++ pairs.
Proof.
  unfold keys. induction pairs as [|[k v] pairs IH]; intros self Hnd.
  { cbn. by rewrite app_nil_r. }
  cbn [foldl fst snd]. rewrite IH.
  - cbn [items setitem set_items]. rewrite dict_set_fresh.
    + by rewrite <-app_assoc.
    + cbn in Hnd. apply NoDup_app in Hnd as (_ & Hdisj & _).
      intros Hk. apply (Hdisj k Hk). apply elem_of_cons. by left.
  - cbn [items setitem set_items]. rewrite dict_set_fresh.
    + rewrite fmap_app. cbn. rewrite <-app_assoc. done.
    + cbn in Hnd. apply NoDup_app in Hnd as (_ & Hdisj & _).
      intros Hk. apply (Hdisj k Hk). apply elem_of_cons. by left.
Qed.

Lemma load_entry_state (d : list (string * entry M)) :
  map (λ kv, (kv.1, load_entry kv.2)) (map (λ kv, (kv.1, entry_state kv.2)) d) = d.
Proof.
  induction d as [|[k [meta node|b| |z]] d IH]; cbn; [done|..]; rewrite IH; try done.
  rewrite tree_map_compose.
  rewrite tree_map_id_on; [done|]. intros a _. apply load_result_metric_to_state_dict.
Qed.

(** X15: loaded into a collection without entries, the state of a
    collection gives back its entries, all of them, as they were and in
    their order; the fields outside the dictionary ([training], the
    current hook, the batch size and index) are the target's: the state
    dictionary does not carry them. *)
Theorem load_state_dict_into_empty_collection (self fresh : t M) (metrics : gmap string M) :
  items fresh = [] →
  NoDup (keys (items self)) →
  resupplies_live_metrics metrics self →
  load_from_state_dict fresh (state_dict self) metrics = set_items (items self) fresh.
Proof.
  intros Hfresh Hnd Hlive. unfold load_from_state_dict, state_dict.
  rewrite load_entry_state.
  assert (∀ pairs (s : t M), foldl (λ self kv, setitem kv.1 kv.2 self) s pairs
            = set_items (items (foldl (λ self kv, setitem kv.1 kv.2 self) s pairs)) s)
    as Hfields.
  { induction pairs as [|[k v] pairs IH]; intros s; [by destruct s|].
    cbn [foldl]. rewrite IH. by destruct s. }
  rewrite Hfields, foldl_setitem_fresh by (by rewrite Hfresh).
  rewrite Hfresh. cbn [app].
  destruct (decide (size metrics = 0%nat)); [done|].
  unfold set_items. cbn. f_equal.
  assert (∀ d : list (string * entry M),
            (∀ kv, kv ∈ d → kv ∈ items self) →
            map (λ kv, (kv.1, re_assign_entry metrics kv.2)) d = d) as Hsame;
    [|by apply Hsame].
  induction d as [|[k e] d IH]; intros Hd; [done|]. cbn.
  rewrite IH by (intros kv Hkv; apply Hd, elem_of_cons; by right). f_equal. f_equal.
  destruct e as [meta node|b| |z]; try done. cbn. f_equal.
  apply tree_map_id_on. intros item Hitem. apply re_assign_metric_live.
  intros name m Hname Hm. eapply (Hlive k meta node item name m); try done.
  apply Hd, elem_of_cons. by left.
Qed.

(** X16: [load_from_state_dict] adds to the target, it does not replace
    it: with no metric objects to re-assign, what the target holds under
    a key that the state dictionary does not have stays where it is. *)
Theorem load_state_dict_keeps_other_keys (self fresh : t M) (key : string) :
  key ∉ keys (items self) →
  assoc key (items (load_from_state_dict fresh (state_dict self) ∅))
  = assoc key (items fresh).
Proof.
  intros Hkey. unfold load_from_state_dict, state_dict.
  rewrite load_entry_state. rewrite decide_True by done.
  by apply assoc_foldl_setitem_other.
Qed.

End MoreSerializationFacts.

(** ** ResultMetric: the step value *)

Section MoreResultMetricFacts.
Context {M : Type} `{!TorchMetric M}.

(** X17: calling a tensor metric with mean reduction ([forward], which
    is what [log] does) accumulates the batch like [update] does, and
    keeps as the step value the mean of this batch alone, whatever was
    accumulated before. *)
Theorem forward_mean_keeps_batch_value meta (self : ResultMetric.t M) v b a n :
  Metadata.is_mean_reduction meta = true →
  ResultMetric.acc self = ResultMetric.TensorAcc (ResultMetric.VT a) n →
  b ≠ 0%Z →
  ∃ meta' self' q,
    ResultMetric.forward meta self (LTensor v) b = Ok (meta', self') ∧
    ResultMetric.acc self' =
      ResultMetric.TensorAcc (ResultMetric.VT (a + tensor_mean v * inject_Z b))
        (n + inject_Z b) ∧
    (∃ updated, ResultMetric.wrapped_update meta self (LTensor v) b = Ok updated ∧
                ResultMetric.acc self' = ResultMetric.acc updated) ∧
    ResultMetric._forward_cache self' = Some [q] ∧
    q == tensor_mean v ∧
    ResultMetric._computed self' = None.
Proof.
  intros Hmean Hacc Hb.
  destruct meta as [? ? ? ? ? ? [] ? ? ?]; try discriminate Hmean.
  destruct self as [ac fc cc]; simpl in Hacc; subst ac.
  cbn. do 3 eexists. split; [reflexivity|]. cbn.
  split; [done|]. split; [eauto|]. split; [done|]. split; [|done].
  assert (¬ inject_Z b == 0) as Hb'.
  { unfold Qeq. cbn. lia. }
  field. intros Hz. apply Hb'. rewrite <-Hz. ring.
Qed.

End MoreResultMetricFacts.

(** ** ResultCollection: [log] *)

Section MoreLogFacts.
Context {M : Type} `{!TorchMetric M}.
Import ResultCollection.

Lemma forward_unsupported_reduction meta (self : ResultMetric.t M) v b qualname :
  Metadata.reduce_fx meta = other_fn qualname →
  ResultMetric.is_tensor self = true →
  ResultMetric.forward meta self (LTensor v) b = Raise MisconfigurationException.
Proof.
  intros Hfx Htensor.
  destruct meta as [? ? ? ? ? ? fn ? ? ?]. cbn in Hfx. subst fn.
  destruct self as [[x n|x] fc cc]; [|done]. reflexivity.
Qed.

(** The collection that [log] works on when the key is new and the value
    is a single tensor or metric object. *)
Lemma log_created_new_leaf (self : t M) (a : log_args M) x :
  value a = Leaf x →
  assoc (log_key a) (items self) = None →
  log_created self a =
    setitem (log_key a)
      (EResult
         (Metadata.mk (log_hook a) (name a) (prog_bar a) (logger a) (on_step a)
            (on_epoch a) (reduce_fx a) (dataloader_idx a) (metric_attribute a) false)
         (Leaf (ResultMetric.init
                  (match x with LTensor _ => true | LMetric _ => false end))))
      self.
Proof.
  intros Hvalue Hnew. unfold log_created.
  rewrite decide_False by (rewrite Hnew; by intros [? [=]]).
  unfold to_result_metric. by rewrite Hvalue.
Qed.

(** X18: logging a tensor under a new key with a reduction other than
    mean, max or min raises [MisconfigurationException] at the [log]
    call itself: the call evaluates the metric on the batch. *)
Theorem log_unsupported_reduction_raises (self : t M) (a : log_args M) v qualname :
  on_step a && _on_epoch_end_reached self = false →
  value a = Leaf (LTensor v) →
  reduce_fx a = other_fn qualname →
  assoc (log_key a) (items self) = None →
  log self a = Raise MisconfigurationException.
Proof.
  intros Hallowed Hvalue Hfx Hnew.
  rewrite log_unfold, Hallowed.
  rewrite (log_created_new_leaf self a _ Hvalue Hnew), Hfx.
  set (meta := Metadata.mk _ _ _ _ _ _ _ _ _ _).
  set (created := setitem _ _ self).
  assert (assoc (log_key a) (items created)
          = Some (EResult meta (Leaf (ResultMetric.init true)))) as Hcreated.
  { unfold created. cbn [items setitem set_items]. rewrite assoc_dict_set.
    by rewrite decide_True. }
  assert (∀ self1 meta1 item1,
    assoc (log_key a) (items self1) = Some (EResult meta1 (Leaf item1)) →
    Metadata.reduce_fx meta1 = other_fn qualname →
    ResultMetric.is_tensor item1 = true →
    update_metrics self1 (log_key a) (value a) (log_batch_size a)
    = Raise MisconfigurationException) as Hupdate.
  { intros self1 meta1 item1 Hkey Hfx1 Htensor. unfold update_metrics, getitem.
    rewrite Hkey, Hvalue. cbn. unfold update_fn.
    by rewrite (forward_unsupported_reduction _ _ _ _ qualname). }
  destruct (should_reset_tensors created (log_hook a)).
  - rewrite _reset_tensors. cbn.
    erewrite Hupdate; [done| | |].
    + unfold created in Hcreated. cbn [items setitem set_items] in Hcreated |- *.
      rewrite assoc_map_values, Hcreated. cbn. reflexivity.
    + cbn. unfold reset_meta_of_hook.
      by destruct (ResultMetric.is_tensor _ && bool_decide _).
    + unfold reset_tensor_of_hook.
      by destruct (ResultMetric.is_tensor _ && bool_decide _).
  - cbn. by erewrite Hupdate.
Qed.

End MoreLogFacts.

(** ** ResultCollection: from [log] to the epoch view *)

Section EndToEnd.
Context {M : Type} `{!TorchMetric M}.
Import ResultCollection.

Lemma log_tensor_again mode hook nm a n fc v b :
  b ≠ 0%Z →
  ∃ fc',
    log (logged_once (M:=M) mode hook nm a n fc) (log_tensor hook nm v b)
    = Ok (logged_once mode hook nm (a + tensor_mean v * inject_Z b)
            (n + inject_Z b) fc').
Proof.
  intros Hb. rewrite log_unfold. cbn [on_step log_tensor andb].
  rewrite should_reset_tensors_created.
  assert (log_created (logged_once (M:=M) mode hook nm a n fc) (log_tensor hook nm v b)
          = logged_once mode hook nm a n fc) as ->.
  { unfold log_created, logged_once, log_key.
    cbn [items fx name dataloader_idx log_tensor assoc].
    rewrite (decide_True (P := _ = _)) by done. by rewrite decide_True by eauto. }
  assert (should_reset_tensors (logged_once (M:=M) mode hook nm a n fc)
            (log_hook (log_tensor hook nm v b)) = false) as ->.
  { unfold should_reset_tensors, logged_once, log_hook. cbn.
    by rewrite bool_decide_eq_true_2. }
  cbn [mbind outcome_bind].
  unfold update_metrics, getitem, log_key, logged_once.
  cbn [items fx name dataloader_idx log_tensor assoc log_batch_size value batch_size].
  rewrite (decide_True (P := hook +:+ "." +:+ nm = hook +:+ "." +:+ nm)) by done.
  rewrite (decide_False (P := b = 0%Z)) by done.
  cbn -[dict_set setitem].
  unfold setitem, set_items, set_current_fx. cbn [items dict_set training
    _on_epoch_end_reached _current_fx batch_size batch_idx].
  rewrite (decide_True (P := hook +:+ "." +:+ nm = hook +:+ "." +:+ nm)) by done.
  eexists. reflexivity.
Qed.

Lemma log_tensor_first mode hook nm v b :
  b ≠ 0%Z →
  ∃ fc',
    log (init (M:=M) mode) (log_tensor hook nm v b)
    = Ok (logged_once mode hook nm (0 + tensor_mean v * inject_Z b)
            (0 + inject_Z b) fc').
Proof.
  intros Hb. rewrite log_unfold. cbn [on_step log_tensor andb].
  rewrite should_reset_tensors_created.
  rewrite (log_created_new_leaf _ _ (LTensor v)) by done.
  assert (should_reset_tensors (init (M:=M) mode) (log_hook (log_tensor hook nm v b)) = true)
    as -> by done.
  rewrite _reset_tensors. cbn [mbind outcome_bind].
  unfold update_metrics, getitem, log_key, log_hook.
  cbn [items fx name dataloader_idx log_tensor assoc log_batch_size value batch_size
       setitem set_items init dict_set map fst snd prog_bar logger on_step on_epoch
       reduce_fx metric_attribute].
  rewrite (decide_True (P := hook +:+ "." +:+ nm = hook +:+ "." +:+ nm)) by done.
  rewrite (decide_False (P := b = 0%Z)) by done.
  cbn -[dict_set setitem reset_meta_of_hook reset_tensor_of_hook].
  unfold reset_meta_of_hook, reset_tensor_of_hook.
  cbn [ResultMetric.is_tensor ResultMetric.init ResultMetric.acc Metadata.fx andb].
  rewrite bool_decide_eq_true_2 by done.
  cbn -[dict_set setitem].
  unfold setitem, set_items, set_current_fx. cbn [items dict_set training
    _on_epoch_end_reached _current_fx batch_size batch_idx].
  rewrite (decide_True (P := hook +:+ "." +:+ nm = hook +:+ "." +:+ nm)) by done.
  eexists. reflexivity.
Qed.

Lemma storage_key_not_extra (hook nm : string) : hook +:+ "." +:+ nm ≠ "extra".
Proof.
  do 6 (destruct hook as [|? hook]; [by cbn|]).
  by cbn.
Qed.

Lemma log_all_tensors mode hook nm (cs : list (tensor * Z)) : ∀ a n fc,
  Forall (λ c, c.2 ≠ 0%Z) cs →
  ∃ a' n' fc',
    log_all (logged_once (M:=M) mode hook nm a n fc)
      (map (λ c, log_tensor hook nm c.1 c.2) cs)
    = Ok (logged_once mode hook nm a' n' fc') ∧
    a' == a + weighted_total (map (λ c, Forward c.1 c.2) cs) ∧
    n' == n + total_batch_size (map (λ c, Forward c.1 c.2) cs).
Proof.
  induction cs as [|[v b] cs IH]; intros a n fc Hcs.
  - exists a, n, fc. split; [done|].
    unfold weighted_total, total_batch_size. cbn [map foldr]. split; ring.
  - apply Forall_cons in Hcs as [Hb Hcs]. cbn [map log_all fst snd].
    destruct (log_tensor_again mode hook nm a n fc v b Hb) as [fc1 ->].
    cbn [mbind outcome_bind].
    destruct (IH (a + tensor_mean v * inject_Z b) (n + inject_Z b) fc1 Hcs)
      as (a' & n' & fc' & -> & Ha & Hn).
    exists a', n', fc'. split; [done|].
    unfold weighted_total, total_batch_size in *.
    cbn [map foldr call_value call_batch_size fst snd]. split.
    + rewrite Ha. ring.
    + rewrite Hn. ring.
Qed.

Lemma get_epoch_metrics_logged_once mode hook nm a n fc :
  ∃ ms self',
    get_epoch_metrics (logged_once (M:=M) mode hook nm a n fc) = Ok (ms, self') ∧
    log_metrics ms !! nm = Some (Leaf (OTensor [a / n])) ∧
    callback_metrics ms !! nm = Some (Leaf (OTensor [a / n])) ∧
    pbar_metrics ms !! nm = None.
Proof.
  unfold get_epoch_metrics, get_metrics, logged_once.
  cbn [items get_metrics_loop valid_item is_leaf Metadata.has_reset andb negb].
  rewrite bool_decide_eq_false_2 by apply storage_key_not_extra.
  cbn. do 2 eexists. split; [reflexivity|]. rewrite orb_true_r. cbn.
  rewrite !lookup_insert_eq. done.
Qed.

(** X19: tensors logged under one key of one hook, each with a batch
    size other than 0, starting from an empty collection: the epoch view
    then reports, in the log map and in the callback map, the mean of
    the per-call values [mean(value)] weighted by the batch sizes. *)
Theorem logged_tensors_epoch_mean (mode : bool) (hook nm : string) (cs : list (tensor * Z)) :
  cs ≠ [] →
  Forall (λ c, 0 < c.2)%Z cs →
  ∃ self ms self' q,
    log_all (init (M:=M) mode) (map (λ c, log_tensor hook nm c.1 c.2) cs) = Ok self ∧
    get_epoch_metrics self = Ok (ms, self') ∧
    log_metrics ms !! nm = Some (Leaf (OTensor [q])) ∧
    callback_metrics ms !! nm = Some (Leaf (OTensor [q])) ∧
    q == weighted_mean (map (λ c, Forward c.1 c.2) cs).
Proof.
  intros Hne Hpos. destruct cs as [|[v b] cs]; [done|].
  apply Forall_cons in Hpos as [Hb Hpos]. cbn [fst snd] in Hb.
  cbn [map log_all fst snd].
  destruct (log_tensor_first mode hook nm v b) as [fc1 ->]; [lia|].
  cbn [mbind outcome_bind].
  destruct (log_all_tensors mode hook nm cs (0 + tensor_mean v * inject_Z b)
              (0 + inject_Z b) fc1) as (a' & n' & fc' & -> & Ha & Hn).
  { eapply Forall_impl; [exact Hpos|]. intros c Hc. cbn in Hc. lia. }
  destruct (get_epoch_metrics_logged_once mode hook nm a' n' fc')
    as (ms & self' & Hview & Hlog & Hcb & _).
  exists (logged_once mode hook nm a' n' fc'), ms, self', (a' / n').
  split; [done|]. split; [done|]. split; [done|]. split; [done|].
  unfold weighted_mean, weighted_total, total_batch_size in *.
  cbn [foldr call_value call_batch_size]. rewrite Ha, Hn.
  rewrite !Qplus_0_l. reflexivity.
Qed.

End EndToEnd.

(** ** ResultCollection: the metadata of a key *)

(** A walk over two collections keeps an invariant of the shared state
    that every call of the function keeps. *)
Lemma traverse2_invariant {S A B C} (f : S → A → B → outcome (S * C)) (I : S → Prop) :
  (∀ s a b s' c, I s → f s a b = Ok (s', c) → I s') →
  ∀ t u s s' r, I s → traverse2 f s t u = Ok (s', r) → I s'.
Proof.
  intros Hf t.
  induction t as [a|kvs IH|xs IH] using tree_nested_ind; intros u s s' r Hs Hrun.
  - destruct u as [b| |]; try done. cbn in Hrun.
    apply bind_Ok in Hrun as ([s1 c] & Hfa & Hrun). cbn in Hrun. simplify_eq. eauto.
  - destruct u as [|kvs2|]; try done. cbn [traverse2] in Hrun.
    destruct (forallb _ kvs2); [|done].
    apply bind_Ok in Hrun as ([s1 kvs'] & Hgo & Hrun). cbn in Hrun. simplify_eq.
    revert s s' kvs' Hs Hgo.
    induction IH as [|kv kvs Hkv Hkvs IHkvs]; intros s s' kvs' Hs Hgo.
    { cbn in Hgo. by simplify_eq. }
    destruct (assoc kv.1 kvs2) as [v2|]; [|done].
    apply bind_Ok in Hgo as ([s1 v'] & Hv & Hgo).
    apply bind_Ok in Hgo as ([s2 rest'] & Hrest & Hgo).
    cbn in Hgo. simplify_eq. eauto.
  - destruct u as [| |ys]; try done. cbn [traverse2] in Hrun.
    destruct (decide _); [|done].
    apply bind_Ok in Hrun as ([s1 xs'] & Hgo & Hrun). cbn in Hrun. simplify_eq.
    clear e. revert ys s s' xs' Hs Hgo.
    induction IH as [|x xs Hx Hxs IHxs]; intros ys s s' xs' Hs Hgo.
    { cbn in Hgo. by simplify_eq. }
    destruct ys as [|y ys]; [cbn in Hgo; by simplify_eq|].
    apply bind_Ok in Hgo as ([s1 x'] & Hv & Hgo).
    apply bind_Ok in Hgo as ([s2 rest'] & Hrest & Hgo).
    cbn in Hgo. simplify_eq. eauto.
Qed.

Section MetadataFacts.
Context {M : Type} `{!TorchMetric M}.
Import ResultCollection.

Lemma forward_metadata meta (self self' : ResultMetric.t M) v b meta' :
  ResultMetric.forward meta self v b = Ok (meta', self') →
  ∃ flag, meta' = Metadata.set_has_reset flag meta.
Proof.
  unfold ResultMetric.forward.
  intros (self1 & _ & Hrest)%bind_Ok.
  destruct (ResultMetric.is_tensor self).
  - apply bind_Ok in Hrest as ([meta1 blank] & Hreset & Hrest).
    apply bind_Ok in Hrest as (batch & _ & Hrest).
    apply bind_Ok in Hrest as ([out ?] & _ & Hrest). cbn in Hrest. simplify_eq.
    unfold ResultMetric.reset in Hreset.
    destruct (ResultMetric.acc _) as [? ?|[[?|?]|]]; simplify_eq; eauto.
  - injection Hrest as Hm _. subst meta'. exists (Metadata.has_reset meta). by destruct meta.
Qed.

(** X22: the metadata of a key is fixed by the [log] call that creates
    the key: a later [log] call under the same key leaves it as it was,
    whatever flags and reduction the call is given (only [has_reset] is
    written). *)
Theorem log_keeps_metadata_of_existing_key (self self' : t M) (a : log_args M) meta node :
  assoc (log_key a) (items self) = Some (EResult meta node) →
  log self a = Ok self' →
  ∃ flag node',
    assoc (log_key a) (items self') =
      Some (EResult (Metadata.set_has_reset flag meta) node').
Proof.
  intros Hkey Hlog. rewrite log_unfold in Hlog.
  destruct (on_step a && _on_epoch_end_reached self); [done|].
  assert (log_created self a = self) as Hcreated.
  { unfold log_created. by rewrite decide_True by (rewrite Hkey; eauto). }
  rewrite Hcreated in Hlog.
  apply bind_Ok in Hlog as (self1 & Hreset & Hlog).
  apply bind_Ok in Hlog as (self2 & Hupdate & Hlog). cbn in Hlog. simplify_eq.
  assert (∃ flag node1, assoc (log_key a) (items self1)
            = Some (EResult (Metadata.set_has_reset flag meta) node1))
    as (flag1 & node1 & Hkey1).
  { destruct (should_reset_tensors self (log_hook a)).
    - rewrite _reset_tensors in Hreset. simplify_eq.
      cbn [items set_items]. rewrite assoc_map_values, Hkey. cbn.
      assert (∀ (l : list (ResultMetric.t M)) m,
                (∃ flag, m = Metadata.set_has_reset flag meta) →
                ∃ flag, foldl (reset_meta_of_hook (log_hook a) meta) m l
                        = Metadata.set_has_reset flag meta) as Hfold.
      { induction l as [|x l IH]; intros m Hm; [done|]. cbn. apply IH.
        unfold reset_meta_of_hook.
        destruct (ResultMetric.is_tensor x && bool_decide _); [|done].
        destruct Hm as [flag ->]. by exists true. }
      destruct (Hfold (leaves node) meta) as [flag ->]; [|eauto].
      exists (Metadata.has_reset meta). by destruct meta.
    - simplify_eq. exists (Metadata.has_reset meta), node.
      rewrite Hkey. by destruct meta. }
  unfold update_metrics, getitem in Hupdate. rewrite Hkey1 in Hupdate.
  cbn in Hupdate.
  apply bind_Ok in Hupdate as ([meta2 node2] & Hwalk & Hupdate).
  cbn in Hupdate. simplify_eq.
  cbn [items setitem set_items set_current_fx]. rewrite assoc_dict_set.
  rewrite decide_True by done.
  assert (∃ flag, meta2 = Metadata.set_has_reset flag meta) as [flag ->]; [|eauto].
  eapply (traverse2_invariant _ (λ m, ∃ flag, m = Metadata.set_has_reset flag meta));
    [|by exists flag1|exact Hwalk].
  intros s item v s' c [flag ->] Hfn. unfold update_fn in Hfn.
  apply bind_Ok in Hfn as ([m r] & Hforward & Hfn). cbn in Hfn. simplify_eq.
  apply forward_metadata in Hforward as [flag' ->]. by exists false.
Qed.

End MetadataFacts.

(** ** ResultMetric: max and min *)

Lemma py_max_cases a b :
  a <= py_max a b ∧ b <= py_max a b ∧ (py_max a b = a ∨ py_max a b = b).
Proof.
  unfold py_max, Qlt_bool. destruct (Qle_bool b a) eqn:Hle; cbn.
  - apply Qle_bool_iff in Hle. repeat split; [lra|done|by left].
  - assert (¬ b <= a) by (intros ?%Qle_bool_iff; congruence).
    repeat split; [lra|lra|by right].
Qed.

Lemma py_min_cases a b :
  py_min a b <= a ∧ py_min a b <= b ∧ (py_min a b = a ∨ py_min a b = b).
Proof.
  unfold py_min, Qlt_bool. destruct (Qle_bool a b) eqn:Hle; cbn.
  - apply Qle_bool_iff in Hle. repeat split; [lra|done|by left].
  - assert (¬ a <= b) by (intros ?%Qle_bool_iff; congruence).
    repeat split; [lra|lra|by right].
Qed.

(** A fold with [max] from [a]: an upper bound of [a] and of every value,
    and [a] itself or one of the values. *)
Lemma foldl_py_max cs : ∀ a,
  let q := foldl (λ x c, py_max x (tensor_mean (call_value c))) a cs in
  a <= q ∧ Forall (λ c, tensor_mean (call_value c) <= q) cs ∧
  (q = a ∨ Exists (λ c, q == tensor_mean (call_value c)) cs).
Proof.
  induction cs as [|c cs IH]; intros a; cbn.
  - repeat split; [lra|done|by left].
  - destruct (IH (py_max a (tensor_mean (call_value c)))) as (Hle & Hall & Hex).
    destruct (py_max_cases a (tensor_mean (call_value c))) as (Ha & Hc & Hpick).
    repeat split; [lra| |].
    + apply Forall_cons. split; [lra|done].
    + destruct Hex as [Heq|Hex]; [|right; by apply Exists_cons_tl].
      destruct Hpick as [Hp|Hp]; [left; congruence|].
      right. apply Exists_cons_hd. rewrite Heq, Hp. reflexivity.
Qed.

Lemma foldl_py_min cs : ∀ a,
  let q := foldl (λ x c, py_min x (tensor_mean (call_value c))) a cs in
  q <= a ∧ Forall (λ c, q <= tensor_mean (call_value c)) cs ∧
  (q = a ∨ Exists (λ c, q == tensor_mean (call_value c)) cs).
Proof.
  induction cs as [|c cs IH]; intros a; cbn.
  - repeat split; [lra|done|by left].
  - destruct (IH (py_min a (tensor_mean (call_value c)))) as (Hle & Hall & Hex).
    destruct (py_min_cases a (tensor_mean (call_value c))) as (Ha & Hc & Hpick).
    repeat split; [lra| |].
    + apply Forall_cons. split; [lra|done].
    + destruct Hex as [Heq|Hex]; [|right; by apply Exists_cons_tl].
      destruct Hpick as [Hp|Hp]; [left; congruence|].
      right. apply Exists_cons_hd. rewrite Heq, Hp. reflexivity.
Qed.

Section ExtremumFacts.
Context {M : Type} `{!TorchMetric M}.

(** Every call drops the cached result of [compute]. *)
Lemma run_call_computed (st st' : Metadata.t * ResultMetric.t M) c :
  run_call st c = Ok st' → ResultMetric._computed st'.2 = None.
Proof.
  destruct st as [meta self]. destruct c as [v b|v b]; cbn [run_call fst snd].
  - intros Hrun. apply bind_Ok in Hrun as (self1 & Hupd & Hrun). simplify_eq. cbn.
    unfold ResultMetric.wrapped_update, ResultMetric.update in Hupd.
    destruct self as [ac fc cc]. cbn in Hupd.
    destruct ac as [cur n|o]; [|done].
    repeat (match type of Hupd with
            | (if ?b then _ else _) = _ => destruct b
            | (mbind _ ?m) = _ => apply bind_Ok in Hupd as (? & _ & Hupd)
            end; cbn in Hupd); by simplify_eq.
  - unfold ResultMetric.forward. intros Hrun.
    apply bind_Ok in Hrun as (self1 & Hupd & Hrun).
    destruct (ResultMetric.is_tensor self).
    + apply bind_Ok in Hrun as ([meta1 blank] & _ & Hrun).
      apply bind_Ok in Hrun as (batch & _ & Hrun).
      apply bind_Ok in Hrun as ([out ?] & _ & Hrun). by simplify_eq.
    + simplify_eq. cbn.
      unfold ResultMetric.wrapped_update, ResultMetric.update in Hupd.
      destruct self as [ac fc cc]. cbn in Hupd.
      destruct ac as [cur n|o]; [|done].
      repeat (match type of Hupd with
              | (if ?b then _ else _) = _ => destruct b
              | (mbind _ ?m) = _ => apply bind_Ok in Hupd as (? & _ & Hupd)
              end; cbn in Hupd); by simplify_eq.
Qed.

Lemma run_calls_computed cs : ∀ (st st' : Metadata.t * ResultMetric.t M),
  cs ≠ [] → run_calls st cs = Ok st' → ResultMetric._computed st'.2 = None.
Proof.
  induction cs as [|c cs IH]; intros st st' Hne Hrun; [done|].
  cbn in Hrun. apply bind_Ok in Hrun as (st1 & Hcall & Hrun).
  destruct cs as [|c' cs]; [|by apply (IH st1)].
  cbn in Hrun. simplify_eq. by apply (run_call_computed st _ c).
Qed.

(** After a reset and the calls [cs], [compute()] under max (min)
    reduction returns the fold of the values from 0. *)
Lemma extremum_compute (pick : Q → Q → Q) (meta : Metadata.t)
    (self : ResultMetric.t M) cs :
  (Metadata.is_max_reduction meta = true ∧ pick = py_max ∨
   Metadata.is_min_reduction meta = true ∧ pick = py_min) →
  ResultMetric.is_tensor self = true →
  cs ≠ [] →
  ∃ st0 st self',
    ResultMetric.reset meta self = Ok st0 ∧
    run_calls st0 cs = Ok st ∧
    ResultMetric.wrapped_compute st.1 st.2
      = Ok ([foldl (λ x c, pick x (tensor_mean (call_value c))) 0 cs], self').
Proof.
  intros Hkind Htensor Hne.
  assert (ResultMetric.reset meta self
          = Ok (Metadata.set_has_reset true meta, ResultMetric.super_reset self))
    as Hreset.
  { unfold ResultMetric.reset. unfold ResultMetric.is_tensor in Htensor.
    by destruct (ResultMetric.acc self). }
  destruct (extremum_run_calls pick cs (Metadata.set_has_reset true meta)
              (ResultMetric.super_reset self) 0 0)
    as (meta' & self' & Hrun & Hfx & Hacc).
  { by destruct meta. }
  { by apply super_reset_acc. }
  pose proof (run_calls_computed cs _ _ Hne Hrun) as Hcomputed. cbn in Hcomputed.
  eexists _, (meta', self'), _. split; [done|]. split; [done|].
  cbn [fst snd]. unfold ResultMetric.wrapped_compute, ResultMetric.compute.
  rewrite Hcomputed, Hacc.
  assert (Metadata.is_mean_reduction meta' = false ∧
          Metadata.is_max_reduction meta' || Metadata.is_min_reduction meta' = true)
    as [-> ->]; [|reflexivity].
  unfold Metadata.is_mean_reduction, Metadata.is_max_reduction,
    Metadata.is_min_reduction in *.
  rewrite Hfx. destruct meta as [? ? ? ? ? ? fn ? ? ?]. cbn in *.
  destruct Hkind as [[Hk _]|[Hk _]]; by destruct fn.
Qed.

(** X24: after a reset and one or more calls, [compute()] under max
    reduction returns the largest of 0 and the per-call values
    [mean(value)]: it is never below 0 and never below a value; it is
    the maximum of the values as soon as one of them is not negative,
    and 0 when all of them are negative. *)
Theorem max_reduction_is_maximum_with_zero (meta : Metadata.t)
    (self : ResultMetric.t M) cs :
  Metadata.is_max_reduction meta = true →
  ResultMetric.is_tensor self = true →
  cs ≠ [] →
  ∃ st0 st q self',
    ResultMetric.reset meta self = Ok st0 ∧
    run_calls st0 cs = Ok st ∧
    ResultMetric.wrapped_compute st.1 st.2 = Ok ([q], self') ∧
    0 <= q ∧
    Forall (λ c, tensor_mean (call_value c) <= q) cs ∧
    (Exists (λ c, 0 <= tensor_mean (call_value c)) cs → is_running_max q cs) ∧
    (Forall (λ c, tensor_mean (call_value c) < 0) cs → q == 0).
Proof.
  intros Hmax Htensor Hne.
  destruct (extremum_compute py_max meta self cs) as (st0 & st & self' & H0 & Hrun & Hc);
    [by left|done|done|].
  destruct (foldl_py_max cs 0) as (Hle & Hall & Hex).
  eexists st0, st, _, self'. split; [done|]. split; [done|]. split; [exact Hc|].
  split; [done|]. split; [done|]. split; [intros Hsome; split; [|done]|].
  - destruct Hex as [Heq|Hex]; [|done].
    apply Exists_exists in Hsome as (c & Hc_in & Hc_pos).
    apply Exists_exists. exists c. split; [done|].
    rewrite Forall_forall in Hall. specialize (Hall c Hc_in).
    rewrite Heq in *. lra.
  - intros Hneg. destruct Hex as [Heq|Hex]; [by rewrite Heq|].
    apply Exists_exists in Hex as (c & Hc_in & Heq).
    rewrite Forall_forall in Hneg. specialize (Hneg c Hc_in). lra.
Qed.

(** X25: after a reset and one or more calls, [compute()] under min
    reduction returns the smallest of 0 and the per-call values
    [mean(value)]: it is never above 0 and never above a value; it is
    the minimum of the values as soon as one of them is not positive,
    and 0 when all of them are positive. *)
Theorem min_reduction_is_minimum_with_zero (meta : Metadata.t)
    (self : ResultMetric.t M) cs :
  Metadata.is_min_reduction meta = true →
  ResultMetric.is_tensor self = true →
  cs ≠ [] →
  ∃ st0 st q self',
    ResultMetric.reset meta self = Ok st0 ∧
    run_calls st0 cs = Ok st ∧
    ResultMetric.wrapped_compute st.1 st.2 = Ok ([q], self') ∧
    q <= 0 ∧
    Forall (λ c, q <= tensor_mean (call_value c)) cs ∧
    (Exists (λ c, tensor_mean (call_value c) <= 0) cs → is_running_min q cs) ∧
    (Forall (λ c, 0 < tensor_mean (call_value c)) cs → q == 0).
Proof.
  intros Hmin Htensor Hne.
  destruct (extremum_compute py_min meta self cs) as (st0 & st & self' & H0 & Hrun & Hc);
    [by right|done|done|].
  destruct (foldl_py_min cs 0) as (Hle & Hall & Hex).
  eexists st0, st, _, self'. split; [done|]. split; [done|]. split; [exact Hc|].
  split; [done|]. split; [done|]. split; [intros Hsome; split; [|done]|].
  - destruct Hex as [Heq|Hex]; [|done].
    apply Exists_exists in Hsome as (c & Hc_in & Hc_pos).
    apply Exists_exists. exists c. split; [done|].
    rewrite Forall_forall in Hall. specialize (Hall c Hc_in).
    rewrite Heq in *. lra.
  - intros Hneg. destruct Hex as [Heq|Hex]; [by rewrite Heq|].
    apply Exists_exists in Hex as (c & Hc_in & Heq).
    rewrite Forall_forall in Hneg. specialize (Hneg c Hc_in). lra.
Qed.

End ExtremumFacts.

(** ** ResultCollection: [reset] by kind *)

(** A walk pairs the leaves of the collection, in order, with what the
    function returned for them. *)
Lemma traverse_leaves {S A B} (f : S → A → outcome (S * B)) : ∀ t s s' u,
  traverse f s t = Ok (s', u) →
  Forall2 (λ a b, ∃ s1 s2, f s1 a = Ok (s2, b)) (leaves t) (leaves u).
Proof.
  intros t.
  induction t as [a|kvs IH|xs IH] using tree_nested_ind; intros s s' u Hrun.
  - cbn in Hrun. apply bind_Ok in Hrun as ([s1 b] & Hf & Hrun).
    cbn in Hrun. simplify_eq. cbn. apply Forall2_cons. split; [eauto|done].
  - cbn [traverse] in Hrun. apply bind_Ok in Hrun as ([s1 kvs'] & Hgo & Hrun).
    cbn in Hrun. simplify_eq.
    revert s s' kvs' Hgo.
    induction IH as [|kv kvs Hkv Hkvs IHkvs]; intros s s' kvs' Hgo.
    { cbn in Hgo. by simplify_eq. }
    apply bind_Ok in Hgo as ([s1 v'] & Hv & Hgo).
    apply bind_Ok in Hgo as ([s2 rest'] & Hrest & Hgo).
    cbn in Hgo. simplify_eq. cbn.
    apply Forall2_app; [by eapply Hkv|by eapply IHkvs].
  - cbn [traverse] in Hrun. apply bind_Ok in Hrun as ([s1 xs'] & Hgo & Hrun).
    cbn in Hrun. simplify_eq.
    revert s s' xs' Hgo.
    induction IH as [|x xs Hx Hxs IHxs]; intros s s' xs' Hgo.
    { cbn in Hgo. by simplify_eq. }
    apply bind_Ok in Hgo as ([s1 x'] & Hv & Hgo).
    apply bind_Ok in Hgo as ([s2 rest'] & Hrest & Hgo).
    cbn in Hgo. simplify_eq. cbn.
    apply Forall2_app; [by eapply Hx|by eapply IHxs].
Qed.

Section ResetKindFacts.
Context {M : Type} `{!TorchMetric M}.
Import ResultCollection.

(** X26: [reset(metrics=True)] resets the metric objects only, and
    [reset(metrics=False)] the tensors only: the keys and the shape of
    what is stored stay, every [ResultMetric] of the other kind is as it
    was, and every one of the requested kind is what its own [reset]
    makes of it. *)
Theorem reset_metrics_flag_selects_kind (self self' : t M) (only_metrics : bool) :
  reset self (Some only_metrics) = Ok self' →
  Forall2 (λ kv kv',
     kv'.1 = kv.1 ∧
     match kv.2, kv'.2 with
     | EResult meta node, EResult meta' node' =>
         shape node' = shape node ∧
         Forall2 (λ item item',
            if bool_decide (ResultMetric.is_tensor item = only_metrics)
            then item' = item
            else ∃ m1 m2, ResultMetric.reset m1 item = Ok (m2, item'))
           (leaves node) (leaves node')
     | e, e' => e' = e
     end) (items self) (items self').
Proof.
  unfold reset, _reset. intros Hreset.
  apply bind_Ok in Hreset as (self1 & Hreset & Hret).
  apply bind_Ok in Hreset as (d & Hmap & Hset). simplify_eq.
  cbn [items set_items set_current_fx set_on_epoch_end_reached].
  revert d Hmap. induction (items self) as [|[k e] l IH]; intros d Hmap.
  { cbn in Hmap. simplify_eq. constructor. }
  cbn [mapM_items] in Hmap.
  apply bind_Ok in Hmap as (e' & He & Hmap).
  apply bind_Ok in Hmap as (d' & Hd & Hmap). simplify_eq.
  apply Forall2_cons. split; [|by apply IH]. split; [done|]. cbn [snd].
  destruct e as [meta node|b| |z]; cbn in He; simplify_eq; try done.
  apply bind_Ok in He as ([meta' node'] & Hwalk & He). cbn in He. simplify_eq.
  split; [by apply traverse_shape in Hwalk as [? _]|].
  apply traverse_leaves in Hwalk.
  eapply Forall2_impl; [exact Hwalk|].
  intros item item' (m1 & m2 & Hfn). unfold reset_fn in Hfn.
  destruct only_metrics, (ResultMetric.is_tensor item); cbn in Hfn |- *;
    case_bool_decide; simplify_eq; eauto.
Qed.

End ResetKindFacts.

(** ** CheckpointConnector: weights-only dumps, and the newest rotation path *)

Section MoreSaveFacts.
Import CheckpointConnector.

(** X27: a checkpoint dumped with [weights_only=True] is not one to
    resume training from.  Once it is the loaded checkpoint of a
    connector of the trainer (which has not reached [max_epochs], and
    whose plugin does not restore optimizers),
    [restore_training_state] raises [KeyError]; by then the loop
    counters hold the dumped values. *)
Theorem weights_only_dump_is_not_resumable (NAME KEY TYPE : string) w :
  Forall (λ k, k ≠ "optimizer_states" ∧ k ≠ "lr_schedulers") [NAME; KEY; TYPE] →
  plugin_restores_optimizers (the_trainer w) = false →
  accumulate_grad_batches (the_trainer w) ≠ Some 0%Z →
  (∀ m, max_epochs (the_trainer w) = Some m → (current_epoch (the_trainer w) < m)%Z) →
  ∃ c w1,
    dump_checkpoint NAME KEY TYPE true w = (Ok c, w1) ∧
    has_key "state_dict" c = true ∧
    ∀ path files_then trace_then,
    ∃ w3,
      restore_training_state (mk_world (the_trainer w) path c files_then trace_then)
        = (Raise KeyError, w3) ∧
      Some (trainer_global_step (the_trainer w3)) = global_step c ∧
      Some (current_epoch (the_trainer w3)) = epoch c ∧
      loaded_checkpoint w3 = c.
Proof.
  intros Hnames Hplug Hacc Hmax.
  destruct (dump_checkpoint_contents NAME KEY TYPE true w)
    as (c & w1 & Hdump & _ & Hsd & Hkeys & _).
  destruct (dump_checkpoint_counters NAME KEY TYPE true w)
    as (c' & w1' & Hdump' & _ & _ & Hstep & Hepoch).
  rewrite Hdump in Hdump'. injection Hdump' as <- <-.
  destruct (Hkeys Hnames) as [Hopt _]. clear Hkeys.
  exists c, w1. split; [done|]. split; [done|]. intros path files_then trace_then.
  set (w2 := mk_world (the_trainer w) path c files_then trace_then).
  assert (the_trainer w2 = the_trainer w) as Ht2 by done.
  assert (loaded_checkpoint w2 = c) as Hc by done.
  clearbody w2.
  set (e := if match max_steps (the_trainer w) with
               | Some m => negb (bool_decide (m = 0%Z)) &&
                           bool_decide (m ≤ trainer_global_step (the_trainer w))%Z
               | None => false
               end
            then current_epoch (the_trainer w)
            else (current_epoch (the_trainer w) + 1)%Z) in *.
  assert (is_empty c = false) as Hne by (by eapply is_empty_false_epoch).
  unfold restore_training_state. conn_step. rewrite Hc, Hne. conn_step.
  rewrite conn_bind_unfold.
  match goal with |- context [restore_progress ?w0] =>
    destruct (restore_progress_ok w0 e (trainer_global_step (the_trainer w) + 1))
      as (w3 & -> & Ht3 & Hc3 & Hfs3 & Hp3) end;
    cbn [the_trainer resume_checkpoint_path loaded_checkpoint fs trace] in *;
    rewrite ?Hc, ?Ht2; try done.
  { intros m Hm. specialize (Hmax m Hm). unfold e.
    destruct (max_steps (the_trainer w)) as [ms|]; [destruct (_ && _)|]; lia. }
  rewrite restore_optimizers_and_schedulers_missing.
  - exists w3. split; [done|]. rewrite Ht3, Hc3, Hc. cbn. by rewrite Hstep, Hepoch.
  - rewrite Ht3. cbn. by rewrite Ht2.
  - by rewrite Hc3, Hc.
  - left. rewrite Hc3, Hc, has_key_other by done. rewrite Hopt.
    apply bool_decide_eq_false_2. by intros [? [=]].
Qed.

(** X28: after [hpc_save] in a folder where every name that contains
    [ckpt_] is a rotation checkpoint, [get_max_ckpt_path_from_folder]
    answers with the path that [hpc_save] returned. *)
Theorem get_max_ckpt_path_after_hpc_save (NAME KEY TYPE folder : string) w :
  folder ≠ EmptyString →
  ends_with_slash folder = false →
  unpicklable (the_trainer w) = [] →
  rotation_only (default [] (dirs (fs w) !! folder)) →
  ∃ path w1,
    hpc_save NAME KEY TYPE folder w = (Ok path, w1) ∧
    get_max_ckpt_path_from_folder (fs w1) folder = Ok path.
Proof.
  intros Hne Hslash Hpick Hrot.
  set (listing := default [] (dirs (fs w) !! folder)) in *.
  set (k := next_rotation_index listing).
  destruct (max_ckpt_in_folder_rotation (fs_makedirs folder (fs w)) folder listing
              (proj1 (makedirs_listing folder (fs w))) Hrot)
    as (max_suffix & Hmax & Hnext).
  destruct (hpc_save_result NAME KEY TYPE folder w max_suffix Hpick Hmax)
    as (c & w1 & Hsave & Ht1 & _ & _ & Hfs1 & _).
  rewrite Hnext in Hsave, Hfs1. fold k in Hsave, Hfs1.
  assert (path_join folder ("hpc_ckpt_" +:+ pretty k +:+ ".ckpt")
          = hpc_ckpt_path folder k) as Hpath.
  { unfold path_join, hpc_ckpt_path. rewrite Hslash, bool_decide_eq_false_2 by done.
    reflexivity. }
  destruct (rotation_listing_after_save folder listing Hrot) as (Hl & Hrot' & Hnext').
  fold k in Hl, Hrot', Hnext'.
  destruct (fs_write_listing folder
              (path_join folder ("hpc_ckpt_" +:+ pretty k +:+ ".ckpt")) c
              (fs_makedirs folder (fs w)) listing
              (proj1 (makedirs_listing folder (fs w)))) as [Hdir1 _].
  rewrite <-Hfs1 in Hdir1.
  destruct (max_ckpt_in_folder_rotation (fs w1) folder _ Hdir1 Hrot')
    as (max_suffix' & Hmax' & Hnext'').
  exists (path_join folder ("hpc_ckpt_" +:+ pretty k +:+ ".ckpt")), w1.
  split; [exact Hsave|].
  unfold get_max_ckpt_path_from_folder. rewrite Hmax'. cbn.
  rewrite Hpath. do 2 f_equal. rewrite Hnext' in Hnext''.
  cbv [from_option id] in *. lia.
Qed.

End MoreSaveFacts.

(** ** ResultCollection: a new epoch *)

Section EpochFacts.
Context {M : Type} `{!TorchMetric M}.
Import ResultCollection.

(** [reset()] on the collection that holds one tensor entry, and the
    first [log] call under the key after it. *)
Lemma reset_logged_once mode hook nm a n fc :
  reset (logged_once (M:=M) mode hook nm a n fc) None
  = Ok (mk [(hook +:+ "." +:+ nm,
             EResult (Metadata.mk hook nm false true false true torch_mean None None true)
               (Leaf (ResultMetric.mk (ResultMetric.TensorAcc (ResultMetric.VT 0) 0)
                        fc None)))]
          mode false None 1 None).
Proof. reflexivity. Qed.

Lemma log_tensor_after_reset mode hook nm fc v b :
  b ≠ 0%Z →
  ∃ fc',
    log (mk (M:=M)
           [(hook +:+ "." +:+ nm,
             EResult (Metadata.mk hook nm false true false true torch_mean None None true)
               (Leaf (ResultMetric.mk (ResultMetric.TensorAcc (ResultMetric.VT 0) 0)
                        fc None)))]
           mode false None 1 None)
      (log_tensor hook nm v b)
    = Ok (logged_once mode hook nm (0 + tensor_mean v * inject_Z b)
            (0 + inject_Z b) fc').
Proof.
  intros Hb. rewrite log_unfold. cbn [on_step log_tensor andb].
  rewrite should_reset_tensors_created.
  match goal with |- context [log_created ?s ?a] =>
    assert (log_created s a = s) as -> end.
  { unfold log_created, log_key.
    cbn [items fx name dataloader_idx log_tensor assoc].
    rewrite (decide_True (P := _ = _)) by done. by rewrite decide_True by eauto. }
  match goal with |- context [should_reset_tensors ?s ?h] =>
    assert (should_reset_tensors s h = true) as -> by done end.
  rewrite _reset_tensors. cbn [mbind outcome_bind].
  unfold update_metrics, getitem, log_key, log_hook.
  cbn [items fx name dataloader_idx log_tensor assoc log_batch_size value batch_size
       setitem set_items dict_set map fst snd prog_bar logger on_step on_epoch
       reduce_fx metric_attribute reset_tensors_entry leaves foldl tree_map].
  rewrite (decide_True (P := hook +:+ "." +:+ nm = hook +:+ "." +:+ nm)) by done.
  rewrite (decide_False (P := b = 0%Z)) by done.
  cbn -[dict_set setitem reset_meta_of_hook reset_tensor_of_hook].
  unfold reset_meta_of_hook, reset_tensor_of_hook.
  cbn [ResultMetric.is_tensor ResultMetric.acc Metadata.fx andb].
  rewrite bool_decide_eq_true_2 by done.
  cbn -[dict_set setitem].
  unfold setitem, set_items, set_current_fx. cbn [items dict_set training
    _on_epoch_end_reached _current_fx batch_size batch_idx].
  rewrite (decide_True (P := hook +:+ "." +:+ nm = hook +:+ "." +:+ nm)) by done.
  eexists. reflexivity.
Qed.

(** X29: [reset()] starts a new epoch.  Tensors logged under one key,
    then [reset()], then tensors logged under the same key again (each
    with a positive batch size): the epoch view reports the weighted
    mean of the values logged after the reset alone. *)
Theorem reset_starts_a_new_epoch (mode : bool) (hook nm : string)
    (before after : list (tensor * Z)) :
  before ≠ [] → after ≠ [] →
  Forall (λ c, 0 < c.2)%Z before →
  Forall (λ c, 0 < c.2)%Z after →
  ∃ logged cleared again ms self' q,
    log_all (init (M:=M) mode) (map (λ c, log_tensor hook nm c.1 c.2) before) = Ok logged ∧
    reset logged None = Ok cleared ∧
    log_all cleared (map (λ c, log_tensor hook nm c.1 c.2) after) = Ok again ∧
    get_epoch_metrics again = Ok (ms, self') ∧
    log_metrics ms !! nm = Some (Leaf (OTensor [q])) ∧
    callback_metrics ms !! nm = Some (Leaf (OTensor [q])) ∧
    q == weighted_mean (map (λ c, Forward c.1 c.2) after).
Proof.
  intros Hne1 Hne2 Hpos1 Hpos2.
  assert (∀ cs : list (tensor * Z), Forall (λ c, 0 < c.2)%Z cs → Forall (λ c, c.2 ≠ 0%Z) cs)
    as Hnz.
  { intros cs Hcs. eapply Forall_impl; [exact Hcs|]. intros c Hc. cbn in Hc. lia. }
  destruct before as [|[v1 b1] before]; [done|].
  apply Forall_cons in Hpos1 as [Hb1 Hpos1]. cbn [fst snd] in Hb1.
  destruct (log_tensor_first mode hook nm v1 b1) as [fc1 Hfirst]; [lia|].
  destruct (log_all_tensors mode hook nm before (0 + tensor_mean v1 * inject_Z b1)
              (0 + inject_Z b1) fc1 (Hnz _ Hpos1)) as (a1 & n1 & fc2 & Hlogged & _ & _).
  destruct after as [|[v2 b2] after]; [done|].
  apply Forall_cons in Hpos2 as [Hb2 Hpos2]. cbn [fst snd] in Hb2.
  destruct (log_tensor_after_reset mode hook nm fc2 v2 b2) as [fc3 Hagain]; [lia|].
  destruct (log_all_tensors mode hook nm after (0 + tensor_mean v2 * inject_Z b2)
              (0 + inject_Z b2) fc3 (Hnz _ Hpos2)) as (a' & n' & fc' & Hrest & Ha & Hn).
  destruct (get_epoch_metrics_logged_once mode hook nm a' n' fc')
    as (ms & self' & Hview & Hlog & Hcb & _).
  eexists (logged_once mode hook nm a1 n1 fc2), _,
    (logged_once mode hook nm a' n' fc'), ms, self', (a' / n').
  split.
  { cbn [map log_all fst snd]. rewrite Hfirst. cbn [mbind outcome_bind]. exact Hlogged. }
  split; [apply reset_logged_once|].
  split.
  { cbn [map log_all fst snd]. rewrite Hagain. cbn [mbind outcome_bind]. exact Hrest. }
  split; [done|]. split; [done|]. split; [done|].
  unfold weighted_mean, weighted_total, total_batch_size in *.
  cbn [map foldr call_value call_batch_size fst snd]. rewrite Ha, Hn.
  rewrite !Qplus_0_l. reflexivity.
Qed.

End EpochFacts.

(** ** The examples for the further properties *)

Section ConnectorExamples.
Import CheckpointConnector.

Lemma X1_witness :
  ∃ w',
    restore [] EmptyString sample_world = (Ok (), w') ∧
    the_trainer w' = sample_trainer ∧ fs w' = sample_fs ∧
    loaded_checkpoint w' = empty_checkpoint ∧ resume_checkpoint_path w' = None ∧
    trace w' =
      [rank_zero_info "Restored all states from the checkpoint file at ";
       barrier "CheckpointConnector.resume_end"].
Proof.
  apply (restore_without_checkpoint_restores_nothing [] sample_world); reflexivity.
Defined.

Lemma X2_witness :
  fs_exists (fs sample_world) "missing.ckpt" = false ∧
  ∃ w',
    restore [] "missing.ckpt" sample_world = (Raise FileNotFoundError, w') ∧
    the_trainer w' = sample_trainer ∧ fs w' = sample_fs ∧
    loaded_checkpoint w' = empty_checkpoint ∧
    trace w' = [].
Proof.
  split; [reflexivity|].
  apply (restore_missing_file_raises [] "missing.ckpt" sample_world);
    [discriminate|reflexivity|reflexivity].
Defined.

Lemma X3_witness :
  resume_checkpoint_path sample_hpc_world = Some "full.ckpt" ∧
  ∃ w',
    resume_start sample_hpc_world = (Ok (), w') ∧
    loaded_checkpoint w' = sample_full_checkpoint ∧
    resume_checkpoint_path w' = Some "ckpts/hpc_ckpt_7.ckpt" ∧
    the_trainer w' = sample_hpc_trainer ∧ fs w' = sample_resume_fs.
Proof.
  split; [reflexivity|].
  apply (resume_start_prefers_hpc_checkpoint sample_hpc_world 7 sample_full_checkpoint);
    reflexivity.
Defined.

Lemma X4_witness :
  ∃ w',
    restore ["early_stop_callback_wait"] "old.ckpt" sample_resume_world
      = (Raise ValueError, w') ∧
    the_trainer w' = sample_trainer ∧ fs w' = sample_resume_fs ∧
    loaded_checkpoint w' = sample_old_checkpoint.
Proof.
  apply (restore_deprecated_schema_keeps_counters ["early_stop_callback_wait"]
           "old.ckpt" sample_resume_world sample_old_checkpoint);
    first [discriminate | reflexivity | by right].
Defined.

Lemma X5_witness :
  ∃ w',
    restore [] "weights.ckpt" sample_resume_world = (Raise KeyError, w') ∧
    the_trainer w' = set_progress 40 2 sample_trainer ∧
    loaded_checkpoint w' = sample_weights_only_checkpoint.
Proof.
  apply (restore_weights_only_checkpoint_raises [] "weights.ckpt" sample_resume_world
           sample_weights_only_checkpoint 2 40);
    first [discriminate | reflexivity | by right | by left
          | intros m [= <-]; lia].
Defined.

Lemma X6_witness :
  ∃ w',
    restore [] "full.ckpt" sample_resume_world = (Ok (), w') ∧
    the_trainer w' = set_progress 40 2 sample_trainer ∧
    fs w' = sample_resume_fs ∧
    loaded_checkpoint w' = empty_checkpoint ∧
    resume_checkpoint_path w' = None.
Proof.
  apply (restore_full_checkpoint [] "full.ckpt" sample_resume_world
           sample_full_checkpoint 2 40);
    first [discriminate | reflexivity | by right | intros m [= <-]; lia].
Defined.

Lemma X7_witness :
  max_ckpt_in_folder sample_resume_fs "named" "ckpt_" = Raise ValueError.
Proof.
  apply (max_ckpt_in_folder_name_without_number sample_resume_fs "named" "ckpt_"
           ["named/ckpt_best.ckpt"] "named/ckpt_best.ckpt");
    first [discriminate | reflexivity | apply list_elem_of_singleton; reflexivity].
Defined.

Lemma X8_witness :
  hpc_save "hparams_name" "hyper_parameters" "hparams_type" "named" sample_resume_world =
    (Raise ValueError,
     mk_world sample_trainer None empty_checkpoint sample_resume_fs [logger_save]) ∧
  get_max_ckpt_path_from_folder sample_resume_fs "named" = Raise ValueError.
Proof.
  apply (hpc_save_name_without_number "hparams_name" "hyper_parameters" "hparams_type"
           "named" sample_resume_world "named/ckpt_best.ckpt");
    first [reflexivity | apply list_elem_of_singleton; reflexivity].
Defined.

Lemma X9_witness :
  ∃ c w1,
    dump_checkpoint "hparams_name" "hyper_parameters" "hparams_type" false sample_world
      = (Ok c, w1) ∧
    ∀ path files_then trace_then,
    ∃ w3,
      restore_training_state (mk_world sample_trainer path c files_then trace_then)
        = (Ok (), w3) ∧
      Some (trainer_global_step (the_trainer w3)) = global_step c ∧
      Some (current_epoch (the_trainer w3)) = epoch c ∧
      trainer_global_step (the_trainer w3) = 1%Z ∧
      (∀ i, (i < 1)%nat → optimizer_load_state_dict i ∈ trace w3) ∧
      (∀ i, (i < 1)%nat → scheduler_load_state_dict i ∈ trace w3).
Proof.
  apply (dump_then_restore_training_state "hparams_name" "hyper_parameters"
           "hparams_type" sample_world).
  - repeat constructor; discriminate.
  - reflexivity.
  - discriminate.
  - intros m [= <-]. reflexivity.
Defined.

Lemma X10_witness :
  ∃ w' c,
    hpc_save "hparams_name" "hyper_parameters" "hparams_type" "fresh" sample_hparams_world
      = (Ok "fresh/hpc_ckpt_1.ckpt", w') ∧
    rank_zero_warn "warning, `hyper_parameters` dropped from checkpoint." ∈ trace w' ∧
    atomic_save "fresh/hpc_ckpt_1.ckpt" ∈ trace w' ∧
    files (fs w') !! "fresh/hpc_ckpt_1.ckpt" = Some c ∧
    has_key "hyper_parameters" c = false ∧
    global_step c = Some 1%Z.
Proof.
  apply (hpc_save_drops_unpicklable_hyper_parameters "hparams_name" "hyper_parameters"
           "hparams_type" "fresh" sample_hparams_world None);
    first [discriminate | reflexivity].
Defined.

Lemma X20_witness :
  ∃ w1 w2,
    hpc_save "hparams_name" "hyper_parameters" "hparams_type" "ckpts" sample_hpc_world =
      (Ok "ckpts/hpc_ckpt_8.ckpt", w1) ∧
    "ckpts/hpc_ckpt_8.ckpt" ∈ default [] (dirs (fs w1) !! "ckpts") ∧
    hpc_save "hparams_name" "hyper_parameters" "hparams_type" "ckpts" w1 =
      (Ok "ckpts/hpc_ckpt_9.ckpt", w2).
Proof.
  apply (hpc_save_twice_consecutive "hparams_name" "hyper_parameters" "hparams_type"
           "ckpts" sample_hpc_world).
  - reflexivity.
  - repeat constructor; intros _; vm_compute; eauto.
Defined.

Lemma X21_witness :
  ∃ path w1 w2,
    hpc_save "hparams_name" "hyper_parameters" "hparams_type" "ckpts" sample_hpc_world
      = (Ok path, w1) ∧
    resume_start w1 = (Ok (), w2) ∧
    resume_checkpoint_path w2 = Some path ∧
    files (fs w1) !! path = Some (loaded_checkpoint w2) ∧
    global_step (loaded_checkpoint w2) = Some 1%Z.
Proof.
  apply (hpc_save_then_resume_start "hparams_name" "hyper_parameters" "hparams_type"
           sample_hpc_world).
  - discriminate.
  - reflexivity.
  - reflexivity.
  - repeat constructor; intros _; vm_compute; eauto.
Defined.

Lemma X27_witness :
  ∃ c w1,
    dump_checkpoint "hparams_name" "hyper_parameters" "hparams_type" true sample_world
      = (Ok c, w1) ∧
    has_key "state_dict" c = true ∧
    ∀ path files_then trace_then,
    ∃ w3,
      restore_training_state (mk_world sample_trainer path c files_then trace_then)
        = (Raise KeyError, w3) ∧
      Some (trainer_global_step (the_trainer w3)) = global_step c ∧
      Some (current_epoch (the_trainer w3)) = epoch c ∧
      loaded_checkpoint w3 = c.
Proof.
  apply (weights_only_dump_is_not_resumable "hparams_name" "hyper_parameters"
           "hparams_type" sample_world).
  - repeat constructor; discriminate.
  - reflexivity.
  - discriminate.
  - intros m [= <-]. reflexivity.
Defined.

Lemma X28_witness :
  ∃ path w1,
    hpc_save "hparams_name" "hyper_parameters" "hparams_type" "ckpts" sample_hpc_world
      = (Ok path, w1) ∧
    get_max_ckpt_path_from_folder (fs w1) "ckpts" = Ok path.
Proof.
  apply (get_max_ckpt_path_after_hpc_save "hparams_name" "hyper_parameters"
           "hparams_type" "ckpts" sample_hpc_world).
  - discriminate.
  - reflexivity.
  - reflexivity.
  - repeat constructor; intros _; vm_compute; eauto.
Defined.

End ConnectorExamples.

Section CollectionExamples.
Import ResultCollection.

Lemma X11_witness :
  ∃ ms self',
    get_batch_metrics sample_collection = Ok (ms, self') ∧ self' = sample_collection.
Proof.
  destruct (get_batch_metrics sample_collection) as [[ms self']|e] eqn:Hget;
    [|by vm_compute in Hget].
  exists ms, self'. split; [reflexivity|].
  apply (get_batch_metrics_leaves_collection sample_collection self' ms Hget).
Defined.

Lemma X12_witness :
  training sample_eval_collection = false ∧
  ∃ ms self',
    get_batch_metrics sample_eval_collection = Ok (ms, self') ∧
    callback_metrics ms = ∅.
Proof.
  split; [reflexivity|].
  destruct (get_batch_metrics sample_eval_collection) as [[ms self']|e] eqn:Hget;
    [|by vm_compute in Hget].
  exists ms, self'. split; [reflexivity|].
  apply (get_batch_metrics_callback_empty_in_evaluation sample_eval_collection self' ms
           eq_refl Hget).
Defined.

Lemma X13_witness :
  ∃ ms self',
    get_metrics sample_collection false = Ok (ms, self') ∧
    (∀ key e r, (key, e) ∈ items sample_collection →
       non_skipped sample_collection false key e r →
       row_logger r = true → is_Some (log_metrics ms !! row_name_forked r)) ∧
    (∀ x v, log_metrics ms !! x = Some v →
       ∃ key e r, (key, e) ∈ items sample_collection ∧
         non_skipped sample_collection false key e r ∧
         row_logger r = true ∧ x = row_name_forked r ∧ v = row_value r).
Proof.
  destruct (get_metrics sample_collection false) as [[ms self']|e] eqn:Hget;
    [|by vm_compute in Hget].
  exists ms, self'. split; [reflexivity|].
  apply (get_metrics_log_routing sample_collection self' false ms Hget).
Defined.

Lemma X14_witness :
  Forall (λ kv, plain_entry kv.2) (items sample_collection) ∧
  ∃ self',
    reset sample_collection None = Ok self' ∧
    get_metrics self' false = Ok (no_metrics, self') ∧
    _current_fx self' = None ∧ _on_epoch_end_reached self' = false ∧
    batch_idx self' = None.
Proof.
  assert (Forall (λ kv, plain_entry kv.2) (items sample_collection)) as Hplain
    by (repeat constructor).
  split; [exact Hplain|].
  destruct (reset sample_collection None) as [self'|e] eqn:Hreset;
    [|by vm_compute in Hreset].
  exists self'. split; [reflexivity|].
  apply (reset_empties_the_views sample_collection self' false Hplain Hreset).
Defined.

(** The mapping of live metric objects of the example goes with the
    example collection. *)
Lemma sample_metrics_live : resupplies_live_metrics sample_metrics sample_collection.
Proof.
  intros key meta node item name m Hin Hitem Hname Hm.
  unfold sample_collection in Hin. cbn [items] in Hin.
  apply elem_of_cons in Hin as [Heq|Hin].
  { injection Heq as _ -> ->. discriminate Hname. }
  apply elem_of_cons in Hin as [Heq|Hin]; [|by apply elem_of_nil in Hin].
  injection Heq as _ -> ->. cbn in Hname, Hitem.
  injection Hname as <-. apply list_elem_of_singleton in Hitem as ->.
  unfold sample_metrics in Hm. rewrite lookup_singleton_eq in Hm.
  by injection Hm as <-.
Qed.

Lemma X15_witness :
  load_from_state_dict (init true) (state_dict sample_collection) sample_metrics
  = set_items (items sample_collection) (init true).
Proof.
  apply (load_state_dict_into_empty_collection sample_collection (init true)
           sample_metrics).
  - reflexivity.
  - apply (bool_decide_unpack _). by vm_compute.
  - exact sample_metrics_live.
Defined.

Lemma X16_witness :
  let fresh := logged_once (M:=fixed_metric) false "test_step" "loss" 1 1 None in
  assoc "test_step.loss"
    (items (load_from_state_dict fresh (state_dict sample_collection) ∅))
  = assoc "test_step.loss" (items fresh).
Proof.
  intros fresh.
  apply (load_state_dict_keeps_other_keys sample_collection fresh "test_step.loss").
  apply (bool_decide_unpack _). by vm_compute.
Defined.

Lemma X17_witness :
  ∃ meta' self' q,
    ResultMetric.forward (sample_meta torch_mean)
      (ResultMetric.mk (M:=fixed_metric) (ResultMetric.TensorAcc (ResultMetric.VT 6) 3)
         (Some [2]) None)
      (LTensor [1; 3]) 2 = Ok (meta', self') ∧
    ResultMetric.acc self' =
      ResultMetric.TensorAcc (ResultMetric.VT (6 + tensor_mean [1; 3] * inject_Z 2))
        (3 + inject_Z 2) ∧
    (∃ updated,
       ResultMetric.wrapped_update (sample_meta torch_mean)
         (ResultMetric.mk (M:=fixed_metric) (ResultMetric.TensorAcc (ResultMetric.VT 6) 3)
            (Some [2]) None)
         (LTensor [1; 3]) 2 = Ok updated ∧
       ResultMetric.acc self' = ResultMetric.acc updated) ∧
    ResultMetric._forward_cache self' = Some [q] ∧
    q == tensor_mean [1; 3] ∧
    ResultMetric._computed self' = None.
Proof.
  apply (forward_mean_keeps_batch_value (M:=fixed_metric) (sample_meta torch_mean)
           (ResultMetric.mk (ResultMetric.TensorAcc (ResultMetric.VT 6) 3) (Some [2]) None)
           [1; 3] 2 6 3);
    first [discriminate | reflexivity].
Defined.

Lemma X18_witness :
  log sample_collection
    (mk_log "training_step" "total" (Leaf (LTensor [1])) false true false true
       (other_fn "sum") None None None)
  = Raise MisconfigurationException.
Proof.
  apply (log_unsupported_reduction_raises sample_collection
           (mk_log "training_step" "total" (Leaf (LTensor [1])) false true false true
              (other_fn "sum") None None None)
           [1] "sum");
    reflexivity.
Defined.

Lemma X19_witness :
  let cs := [([1; 3], 2%Z); ([4], 6%Z)] in
  ∃ self ms self' q,
    log_all (init (M:=fixed_metric) true)
      (map (λ c, log_tensor "training_step" "loss" c.1 c.2) cs) = Ok self ∧
    get_epoch_metrics self = Ok (ms, self') ∧
    log_metrics ms !! "loss" = Some (Leaf (OTensor [q])) ∧
    callback_metrics ms !! "loss" = Some (Leaf (OTensor [q])) ∧
    q == weighted_mean (map (λ c, Forward c.1 c.2) cs).
Proof.
  intros cs.
  apply (logged_tensors_epoch_mean (M:=fixed_metric) true "training_step" "loss" cs).
  - discriminate.
  - repeat constructor.
Defined.

Lemma X22_witness :
  let a := mk_log (M:=fixed_metric) "training_step" "loss" (Leaf (LTensor [5]))
             true false false true torch_max None None None in
  ∃ self' flag node',
    log sample_collection a = Ok self' ∧
    assoc "training_step.loss" (items self') =
      Some (EResult (Metadata.set_has_reset flag (sample_meta torch_mean)) node').
Proof.
  intros a.
  destruct (log sample_collection a) as [self'|e] eqn:Hlog; [|by vm_compute in Hlog].
  destruct (log_keeps_metadata_of_existing_key sample_collection self' a
              (sample_meta torch_mean)
              (Leaf (ResultMetric.mk (ResultMetric.TensorAcc (ResultMetric.VT 6) 3)
                       (Some [2]) None))
              eq_refl Hlog) as (flag & node' & Hkey).
  exists self', flag, node'. split; [reflexivity|exact Hkey].
Defined.

Lemma X23_witness :
  ∃ ms self',
    get_epoch_metrics sample_collection = Ok (ms, self') ∧
    scalar_caches (items self') ∧
    get_epoch_metrics self' = Ok (ms, self').
Proof.
  destruct (get_epoch_metrics sample_collection) as [[ms self']|e] eqn:Hget;
    [|by vm_compute in Hget].
  assert (scalar_caches (items self')) as Hscalar.
  { pose proof Hget as Hget'. vm_compute in Hget'. injection Hget' as _ <-.
    intros key meta node item c Hin Hitem Hc. cbn [items] in Hin.
    repeat (apply elem_of_cons in Hin as [Heq|Hin];
            [injection Heq as _ _ ->; apply list_elem_of_singleton in Hitem as ->;
             by injection Hc as <-|]).
    by apply elem_of_nil in Hin. }
  exists ms, self'. split; [reflexivity|]. split; [exact Hscalar|].
  apply (get_epoch_metrics_again sample_collection self' ms Hget Hscalar).
Defined.

Lemma X24_witness :
  let cs := [Update [-1] 1; Forward [2; 4] 2] in
  ∃ st0 st q self',
    ResultMetric.reset (sample_meta torch_max) (ResultMetric.init (M:=fixed_metric) true)
      = Ok st0 ∧
    run_calls st0 cs = Ok st ∧
    ResultMetric.wrapped_compute st.1 st.2 = Ok ([q], self') ∧
    0 <= q ∧
    Forall (λ c, tensor_mean (call_value c) <= q) cs ∧
    (Exists (λ c, 0 <= tensor_mean (call_value c)) cs → is_running_max q cs) ∧
    (Forall (λ c, tensor_mean (call_value c) < 0) cs → q == 0).
Proof.
  intros cs.
  apply (max_reduction_is_maximum_with_zero (M:=fixed_metric) (sample_meta torch_max)
           (ResultMetric.init true) cs);
    first [discriminate | reflexivity].
Defined.

Lemma X25_witness :
  let cs := [Forward [2] 1; Update [-7; 1] 1] in
  ∃ st0 st q self',
    ResultMetric.reset (sample_meta torch_min) (ResultMetric.init (M:=fixed_metric) true)
      = Ok st0 ∧
    run_calls st0 cs = Ok st ∧
    ResultMetric.wrapped_compute st.1 st.2 = Ok ([q], self') ∧
    q <= 0 ∧
    Forall (λ c, q <= tensor_mean (call_value c)) cs ∧
    (Exists (λ c, tensor_mean (call_value c) <= 0) cs → is_running_min q cs) ∧
    (Forall (λ c, 0 < tensor_mean (call_value c)) cs → q == 0).
Proof.
  intros cs.
  apply (min_reduction_is_minimum_with_zero (M:=fixed_metric) (sample_meta torch_min)
           (ResultMetric.init true) cs);
    first [discriminate | reflexivity].
Defined.

Lemma X26_witness :
  ∃ self',
    reset sample_collection (Some true) = Ok self' ∧
    Forall2 (λ kv kv',
       kv'.1 = kv.1 ∧
       match kv.2, kv'.2 with
       | EResult meta node, EResult meta' node' =>
           shape node' = shape node ∧
           Forall2 (λ item item',
              if bool_decide (ResultMetric.is_tensor item = true)
              then item' = item
              else ∃ m1 m2, ResultMetric.reset m1 item = Ok (m2, item'))
             (leaves node) (leaves node')
       | e, e' => e' = e
       end) (items sample_collection) (items self').
Proof.
  destruct (reset sample_collection (Some true)) as [self'|e] eqn:Hreset;
    [|by vm_compute in Hreset].
  exists self'. split; [reflexivity|].
  apply (reset_metrics_flag_selects_kind sample_collection self' true Hreset).
Defined.

Lemma X29_witness :
  let before := [([1; 3], 2%Z); ([4], 6%Z)] in
  let after := [([2], 1%Z); ([5; 7], 3%Z)] in
  ∃ logged cleared again ms self' q,
    log_all (init (M:=fixed_metric) true)
      (map (λ c, log_tensor "training_step" "loss" c.1 c.2) before) = Ok logged ∧
    reset logged None = Ok cleared ∧
    log_all cleared (map (λ c, log_tensor "training_step" "loss" c.1 c.2) after)
      = Ok again ∧
    get_epoch_metrics again = Ok (ms, self') ∧
    log_metrics ms !! "loss" = Some (Leaf (OTensor [q])) ∧
    callback_metrics ms !! "loss" = Some (Leaf (OTensor [q])) ∧
    q == weighted_mean (map (λ c, Forward c.1 c.2) after).
Proof.
  intros before after.
  apply (reset_starts_a_new_epoch (M:=fixed_metric) true "training_step" "loss"
           before after).
  - discriminate.
  - discriminate.
  - repeat constructor.
  - repeat constructor.
Defined.

End CollectionExamples.
